(** * Rating engine and points economy of the edu-platform backend

    A shallow embedding of
      - [src/models/Rating.js]      the Rating schema and its pre-save hook,
      - [src/unnamed/part_007]      [updateStudentRating] (homework routes),
      - [src/routes/ratings.js]     rating routes and the bonus-task routes,
      - [src/routes/rewards.js]     the reward-claim route,
      - [src/unnamed/part_002]      the [auth] / [authorize] middleware.

    Conventions.
      - A JavaScript [Number] is a rational ([Q]) that stands for the
        binary64 value nearest to it.  The arithmetic of the rating code
        (the weights of the hook, the ratios of counters, the sum and the
        average of grades) is IEEE 754 arithmetic: each operation reads its
        operands as binary64 values and rounds its exact result to the
        nearest one, ties to even ([Js.fl], [Js.add], [Js.mul], [Js.div]).
        Results beyond the largest finite double (Infinity, NaN) are
        outside the model.  [Math.round] is "nearest integer, ties toward
        +infinity".  Counts of array elements and the points ledger
        (balances, task points, prices) are added and subtracted exactly,
        as binary64 does on integers below 2^53.
      - [totalScore] is only ever written by the pre-save hook, from
        [Math.round]; it is kept as an integer ([Z]).
      - A MongoDB collection is the list of its documents in insertion
        order; [findOne] returns the first match.
      - [new Date()] reads a clock value that the caller passes in.
      - [save()] of a Rating validates the document against the schema
        ([min: 0], [max: 10] on six paths) before the pre-save hook runs:
        a document that fails is not written and [save()] rejects
        ([Rating.validate], [Aggregator.save]); what the hook assigns is
        written as it is and meets the validators at the next save.
        Apart from that, writes are acknowledged by the store, except in
        the reward-claim route, where the answer to each of its two writes
        is an input. *)

From Stdlib Require Import ZArith QArith Qround Qpower Qabs Lqa.
From Stdlib Require Import List Bool Lia String.
From Stdlib Require Import Permutation Sorted.
Import ListNotations.

Definition ObjectId := nat.
Definition Date := Z.
Bind Scope nat_scope with ObjectId.
Bind Scope Z_scope with Date.

(** ** JavaScript built-ins used by the code *)
Module Js.

(** [Math.round(x)] *)
Definition Math_round (x : Q) : Z := Qfloor (x + (1 # 2)).

(** [x > y] on numbers *)
Definition gt (x y : Q) : bool := negb (Qle_bool x y).

(** truthiness of a number: [0] is falsy *)
Definition truthy (x : Q) : bool := negb (Qeq_bool x 0).

(** *** binary64 *)

Definition pow2 (e : Z) : Q := Qpower 2 e.

(** The binary exponent of a positive number: the [k] with
    [2^k <= x < 2^(k+1)]. *)
Definition ilog2 (x : Q) : Z :=
  let k := (Z.log2 (Qnum x) - Z.log2 (Zpos (Qden x)))%Z in
  if Qle_bool (pow2 k) x then k else (k - 1)%Z.

(** The nearest integer, ties to the even one. *)
Definition rne (q : Q) : Z :=
  let f := Qfloor q in
  match Qcompare (q - inject_Z f) (1 # 2) with
  | Lt => f
  | Gt => (f + 1)%Z
  | Eq => if Z.even f then f else (f + 1)%Z
  end.

(** The binary64 value nearest to [x], ties to even: a multiple of
    [2^e], where [e] leaves 53 significant bits and is not below the
    exponent of the subnormal numbers. *)
Definition fl (x : Q) : Q :=
  if Qeq_bool x 0 then 0
  else
    let e := Z.max (ilog2 (Qabs x) - 52) (-1074) in
    Qred (inject_Z (rne (x / pow2 e)) * pow2 e).

(** [x + y], [x * y] and [x / y] on numbers. *)
Definition add (x y : Q) : Q := fl (fl x + fl y).
Definition mul (x y : Q) : Q := fl (fl x * fl y).
Definition div (x y : Q) : Q := fl (fl x / fl y).

End Js.

(** ** models/Rating.js *)
Module Rating.

Record MonthlyStat := mkMonthlyStat {
  ms_month : Q;
  ms_year : Q;
  ms_grades : Q;
  ms_attendance : Q;
  ms_homeworkCompletion : Q;
  ms_classParticipation : Q;
  ms_totalScore : Q
}.

Record t := mk {
  id : ObjectId;
  student : ObjectId;
  group : ObjectId;
  grades : Q;
  attendance : Q;
  homeworkCompletion : Q;
  classParticipation : Q;
  totalScore : Z;
  rankInGroup : Z;
  totalHomeworks : Q;
  completedHomeworks : Q;
  totalClasses : Q;
  attendedClasses : Q;
  participationCount : Q;
  averageGrade : Q;
  monthlyStats : list MonthlyStat;
  lastUpdated : Date
}.

(** [new Rating({ student, group })]: every other path takes its schema
    default; [lastUpdated] defaults to [Date.now]. *)
Definition new (i s g : ObjectId) (now : Date) : t :=
  mk i s g 0 0 0 0 0%Z 0%Z 0 0 0 0 0 0 [] now.

(** Field assignments [this.f = v]. *)
Definition set_grades (v : Q) (r : t) : t :=
  mk (id r) (student r) (group r) v (attendance r) (homeworkCompletion r)
     (classParticipation r) (totalScore r) (rankInGroup r) (totalHomeworks r)
     (completedHomeworks r) (totalClasses r) (attendedClasses r)
     (participationCount r) (averageGrade r) (monthlyStats r) (lastUpdated r).

Definition set_attendance (v : Q) (r : t) : t :=
  mk (id r) (student r) (group r) (grades r) v (homeworkCompletion r)
     (classParticipation r) (totalScore r) (rankInGroup r) (totalHomeworks r)
     (completedHomeworks r) (totalClasses r) (attendedClasses r)
     (participationCount r) (averageGrade r) (monthlyStats r) (lastUpdated r).

Definition set_homeworkCompletion (v : Q) (r : t) : t :=
  mk (id r) (student r) (group r) (grades r) (attendance r) v
     (classParticipation r) (totalScore r) (rankInGroup r) (totalHomeworks r)
     (completedHomeworks r) (totalClasses r) (attendedClasses r)
     (participationCount r) (averageGrade r) (monthlyStats r) (lastUpdated r).

Definition set_totalScore (v : Z) (r : t) : t :=
  mk (id r) (student r) (group r) (grades r) (attendance r)
     (homeworkCompletion r) (classParticipation r) v (rankInGroup r)
     (totalHomeworks r) (completedHomeworks r) (totalClasses r)
     (attendedClasses r) (participationCount r) (averageGrade r)
     (monthlyStats r) (lastUpdated r).

Definition set_rankInGroup (v : Z) (r : t) : t :=
  mk (id r) (student r) (group r) (grades r) (attendance r)
     (homeworkCompletion r) (classParticipation r) (totalScore r) v
     (totalHomeworks r) (completedHomeworks r) (totalClasses r)
     (attendedClasses r) (participationCount r) (averageGrade r)
     (monthlyStats r) (lastUpdated r).

Definition set_totalHomeworks (v : Q) (r : t) : t :=
  mk (id r) (student r) (group r) (grades r) (attendance r)
     (homeworkCompletion r) (classParticipation r) (totalScore r)
     (rankInGroup r) v (completedHomeworks r) (totalClasses r)
     (attendedClasses r) (participationCount r) (averageGrade r)
     (monthlyStats r) (lastUpdated r).

Definition set_completedHomeworks (v : Q) (r : t) : t :=
  mk (id r) (student r) (group r) (grades r) (attendance r)
     (homeworkCompletion r) (classParticipation r) (totalScore r)
     (rankInGroup r) (totalHomeworks r) v (totalClasses r)
     (attendedClasses r) (participationCount r) (averageGrade r)
     (monthlyStats r) (lastUpdated r).

Definition set_averageGrade (v : Q) (r : t) : t :=
  mk (id r) (student r) (group r) (grades r) (attendance r)
     (homeworkCompletion r) (classParticipation r) (totalScore r)
     (rankInGroup r) (totalHomeworks r) (completedHomeworks r)
     (totalClasses r) (attendedClasses r) (participationCount r) v
     (monthlyStats r) (lastUpdated r).

Definition set_lastUpdated (v : Date) (r : t) : t :=
  mk (id r) (student r) (group r) (grades r) (attendance r)
     (homeworkCompletion r) (classParticipation r) (totalScore r)
     (rankInGroup r) (totalHomeworks r) (completedHomeworks r)
     (totalClasses r) (attendedClasses r) (participationCount r)
     (averageGrade r) (monthlyStats r) v.

(** The weighted sum of the hook: grades 40%, attendance 25%,
    homework 25%, participation 10%. *)
Definition weighted (r : t) : Q :=
  Js.add
    (Js.add
       (Js.add (Js.mul (grades r) (4 # 10)) (Js.mul (attendance r) (25 # 100)))
       (Js.mul (homeworkCompletion r) (25 # 100)))
    (Js.mul (classParticipation r) (1 # 10)).

(** [ratingSchema.pre('save', ...)], statement by statement. *)
Definition pre_save (now : Date) (r : t) : t :=
  let r := set_totalScore (Js.Math_round (weighted r)) r in
  let r :=
    if Js.gt (totalHomeworks r) 0
    then set_homeworkCompletion
           (inject_Z (Js.Math_round
                        (Js.mul (Js.div (completedHomeworks r)
                                        (totalHomeworks r)) 10))) r
    else r in
  let r :=
    if Js.gt (totalClasses r) 0
    then set_attendance
           (inject_Z (Js.Math_round
                        (Js.mul (Js.div (attendedClasses r)
                                        (totalClasses r)) 10))) r
    else r in
  set_lastUpdated now r.

(** The validators [min: 0, max: 10] of one path. *)
Definition in_range (x : Q) : bool := Qle_bool 0 x && Qle_bool x 10.

(** Schema validation, as [save()] runs it before the hook: the six paths
    that carry validators.  [student] and [group], the required paths, are
    present in every row of the model. *)
Definition validate (r : t) : bool :=
  in_range (grades r) && in_range (attendance r)
  && in_range (homeworkCompletion r) && in_range (classParticipation r)
  && in_range (inject_Z (totalScore r)) && in_range (averageGrade r).

End Rating.

(** ** models/Homework.js (the paths [updateStudentRating] reads) *)
Module Homework.

Record Submission := mkSubmission {
  sub_student : ObjectId;
  totalGrade : option Q          (* [undefined] until graded *)
}.

Record t := mk {
  id : ObjectId;
  group : ObjectId;
  submissions : list Submission
}.

End Homework.

(** ** models/User.js (the paths the rating, bonus and reward routes use) *)
Module User.

Inductive Role := student | teacher | parent | admin.

Definition Role_eqb (a b : Role) : bool :=
  match a, b with
  | student, student | teacher, teacher | parent, parent | admin, admin => true
  | _, _ => false
  end.

Definition Role_name (a : Role) : string :=
  match a with
  | student => "student"
  | teacher => "teacher"
  | parent => "parent"
  | admin => "admin"
  end.

Record Achievement := mkAchievement {
  title : string;
  description : string;
  earnedAt : Date
}.

Record CompletedTask := mkCompletedTask {
  taskId : Z;
  completedAt : Date;
  proof : string;
  notes : string;
  pointsEarned : Q
}.

Record t := mk {
  id : ObjectId;
  role : Role;
  isActive : bool;
  group : option ObjectId;
  children : list ObjectId;
  points : Q;
  achievements : list Achievement;
  completedBonusTasks : list CompletedTask
}.

Definition set_points (v : Q) (u : t) : t :=
  mk (id u) (role u) (isActive u) (group u) (children u) v
     (achievements u) (completedBonusTasks u).

Definition set_achievements (v : list Achievement) (u : t) : t :=
  mk (id u) (role u) (isActive u) (group u) (children u) (points u)
     v (completedBonusTasks u).

Definition set_completedBonusTasks (v : list CompletedTask) (u : t) : t :=
  mk (id u) (role u) (isActive u) (group u) (children u) (points u)
     (achievements u) v.

End User.

(** ** models/Reward.js *)
Module Reward.

Inductive ClaimStatus := pending | delivered | cancelled.

Record Claim := mkClaim {
  student : ObjectId;
  claimedAt : Date;
  status : ClaimStatus
}.

Record t := mk {
  id : ObjectId;
  pointsRequired : Q;
  order : Q;
  isActive : bool;
  claimedBy : list Claim
}.

Definition set_claimedBy (v : list Claim) (r : t) : t :=
  mk (id r) (pointsRequired r) (order r) (isActive r) v.

(** [this.claimedBy.find(claim => claim.student.toString() === uid)] *)
Definition claimOf (uid : ObjectId) (r : t) : option Claim :=
  find (fun c => Nat.eqb (student c) uid) (claimedBy r).

End Reward.

(** ** The document store *)

(** A collection keyed by [_id]. *)
Section Collection.
Variable A : Type.
Variable key : A -> ObjectId.

Definition findById (i : ObjectId) (c : list A) : option A :=
  find (fun x => Nat.eqb (key x) i) c.

(** [doc.save()] once its hooks have run: the stored document with the
    same [_id] is replaced where it stands; a new document is inserted
    last. *)
Fixpoint put (x : A) (c : list A) : list A :=
  match c with
  | [] => [x]
  | y :: c' => if Nat.eqb (key y) (key x) then x :: c' else y :: put x c'
  end.

(** [Model.findByIdAndUpdate(i, f)]: no document, no change. *)
Fixpoint update (i : ObjectId) (f : A -> A) (c : list A) : list A :=
  match c with
  | [] => []
  | y :: c' => if Nat.eqb (key y) i then f y :: c' else y :: update i f c'
  end.
End Collection.

Arguments findById {A} key i c.
Arguments put {A} key x c.
Arguments update {A} key i f c.

Record Db := mkDb {
  users : list User.t;
  groups : list ObjectId;
  ratings : list Rating.t;
  homeworks : list Homework.t;
  rewards : list Reward.t
}.

Definition with_users (v : list User.t) (db : Db) : Db :=
  mkDb v (groups db) (ratings db) (homeworks db) (rewards db).

Definition with_ratings (v : list Rating.t) (db : Db) : Db :=
  mkDb (users db) (groups db) v (homeworks db) (rewards db).

Definition with_rewards (v : list Reward.t) (db : Db) : Db :=
  mkDb (users db) (groups db) (ratings db) (homeworks db) v.

(** ** HTTP replies: [res.json(..)] and [res.status(c).json(..)] *)
Inductive Response (A : Type) : Type :=
| Success (data : A)
| Failure (status : nat) (message : string).

Arguments Success {A} data.
Arguments Failure {A} status message.

(** The reply of every [catch] block. *)
Definition server_error {A} : Response A := Failure 500 "Server error".

(** ** middleware/auth.js *)
Module Auth.

(** The [Authorization] header: absent, rejected by [jwt.verify], or
    decoding to a user id. *)
Inductive Token := NoToken | BadToken | Bearer (uid : ObjectId).

(** [auth]: the reply that ends the request, or [req.user]. *)
Definition auth (db : Db) (tok : Token) : User.t + (nat * string) :=
  match tok with
  | NoToken => inr (401%nat, "No token provided, authorization denied"%string)
  | BadToken => inr (401%nat, "Token is not valid"%string)
  | Bearer uid =>
      match findById User.id uid (users db) with
      | None => inr (401%nat, "Token is not valid"%string)
      | Some user =>
          if negb (User.isActive user)
          then inr (401%nat, "Account is deactivated"%string)
          else inl user
      end
  end.

(** [authorize(...roles)]: [true] lets the request through, [false] is the
    403 reply. *)
Definition authorize (roles : list User.Role) (user : User.t) : bool :=
  existsb (User.Role_eqb (User.role user)) roles.

Definition forbidden {A} (user : User.t) : Response A :=
  Failure 403 ("Role " ++ User.Role_name (User.role user)
               ++ " is not authorized to access this resource").

End Auth.

(** ** Score aggregator: [updateStudentRating] and [rating.save()] *)
Module Aggregator.

(** [await rating.save()]: validation, the pre-save hook, then the write;
    [None] when validation fails and [save()] rejects, nothing written. *)
Definition save (now : Date) (r : Rating.t) (db : Db) : option Db :=
  if Rating.validate r
  then Some (with_ratings (put Rating.id (Rating.pre_save now r) (ratings db))
                          db)
  else None.

(** The store once a [save()] has settled, whichever way. *)
Definition settle (now : Date) (db : Db) (r : Rating.t) : Db :=
  match save now r db with
  | Some db' => db'
  | None => db
  end.

(** [Rating.findOne({ student, group })] *)
Definition findOne (s g : ObjectId) (db : Db) : option Rating.t :=
  find (fun r => Nat.eqb (Rating.student r) s && Nat.eqb (Rating.group r) g)
       (ratings db).

(** The running variables of the [homework.forEach] loop. *)
Record Tally := mkTally {
  totalGrades : Q;
  gradeCount : Q;
  completedHomeworks : Q
}.

(** One iteration of the loop body for homework [hw]. *)
Definition tally_step (studentId : ObjectId) (acc : Tally) (hw : Homework.t)
  : Tally :=
  match find (fun sub => Nat.eqb (Homework.sub_student sub) studentId)
             (Homework.submissions hw) with
  | None => acc
  | Some submission =>
      let completed := completedHomeworks acc + 1 in
      match Homework.totalGrade submission with
      | Some g =>
          if Js.truthy g
          then mkTally (Js.add (totalGrades acc) g) (gradeCount acc + 1)
                       completed
          else mkTally (totalGrades acc) (gradeCount acc) completed
      | None => mkTally (totalGrades acc) (gradeCount acc) completed
      end
  end.

(** The four assignments between the loop and [rating.save()]. *)
Definition assign_facts (acc : Tally) (totalHomeworks : Q) (rating : Rating.t)
  : Rating.t :=
  let rating :=
    Rating.set_averageGrade
      (if Js.gt (gradeCount acc) 0
       then Js.div (totalGrades acc) (gradeCount acc) else 0) rating in
  let rating := Rating.set_grades (Rating.averageGrade rating) rating in
  let rating := Rating.set_totalHomeworks totalHomeworks rating in
  Rating.set_completedHomeworks (completedHomeworks acc) rating.

(** [Homework.find({ group: groupId })] and the [forEach] over it. *)
Definition tally (studentId groupId : ObjectId) (db : Db) : Tally * Q :=
  let homework :=
    filter (fun hw => Nat.eqb (Homework.group hw) groupId) (homeworks db) in
  let totalHomeworks := inject_Z (Z.of_nat (List.length homework)) in
  (fold_left (tally_step studentId) homework (mkTally 0 0 0), totalHomeworks).

(** [updateStudentRating(studentId, groupId)]; a rejected [save()] lands
    in the [catch] block, which logs it and returns. *)
Definition updateStudentRating (now : Date) (studentId groupId : ObjectId)
           (db : Db) : Db :=
  match findOne studentId groupId db with
  | None => db
  | Some rating =>
      let (acc, totalHomeworks) := tally studentId groupId db in
      settle now db (assign_facts acc totalHomeworks rating)
  end.

End Aggregator.

(** ** Rank resolver: the two reading routes of routes/ratings.js *)
Module Ranking.

(** Modelled from the spec: the order in which the store's
    [.sort({ totalScore: -1 })] returns rows of equal [totalScore].  The
    sort runs inside MongoDB; it is taken to be stable on the collection's
    insertion order, as section 4.2 words it. *)
Fixpoint insert_desc (r : Rating.t) (l : list Rating.t) : list Rating.t :=
  match l with
  | [] => [r]
  | x :: l' =>
      if (Rating.totalScore r <? Rating.totalScore x)%Z
      then x :: insert_desc r l'
      else r :: l
  end.

Definition sort_desc (l : list Rating.t) : list Rating.t :=
  fold_right insert_desc [] l.

(** [Rating.find({ group }).sort({ totalScore: -1 })] *)
Definition find_sorted (g : ObjectId) (db : Db) : list Rating.t :=
  sort_desc (filter (fun r => Nat.eqb (Rating.group r) g) (ratings db)).

(** [rows.forEach((r, index) => { r.rankInGroup = index + 1; })], with
    [index] counted from [i]. *)
Fixpoint assign_from (i : Z) (rows : list Rating.t) : list Rating.t :=
  match rows with
  | [] => []
  | r :: rows' =>
      Rating.set_rankInGroup (i + 1)%Z r :: assign_from (i + 1)%Z rows'
  end.

Definition assign_ranks (rows : list Rating.t) : list Rating.t :=
  assign_from 0%Z rows.

(** [await Promise.all(rows.map(r => r.save()))].  Every [save()] is
    started before the first one settles, so each row that passes
    validation is written, whatever becomes of the others.  The [await]
    gives the documents as the hook leaves them when all of them pass,
    and throws ([None]) when one is rejected. *)
Definition save_all (now : Date) (rows : list Rating.t) (db : Db)
  : option (list Rating.t) * Db :=
  (if forallb Rating.validate rows
   then Some (map (Rating.pre_save now) rows)
   else None,
   fold_left (Aggregator.settle now) rows db).

(** Rows in descending order of the total they were loaded with. *)
Definition score_ge (a b : Rating.t) : Prop :=
  (Rating.totalScore b <= Rating.totalScore a)%Z.

(** The rows of total [k], in the order they have in [l]. *)
Definition with_score (k : Z) (l : list Rating.t) : list Rating.t :=
  filter (fun r => Z.eqb (Rating.totalScore r) k) l.

(** The shared body of both routes: load, rank, persist. *)
Definition resolve (now : Date) (g : ObjectId) (db : Db)
  : option (list Rating.t) * Db :=
  save_all now (assign_ranks (find_sorted g db)) db.

End Ranking.

(** ** routes/ratings.js: GET /student/:studentId and GET /group/:groupId *)
Module RatingRoutes.

Record StudentRating := mkStudentRating {
  rating : option Rating.t;            (* [currentRating], maybe undefined *)
  groupRankings : list Rating.t
}.

(** [User.findById(id).populate('group')] leaves [student.group] null
    when the user has no group or the group document is gone. *)
Definition populated_group (db : Db) (u : User.t) : option ObjectId :=
  match User.group u with
  | Some g => if existsb (Nat.eqb g) (groups db) then Some g else None
  | None => None
  end.

(** [rows.find(r => r.student._id.toString() === studentId)] over rows
    whose [student] was populated: a row whose user is gone makes
    [r.student._id] throw ([None]). *)
Fixpoint find_current (db : Db) (studentId : ObjectId) (rows : list Rating.t)
  : option (option Rating.t) :=
  match rows with
  | [] => Some None
  | r :: rows' =>
      match findById User.id (Rating.student r) (users db) with
      | None => None
      | Some u =>
          if Nat.eqb (User.id u) studentId then Some (Some r)
          else find_current db studentId rows'
      end
  end.

Definition get_student (now : Date) (db : Db) (tok : Auth.Token)
           (studentId : ObjectId) : Response StudentRating * Db :=
  match Auth.auth db tok with
  | inr (code, msg) => (Failure code msg, db)
  | inl user =>
      if User.Role_eqb (User.role user) User.student
         && negb (Nat.eqb (User.id user) studentId)
      then (Failure 403 "Not authorized", db)
      else if User.Role_eqb (User.role user) User.parent
              && negb (existsb (fun child => Nat.eqb child studentId)
                               (User.children user))
      then (Failure 403 "Not authorized", db)
      else
        match findById User.id studentId (users db) with
        | None => (Failure 404 "Student not found", db)
        | Some student =>
            match populated_group db student with
            | None => (server_error, db)
            | Some g =>
                match Aggregator.findOne studentId g db with
                | None => (Failure 404 "Rating not found", db)
                | Some _ =>
                    let (saved, db') := Ranking.resolve now g db in
                    match saved with
                    | None => (server_error, db')   (* a save was rejected *)
                    | Some groupRatings =>
                        match find_current db studentId groupRatings with
                        | None => (server_error, db')
                        | Some currentRating =>
                            (Success (mkStudentRating currentRating
                                                      groupRatings),
                             db')
                        end
                    end
                end
            end
        end
  end.

Definition get_group (now : Date) (db : Db) (tok : Auth.Token)
           (groupId : ObjectId) : Response (list Rating.t) * Db :=
  match Auth.auth db tok with
  | inr (code, msg) => (Failure code msg, db)
  | inl user =>
      if negb (Auth.authorize [User.teacher] user)
      then (Auth.forbidden user, db)
      else
        let (saved, db') := Ranking.resolve now groupId db in
        match saved with
        | None => (server_error, db')   (* a save was rejected *)
        | Some ratings => (Success ratings, db')
        end
  end.

End RatingRoutes.

(** ** routes/ratings.js, second router: POST /:taskId/complete *)
Module BonusTasks.

(** A row of [bonusTasksData]; the descriptive fields (description,
    type, category, difficulty, timeLimit, requirements) are never read
    by the completion route. *)
Record Task := mkTask {
  id : Z;
  title : string;
  points : Q
}.

Definition bonusTasksData : list Task :=
  [ mkTask 1 "Kundalik o'qish" 10;
    mkTask 2 "Qo'shimcha mashq" 25;
    mkTask 3 "Guruh yordamchisi" 15;
    mkTask 4 "Ijodiy loyiha" 50;
    mkTask 5 "Laboratoriya tajribasi" 30;
    mkTask 6 "Matematik olimpiada tayyorligi" 40;
    mkTask 7 "Ekologik loyiha" 35;
    mkTask 8 "Til o'rganish" 20 ].

Record Completion := mkCompletion {
  pointsEarned : Q;
  totalPoints : Q;
  newAchievements : list User.Achievement
}.

(** [proof || ''] *)
Definition or_empty (s : option string) : string :=
  match s with
  | Some s => s
  | None => EmptyString
  end.

(** [arr.slice(-1)] *)
Definition slice_last {A} (l : list A) : list A :=
  match rev l with
  | [] => []
  | x :: _ => [x]
  end.

(** The milestone block: [completedCount === 1 / 5 / 10]. *)
Definition milestone (now : Date) (completedCount : nat)
  : option User.Achievement :=
  if Nat.eqb completedCount 1 then
    Some (User.mkAchievement "Birinchi bonus vazifa"
            "Birinchi bonus vazifangizni muvaffaqiyatli bajardingiz!" now)
  else if Nat.eqb completedCount 5 then
    Some (User.mkAchievement "Faol o'quvchi"
            "5 ta bonus vazifani bajardingiz!" now)
  else if Nat.eqb completedCount 10 then
    Some (User.mkAchievement "Bonus ustasi"
            "10 ta bonus vazifani bajardingiz!" now)
  else None.

(** The titles a student with [n] completed tasks has been awarded,
    oldest first. *)
Definition badges (n : nat) : list string :=
  (if Nat.leb 1 n then ["Birinchi bonus vazifa"%string] else [])
  ++ (if Nat.leb 5 n then ["Faol o'quvchi"%string] else [])
  ++ (if Nat.leb 10 n then ["Bonus ustasi"%string] else []).

(** The handler's block from "Add to completed tasks" down to the
    milestone check: what it does to the loaded [user] document. *)
Definition record_completion (now : Date) (taskId : Z) (task : Task)
           (proof notes : option string) (user : User.t) : User.t :=
  let user :=
    User.set_completedBonusTasks
      (User.completedBonusTasks user
       ++ [User.mkCompletedTask taskId now (or_empty proof)
             (or_empty notes) (points task)]) user in
  let user := User.set_points (User.points user + points task) user in
  let completedCount := List.length (User.completedBonusTasks user) in
  match milestone now completedCount with
  | Some a => User.set_achievements (User.achievements user ++ [a]) user
  | None => user
  end.

(** [taskId] is [parseInt(req.params.taskId)]; a path that does not parse
    gives [NaN], which matches no task, like any integer outside the
    table. *)
Definition complete (now : Date) (db : Db) (tok : Auth.Token) (taskId : Z)
           (proof notes : option string) : Response Completion * Db :=
  match Auth.auth db tok with
  | inr (code, msg) => (Failure code msg, db)
  | inl req_user =>
      match find (fun t => Z.eqb (id t) taskId) bonusTasksData with
      | None => (Failure 404 "Bonus task not found", db)
      | Some task =>
          match findById User.id (User.id req_user) (users db) with
          | None => (server_error, db)
          | Some user =>
              if existsb (fun ct => Z.eqb (User.taskId ct) taskId)
                         (User.completedBonusTasks user)
              then (Failure 400 "Task already completed", db)
              else
                let user :=
                  record_completion now taskId task proof notes user in
                (Success (mkCompletion (points task) (User.points user)
                            (slice_last (User.achievements user))),
                 with_users (put User.id user (users db)) db)
          end
      end
  end.

End BonusTasks.

(** ** routes/rewards.js: POST /:id/claim *)
Module Rewards.

(** What the store answers to a write: the handler awaits two of them,
    [User.findByIdAndUpdate] and [reward.save()], inside one [try]; a
    rejected write lands in the [catch] and the request ends with 500. *)
Inductive Outcome := Acked | Rejected.

(** [x < y] on numbers *)
Definition lt (x y : Q) : bool := negb (Qle_bool y x).

(** [Reward.findOne({ order: reward.order - 1, isActive: true })] *)
Definition findPrevious (reward : Reward.t) (db : Db) : option Reward.t :=
  find (fun r => Qeq_bool (Reward.order r) (Reward.order reward - 1)
                 && Reward.isActive r)
       (rewards db).

(** [{ $inc: { points: -reward.pointsRequired } }] *)
Definition debit (amount : Q) (u : User.t) : User.t :=
  User.set_points (User.points u + - amount) u.

Definition claim (now : Date) (user_write reward_write : Outcome)
           (db : Db) (tok : Auth.Token) (rewardId : ObjectId)
  : Response string * Db :=
  match Auth.auth db tok with
  | inr (code, msg) => (Failure code msg, db)
  | inl req_user =>
      if negb (Auth.authorize [User.student] req_user)
      then (Auth.forbidden req_user, db)
      else
        match findById Reward.id rewardId (rewards db) with
        | None => (Failure 404 "Reward not found", db)
        | Some reward =>
            if lt (User.points req_user) (Reward.pointsRequired reward)
            then (Failure 400 "Insufficient points", db)
            else
              match Reward.claimOf (User.id req_user) reward with
              | Some _ => (Failure 400 "Reward already claimed", db)
              | None =>
                  let previousReward := findPrevious reward db in
                  let previousMissing :=
                    match previousReward with
                    | Some previous =>
                        match Reward.claimOf (User.id req_user) previous with
                        | Some _ => false
                        | None => true
                        end
                    | None => false
                    end in
                  if previousMissing
                  then (Failure 400 "Must claim previous rewards first", db)
                  else
                    let reward :=
                      Reward.set_claimedBy
                        (Reward.claimedBy reward
                         ++ [Reward.mkClaim (User.id req_user) now
                                            Reward.pending]) reward in
                    match user_write with
                    | Rejected => (server_error, db)
                    | Acked =>
                        let db :=
                          with_users
                            (update User.id (User.id req_user)
                               (debit (Reward.pointsRequired reward))
                               (users db)) db in
                        match reward_write with
                        | Rejected => (server_error, db)
                        | Acked =>
                            (Success "Reward claimed successfully"%string,
                             with_rewards
                               (put Reward.id reward (rewards db)) db)
                        end
                    end
              end
        end
  end.

End Rewards.

(** ** The ledger as a machine: credits and debits in sequence *)
Module Ledger.

Inductive Op :=
| Credit (now : Date) (taskId : Z) (proof notes : option string)
| Debit (now : Date) (user_write reward_write : Rewards.Outcome)
        (rewardId : ObjectId).

(** One request of student [uid]; the reply is dropped. *)
Definition step (uid : ObjectId) (db : Db) (op : Op) : Db :=
  match op with
  | Credit now taskId proof notes =>
      snd (BonusTasks.complete now db (Auth.Bearer uid) taskId proof notes)
  | Debit now w1 w2 rewardId =>
      snd (Rewards.claim now w1 w2 db (Auth.Bearer uid) rewardId)
  end.

Definition run (uid : ObjectId) (db : Db) (ops : list Op) : Db :=
  fold_left (step uid) ops db.


Definition balance (uid : ObjectId) (db : Db) : option Q :=
  option_map User.points (findById User.id uid (users db)).

End Ledger.

(** * Sample data *)
Module Sample.

(** The row [updateStudentRating] hands to [save] for a new student with
    one submitted homework graded 5. *)
Definition graded_once : Rating.t :=
  Rating.mk 1 1 1 5 0 0 0 0 0 1 1 0 0 0 5 [] 0.

(** Student 1 of group 1 right after registration, and the group's one
    homework, which the student submitted and the teacher graded 5. *)
Definition graded_db : Db :=
  mkDb [] [1%nat]
       [Rating.new 1 1 1 0]
       [Homework.mk 1 1 [Homework.mkSubmission 1 (Some 5)]]
       [].

(** Group 7 with three rows inserted in the order A, B, C whose totals
    8, 8, 5 agree with their components. *)
Definition row_A : Rating.t :=
  Rating.mk 1 11 7 10 8 8 0 8 0 0 0 0 0 0 0 [] 0.
Definition row_B : Rating.t :=
  Rating.mk 2 12 7 10 8 8 0 8 0 0 0 0 0 0 0 [] 0.
Definition row_C : Rating.t :=
  Rating.mk 3 13 7 10 2 2 0 5 0 0 0 0 0 0 0 [] 0.

Definition teacher_T : User.t :=
  User.mk 20 User.teacher true None [] 0 [] [].

Definition student_of (i : ObjectId) : User.t :=
  User.mk i User.student true (Some 7%nat) [] 0 [] [].

Definition group7_db : Db :=
  mkDb [student_of 11; student_of 12; student_of 13; teacher_T]
       [7%nat] [row_A; row_B; row_C] [] [].

(** Group 7 once a teacher's PUT has recorded 15 attended classes out of
    10 for student 12, who had no row: the save passes validation on the
    defaults and the hook stores [attendance] 15. *)
Definition row_overbooked : Rating.t :=
  Rating.mk 2 12 7 0 15 0 0 0 0 0 0 10 15 0 0 [] 0.

Definition overbooked_db : Db :=
  mkDb [student_of 11; student_of 12; teacher_T]
       [7%nat] [row_A; row_overbooked] [] [].

(** A student with 100 points and a catalog of two rewards, orders 1 and
    2, costing 10 and 20. *)
Definition rich_student : User.t :=
  User.mk 11 User.student true (Some 7%nat) [] 100 [] [].

Definition reward_1 (active : bool) : Reward.t := Reward.mk 1 10 1 active [].
Definition reward_2 : Reward.t := Reward.mk 2 20 2 true [].

Definition chain_db : Db :=
  mkDb [rich_student] [7%nat] [] [] [reward_1 true; reward_2].


(** The catalog again, for a student without points. *)
Definition poor_db : Db :=
  mkDb [student_of 11] [7%nat] [] [] [reward_1 true; reward_2].

(** Student 11 claims reward 1, completes task 3, claims reward 2 with
    the store refusing the second write, and claims reward 2 again. *)
Definition mixed_ops : list Ledger.Op :=
  [Ledger.Debit 1 Rewards.Acked Rewards.Acked 1;
   Ledger.Credit 2 3 None None;
   Ledger.Debit 3 Rewards.Acked Rewards.Rejected 2;
   Ledger.Debit 4 Rewards.Acked Rewards.Acked 2].

(** Student 11 completes tasks 1 to 5, then task 5 again, then task 6. *)
Definition seven_calls : list Ledger.Op :=
  [Ledger.Credit 1 1 None None; Ledger.Credit 2 2 None None;
   Ledger.Credit 3 3 None None; Ledger.Credit 4 4 None None;
   Ledger.Credit 5 5 None None; Ledger.Credit 6 5 None None;
   Ledger.Credit 7 6 None None].


End Sample.

(** * The rest of the cited files *)

(** The document of [rows] with the key of [y], or [y] when there is
    none. *)
Definition overlay {A : Type} (key : A -> ObjectId) (rows : list A) (y : A)
  : A :=
  match findById key (key y) rows with
  | Some x => x
  | None => y
  end.

Definition with_homeworks (v : list Homework.t) (db : Db) : Db :=
  mkDb (users db) (groups db) (ratings db) v (rewards db).

(** ** Predicates on rating rows *)
Module RatingInv.

(** A value on the schema's scale, [min: 0, max: 10]. *)
Definition in_scale (x : Q) : Prop := 0 <= x /\ x <= 10.

Definition components_in_scale (r : Rating.t) : Prop :=
  in_scale (Rating.grades r) /\ in_scale (Rating.attendance r)
  /\ in_scale (Rating.homeworkCompletion r)
  /\ in_scale (Rating.classParticipation r).

(** The row is as a save leaves it: the total weighs the stored
    components, and each percentage whose counter is positive is the
    rounded ratio of its counters. *)
Definition consistent (r : Rating.t) : Prop :=
  Rating.totalScore r = Js.Math_round (Rating.weighted r)
  /\ (Js.gt (Rating.totalHomeworks r) 0 = true ->
      Rating.homeworkCompletion r
      = inject_Z (Js.Math_round
                    (Js.mul (Js.div (Rating.completedHomeworks r)
                                    (Rating.totalHomeworks r)) 10)))
  /\ (Js.gt (Rating.totalClasses r) 0 = true ->
      Rating.attendance r
      = inject_Z (Js.Math_round
                    (Js.mul (Js.div (Rating.attendedClasses r)
                                    (Rating.totalClasses r)) 10))).

End RatingInv.

(** ** Grades as the aggregator reads them *)
Module Grades.

(** A submission graded 0 with the grade taken away. *)
Definition ungrade_zero_sub (sub : Homework.Submission) : Homework.Submission :=
  match Homework.totalGrade sub with
  | Some g =>
      if Js.truthy g then sub
      else Homework.mkSubmission (Homework.sub_student sub) None
  | None => sub
  end.

Definition ungrade_zero (hw : Homework.t) : Homework.t :=
  Homework.mk (Homework.id hw) (Homework.group hw)
              (map ungrade_zero_sub (Homework.submissions hw)).

(** Every grade on record lies on the schema's scale for [totalGrade],
    [min: 0, max: 10]. *)
Definition grades_in_scale (hws : list Homework.t) : Prop :=
  forall hw sub g,
    In hw hws -> In sub (Homework.submissions hw) ->
    Homework.totalGrade sub = Some g -> 0 <= g /\ g <= 10.

End Grades.

(** ** Predicates on the reward catalog *)
Module RewardInv.

(** No reward carries two claim records of one student. *)
Definition one_claim_each (db : Db) : Prop :=
  forall r, In r (rewards db) ->
            NoDup (map Reward.student (Reward.claimedBy r)).

(** The unlock chain: whoever holds a claim on a reward holds one on the
    reward the claim route looks up as its previous one. *)
Definition chain_respected (db : Db) : Prop :=
  forall r u previous,
    In r (rewards db) ->
    Reward.claimOf u r <> None ->
    Rewards.findPrevious r db = Some previous ->
    Reward.claimOf u previous <> None.

End RewardInv.

(** ** routes/rewards.js: GET / *)
Module RewardsList.

(** The store's [.sort({ order: 1 })], kept stable on insertion order; the
    unique index on [order] leaves no ties among stored rewards, and
    nothing proved below depends on how ties would fall. *)
Fixpoint insert_asc (r : Reward.t) (l : list Reward.t) : list Reward.t :=
  match l with
  | [] => [r]
  | x :: l' =>
      if Rewards.lt (Reward.order x) (Reward.order r)
      then x :: insert_asc r l'
      else r :: l
  end.

Definition sort_asc (l : list Reward.t) : list Reward.t :=
  fold_right insert_asc [] l.

(** One reward as a student sees it: [...reward.toObject()] with the three
    fields the route adds. *)
Record View := mkView {
  reward : Reward.t;
  canClaim : bool;
  claimed : bool;
  claimStatus : option Reward.ClaimStatus
}.

Inductive Listing :=
| ForStudent (rewards : list View) (userPoints : Q)
| ForOthers (rewards : list Reward.t).

(** The body of [rewards.map(reward => ...)]. *)
Definition view (req_user : User.t) (reward : Reward.t) : View :=
  let claimed := Reward.claimOf (User.id req_user) reward in
  mkView reward
         (Qle_bool (Reward.pointsRequired reward) (User.points req_user)
          && match claimed with Some _ => false | None => true end)
         (match claimed with Some _ => true | None => false end)
         (match claimed with
          | Some c => Some (Reward.status c)
          | None => None
          end).

Definition list (db : Db) (tok : Auth.Token) : Response Listing :=
  match Auth.auth db tok with
  | inr (code, msg) => Failure code msg
  | inl req_user =>
      let rewards := sort_asc (filter Reward.isActive (rewards db)) in
      if User.Role_eqb (User.role req_user) User.student
      then Success (ForStudent (map (view req_user) rewards)
                               (User.points req_user))
      else Success (ForOthers rewards)
  end.

End RewardsList.

(** ** routes/ratings.js, second router: GET / *)
Module BonusList.

Record TaskStatus := mkTaskStatus {
  task : BonusTasks.Task;
  completed : bool;
  completedAt : option Date
}.

Record Overview := mkOverview {
  tasks : list TaskStatus;
  totalAvailable : nat;
  totalCompleted : nat;
  totalPoints : Q
}.

(** The body of [bonusTasksData.map(task => ...)]. *)
Definition status (completedTasks : list User.CompletedTask)
           (task : BonusTasks.Task) : TaskStatus :=
  mkTaskStatus task
    (existsb (fun ct => Z.eqb (User.taskId ct) (BonusTasks.id task))
             completedTasks)
    (option_map User.completedAt
       (find (fun ct => Z.eqb (User.taskId ct) (BonusTasks.id task))
             completedTasks)).

(** The callback of [completedTasks.reduce(..., 0)]. *)
Definition add_points (sum : Q) (ct : User.CompletedTask) : Q :=
  sum + match find (fun t => Z.eqb (BonusTasks.id t) (User.taskId ct))
                   BonusTasks.bonusTasksData with
        | Some task => BonusTasks.points task
        | None => 0
        end.

Definition list (db : Db) (tok : Auth.Token) : Response Overview :=
  match Auth.auth db tok with
  | inr (code, msg) => Failure code msg
  | inl req_user =>
      match findById User.id (User.id req_user) (users db) with
      | None => server_error
      | Some user =>
          let completedTasks := User.completedBonusTasks user in
          Success (mkOverview
                     (map (status completedTasks) BonusTasks.bonusTasksData)
                     (List.length BonusTasks.bonusTasksData)
                     (List.length completedTasks)
                     (fold_left add_points completedTasks 0))
      end
  end.

End BonusList.

(** ** Predicates on completed bonus tasks *)
Module BonusInv.

(** The completed-task records of a user name tasks of the table, each
    once. *)
Definition clean (user : User.t) : Prop :=
  NoDup (map User.taskId (User.completedBonusTasks user))
  /\ forall ct, In ct (User.completedBonusTasks user) ->
                In (User.taskId ct)
                   (map BonusTasks.id BonusTasks.bonusTasksData).

End BonusInv.

(** ** routes/ratings.js, second router: GET /leaderboard *)
Module Leaderboard.

(** The store's [.sort({ points: -1 })], kept stable on insertion order;
    nothing proved below depends on how ties fall. *)
Fixpoint insert_desc (u : User.t) (l : list User.t) : list User.t :=
  match l with
  | [] => [u]
  | x :: l' =>
      if Rewards.lt (User.points u) (User.points x)
      then x :: insert_desc u l'
      else u :: l
  end.

Definition sort_desc (l : list User.t) : list User.t :=
  fold_right insert_desc [] l.

(** One line of the board; [name] is built from fields outside the
    model. *)
Record Entry := mkEntry {
  rank : Z;
  points : Q;
  completedTasks : nat
}.

(** [users.map((user, index) => ...)], with [index] counted from [i]. *)
Fixpoint entries_from (i : Z) (l : list User.t) : list Entry :=
  match l with
  | [] => []
  | user :: l' =>
      mkEntry (i + 1)%Z
              (if Js.truthy (User.points user) then User.points user else 0)
              (List.length (User.completedBonusTasks user))
      :: entries_from (i + 1)%Z l'
  end.

(** [User.find({ role: 'student' }).sort({ points: -1 }).limit(10)] *)
Definition top (db : Db) : list User.t :=
  firstn 10
    (sort_desc
       (filter (fun u => User.Role_eqb (User.role u) User.student)
               (users db))).

Definition leaderboard (db : Db) (tok : Auth.Token) : Response (list Entry) :=
  match Auth.auth db tok with
  | inr (code, msg) => Failure code msg
  | inl _ => Success (entries_from 0 (top db))
  end.

(** The students of the store with more than [p] points. *)
Definition ahead (p : Q) (db : Db) : list User.t :=
  filter (fun u => User.Role_eqb (User.role u) User.student
                   && Rewards.lt p (User.points u))
         (users db).

End Leaderboard.

(** * Properties *)

(** ** binary64 rounding *)

Lemma pow2_pos (e : Z) : 0 < Js.pow2 e.
Proof. apply Qpower_0_lt. reflexivity. Qed.

Lemma pow2_le (a b : Z) : (a <= b)%Z -> Js.pow2 a <= Js.pow2 b.
Proof. intros H. apply Qpower_le_compat_l; [exact H | discriminate]. Qed.

Lemma pow2_lt_inv (a b : Z) : Js.pow2 a < Js.pow2 b -> (a < b)%Z.
Proof. intros H. apply (Qpower_lt_compat_l_inv 2); [exact H | reflexivity]. Qed.

Lemma pow2_plus (a b : Z) : Js.pow2 (a + b) == Js.pow2 a * Js.pow2 b.
Proof. apply Qpower_plus. discriminate. Qed.

Lemma pow2_minus (a b : Z) : Js.pow2 (a - b) == Js.pow2 a / Js.pow2 b.
Proof. apply Qpower_minus. discriminate. Qed.

Lemma pow2_Z (n : Z) : (0 <= n)%Z -> Js.pow2 n == inject_Z (2 ^ n).
Proof. intros H. unfold Js.pow2. now rewrite (Zpower_Qpower 2 n H). Qed.

(** [ilog2 x] is the binary exponent of a positive [x]. *)
Lemma ilog2_spec (x : Q) :
  0 < x -> Js.pow2 (Js.ilog2 x) <= x /\ x < Js.pow2 (Js.ilog2 x + 1).
Proof.
  intros Hx. destruct x as [n d]. unfold Js.ilog2. cbn [Qnum Qden].
  assert (Hn : (0 < n)%Z).
  { unfold Qlt in Hx. cbn in Hx. lia. }
  set (a := Z.log2 n). set (b := Z.log2 (Z.pos d)).
  assert (Ha : (2 ^ a <= n < 2 ^ (a + 1))%Z).
  { unfold a. pose proof (Z.log2_spec n Hn). now rewrite <- Z.add_1_r in H. }
  assert (Hb : (2 ^ b <= Z.pos d < 2 ^ (b + 1))%Z).
  { unfold b. pose proof (Z.log2_spec (Z.pos d) eq_refl).
    now rewrite <- Z.add_1_r in H. }
  assert (Ha0 : (0 <= a)%Z) by apply Z.log2_nonneg.
  assert (Hb0 : (0 <= b)%Z) by apply Z.log2_nonneg.
  assert (Hpa : (0 < 2 ^ a)%Z) by (apply Z.pow_pos_nonneg; lia).
  assert (Hpb : (0 < 2 ^ b)%Z) by (apply Z.pow_pos_nonneg; lia).
  assert (Hup : n # d < Js.pow2 (a - b + 1)).
  { replace (a - b + 1)%Z with ((a + 1) - b)%Z by lia.
    rewrite pow2_minus. apply Qlt_shift_div_l; [apply pow2_pos|].
    rewrite !pow2_Z by lia.
    unfold Qlt, Qmult, inject_Z. cbn [Qnum Qden].
    rewrite !Pos.mul_1_r, !Z.mul_1_r. nia. }
  assert (Hlow : Js.pow2 (a - b - 1) < n # d).
  { replace (a - b - 1)%Z with (a - (b + 1))%Z by lia.
    rewrite pow2_minus. apply Qlt_shift_div_r; [apply pow2_pos|].
    rewrite !pow2_Z by lia.
    unfold Qlt, Qmult, inject_Z. cbn [Qnum Qden].
    rewrite !Pos.mul_1_r, ?Z.mul_1_r. nia. }
  destruct (Qle_bool (Js.pow2 (a - b)) (n # d)) eqn:E.
  - apply Qle_bool_iff in E. split; assumption.
  - split.
    + now apply Qlt_le_weak.
    + replace (a - b - 1 + 1)%Z with (a - b)%Z by lia.
      apply Qnot_le_lt. intros H. apply Qle_bool_iff in H. congruence.
Qed.

Lemma ilog2_mono (x y : Q) : 0 < x -> x <= y -> (Js.ilog2 x <= Js.ilog2 y)%Z.
Proof.
  intros Hx Hxy.
  destruct (ilog2_spec x Hx) as [Hlx _].
  destruct (ilog2_spec y (Qlt_le_trans _ _ _ Hx Hxy)) as [_ Huy].
  assert (H : Js.pow2 (Js.ilog2 x) < Js.pow2 (Js.ilog2 y + 1)) by lra.
  apply pow2_lt_inv in H. lia.
Qed.

(** Rounding to the nearest integer, ties to even. *)
Lemma rne_cases (q : Q) :
  let f := Qfloor q in
  (Js.rne q = f /\ q - inject_Z f <= 1 # 2)
  \/ (Js.rne q = (f + 1)%Z /\ 1 # 2 <= q - inject_Z f).
Proof.
  cbv zeta. unfold Js.rne.
  destruct (Qcompare_spec (q - inject_Z (Qfloor q)) (1 # 2)) as [E|E|E].
  - destruct (Z.even (Qfloor q)); [left | right]; split; trivial; lra.
  - left. split; [reflexivity | lra].
  - right. split; [reflexivity | lra].
Qed.

Lemma rne_strict (q : Q) :
  let f := Qfloor q in
  (q - inject_Z f < 1 # 2 -> Js.rne q = f)
  /\ (1 # 2 < q - inject_Z f -> Js.rne q = (f + 1)%Z).
Proof.
  cbv zeta. unfold Js.rne.
  destruct (Qcompare_spec (q - inject_Z (Qfloor q)) (1 # 2)) as [E|E|E];
    split; intros H; try reflexivity; exfalso; lra.
Qed.

Lemma floor_bounds (q : Q) :
  inject_Z (Qfloor q) <= q /\ q < inject_Z (Qfloor q) + 1.
Proof.
  split; [apply Qfloor_le|].
  pose proof (Qlt_floor q) as H. rewrite inject_Z_plus in H. exact H.
Qed.

Lemma rne_mono (p q : Q) : p <= q -> (Js.rne p <= Js.rne q)%Z.
Proof.
  intros Hpq.
  pose proof (Qfloor_resp_le _ _ Hpq) as Hf.
  destruct (rne_cases p) as [[Hp Hp'] | [Hp Hp']];
    destruct (rne_cases q) as [[Hq Hq'] | [Hq Hq']];
    rewrite Hp, Hq; try lia.
  (* p rounds up, q rounds down *)
  destruct (Z.eq_dec (Qfloor p) (Qfloor q)) as [E|E]; [|lia].
  exfalso. rewrite E in *.
  assert (Hp1 : p - inject_Z (Qfloor q) == 1 # 2) by lra.
  assert (Hq1 : q - inject_Z (Qfloor q) == 1 # 2) by lra.
  unfold Js.rne in Hp, Hq. rewrite E in Hp.
  destruct (Qcompare_spec (p - inject_Z (Qfloor q)) (1 # 2)) as [_|F|F];
    [|lra|lra].
  destruct (Qcompare_spec (q - inject_Z (Qfloor q)) (1 # 2)) as [_|F|F];
    [|lra|lra].
  destruct (Z.even (Qfloor q)); lia.
Qed.

Lemma rne_Z (n : Z) : Js.rne (inject_Z n) = n.
Proof.
  pose proof (proj1 (rne_strict (inject_Z n))) as H. cbv zeta in H.
  rewrite Qfloor_Z in H. apply H. lra.
Qed.

(** The value [fl] computes for a number other than 0. *)
Lemma fl_value (x : Q) :
  ~ x == 0 ->
  Js.fl x == inject_Z (Js.rne (x / Js.pow2 (Z.max (Js.ilog2 (Qabs x) - 52) (-1074)))) * Js.pow2 (Z.max (Js.ilog2 (Qabs x) - 52) (-1074)).
Proof.
  intros Hx. unfold Js.fl.
  destruct (Qeq_bool x 0) eqn:E.
  - apply Qeq_bool_iff in E. contradiction.
  - apply Qred_correct.
Qed.

Lemma fl_zero (x : Q) : x == 0 -> Js.fl x = 0.
Proof.
  intros Hx. unfold Js.fl. apply Qeq_bool_iff in Hx. now rewrite Hx.
Qed.

Lemma fl_nonneg (x : Q) : 0 <= x -> 0 <= Js.fl x.
Proof.
  intros Hx. destruct (Qeq_dec x 0) as [E|E].
  - rewrite (fl_zero x E). apply Qle_refl.
  - rewrite (fl_value x E).
    apply Qmult_le_0_compat; [|apply Qlt_le_weak, pow2_pos].
    change 0 with (inject_Z 0). rewrite <- Zle_Qle.
    rewrite <- (rne_Z 0). apply rne_mono.
    apply Qle_shift_div_l; [apply pow2_pos|].
    change (inject_Z 0) with 0. rewrite Qmult_0_l. exact Hx.
Qed.

Lemma Qabs_nonneg_eq (x : Q) : 0 <= x -> Qabs x = x.
Proof.
  destruct x as [n d]. unfold Qle, Qabs. cbn. intros H.
  f_equal. apply Z.abs_eq. lia.
Qed.

(** On numbers that are not negative [fl] keeps the order. *)
Lemma fl_mono (x y : Q) : 0 <= x -> x <= y -> Js.fl x <= Js.fl y.
Proof.
  intros Hx Hxy. destruct (Qeq_dec x 0) as [E|E].
  - rewrite (fl_zero x E). apply fl_nonneg. lra.
  - assert (Hx0 : 0 < x) by (destruct (Qlt_le_dec 0 x); [assumption | exfalso; apply E; lra]).
    assert (Hy0 : 0 < y) by lra.
    assert (Ey : ~ y == 0) by lra.
    rewrite (fl_value x E), (fl_value y Ey).
    rewrite (Qabs_nonneg_eq x), (Qabs_nonneg_eq y) by lra.
    pose proof (ilog2_mono x y Hx0 Hxy) as Hlog.
    destruct (ilog2_spec x Hx0) as [_ Hux].
    destruct (ilog2_spec y Hy0) as [Hly _].
    set (ex := Z.max (Js.ilog2 x - 52) (-1074)).
    set (ey := Z.max (Js.ilog2 y - 52) (-1074)).
    assert (Hexy : (ex <= ey)%Z) by lia.
    destruct (Z.eq_dec ex ey) as [Eq|Ne].
    + rewrite Eq. apply Qmult_le_compat_r; [|apply Qlt_le_weak, pow2_pos].
      rewrite <- Zle_Qle. apply rne_mono.
      apply Qle_shift_div_l; [apply pow2_pos|].
      unfold Qdiv. rewrite <- Qmult_assoc, (Qmult_comm (/ _)).
      rewrite Qmult_inv_r, Qmult_1_r; [exact Hxy|].
      pose proof (pow2_pos ey). lra.
    + assert (Hey : ey = (Js.ilog2 y - 52)%Z) by lia.
      (* fl x <= 2^(ex+53) <= 2^(ey+52) <= fl y *)
      apply Qle_trans with (Js.pow2 (ex + 53)).
      * rewrite pow2_plus, (Qmult_comm (Js.pow2 ex)).
        apply Qmult_le_compat_r; [|apply Qlt_le_weak, pow2_pos].
        rewrite (pow2_Z 53) by lia. rewrite <- Zle_Qle.
        rewrite <- (rne_Z (2 ^ 53)). apply rne_mono.
        rewrite <- (pow2_Z 53) by lia.
        apply Qle_shift_div_r; [apply pow2_pos|].
        rewrite <- pow2_plus. apply Qlt_le_weak.
        eapply Qlt_le_trans; [exact Hux|]. apply pow2_le. lia.
      * apply Qle_trans with (Js.pow2 (ey + 52)); [apply pow2_le; lia|].
        rewrite pow2_plus, (Qmult_comm (Js.pow2 ey)).
        apply Qmult_le_compat_r; [|apply Qlt_le_weak, pow2_pos].
        rewrite (pow2_Z 52) by lia. rewrite <- Zle_Qle.
        rewrite <- (rne_Z (2 ^ 52)). apply rne_mono.
        rewrite <- (pow2_Z 52) by lia.
        apply Qle_shift_div_l; [apply pow2_pos|].
        rewrite <- pow2_plus. rewrite Hey.
        replace (52 + (Js.ilog2 y - 52))%Z with (Js.ilog2 y) by lia.
        exact Hly.
Qed.

(** Operations on numbers that are not negative keep bounds. *)
Lemma mul_bounds (x y hx hy : Q) :
  0 <= x -> x <= hx -> 0 <= y -> y <= hy ->
  0 <= Js.mul x y /\ Js.mul x y <= Js.mul hx hy.
Proof.
  intros Hx0 Hx1 Hy0 Hy1. unfold Js.mul.
  pose proof (fl_nonneg x Hx0). pose proof (fl_nonneg y Hy0).
  pose proof (fl_mono x hx Hx0 Hx1). pose proof (fl_mono y hy Hy0 Hy1).
  assert (0 <= Js.fl x * Js.fl y) by (apply Qmult_le_0_compat; assumption).
  split; [now apply fl_nonneg|].
  apply fl_mono; [assumption|].
  apply Qle_trans with (Js.fl hx * Js.fl y).
  - apply Qmult_le_compat_r; assumption.
  - rewrite !(Qmult_comm (Js.fl hx)).
    apply Qmult_le_compat_r; [assumption | lra].
Qed.

Lemma add_bounds (x y hx hy : Q) :
  0 <= x -> x <= hx -> 0 <= y -> y <= hy ->
  0 <= Js.add x y /\ Js.add x y <= Js.add hx hy.
Proof.
  intros Hx0 Hx1 Hy0 Hy1. unfold Js.add.
  pose proof (fl_nonneg x Hx0). pose proof (fl_nonneg y Hy0).
  pose proof (fl_mono x hx Hx0 Hx1). pose proof (fl_mono y hy Hy0 Hy1).
  split; [apply fl_nonneg | apply fl_mono]; lra.
Qed.

(** A part of a whole: the quotient is at most 1. *)
Lemma div_bounds (part whole : Q) :
  0 <= part -> part <= whole ->
  0 <= Js.div part whole /\ Js.div part whole <= 1.
Proof.
  intros H0 Hle. unfold Js.div.
  pose proof (fl_nonneg part H0) as Hp.
  pose proof (fl_mono part whole H0 Hle) as Hpw.
  assert (Hq : 0 <= Js.fl part / Js.fl whole /\ Js.fl part / Js.fl whole <= 1).
  { destruct (Qeq_dec (Js.fl whole) 0) as [E|E].
    - unfold Qdiv. rewrite E. unfold Qinv at 1 2. cbn [Qnum].
      rewrite Qmult_0_r. split; discriminate.
    - assert (Hw : 0 < Js.fl whole) by lra.
      split.
      + apply Qle_shift_div_l; [exact Hw | lra].
      + apply Qle_shift_div_r; [exact Hw | lra]. }
  destruct Hq as [Hq0 Hq1]. split; [now apply fl_nonneg|].
  change 1 with (Js.fl 1). now apply fl_mono.
Qed.

(** ** The pre-save hook *)

Lemma gt_zero_spec (x : Q) : Js.gt x 0 = true <-> 0 < x.
Proof.
  unfold Js.gt. rewrite negb_true_iff.
  split; intros H.
  - apply Qnot_le_lt. intros Hle. apply Qle_bool_iff in Hle. congruence.
  - destruct (Qle_bool x 0) eqn:E; [|reflexivity].
    apply Qle_bool_iff in E. exfalso. exact (Qlt_not_le _ _ H E).
Qed.

Lemma gt_zero_false (x : Q) : Js.gt x 0 = false <-> ~ 0 < x.
Proof.
  rewrite <- gt_zero_spec. destruct (Js.gt x 0); split; congruence.
Qed.

(** Unfolds the hook on a row and simplifies the record projections only,
    leaving the arithmetic folded. *)
Ltac hook_simpl :=
  cbn -[Qplus Qmult Qdiv Qinv Qlt Qle Js.Math_round Js.gt inject_Z
        Js.add Js.mul Js.div Js.fl Rating.weighted].

Ltac hook_cases r :=
  unfold Rating.pre_save; hook_simpl;
  destruct (Js.gt (Rating.totalHomeworks r) 0) eqn:?; hook_simpl;
  destruct (Js.gt (Rating.totalClasses r) 0) eqn:?; hook_simpl.

(** The hook leaves the counters, the grades and the participation
    component alone. *)
Lemma pre_save_frame (now : Date) (r : Rating.t) :
  let r' := Rating.pre_save now r in
  Rating.id r' = Rating.id r
  /\ Rating.student r' = Rating.student r
  /\ Rating.group r' = Rating.group r
  /\ Rating.grades r' = Rating.grades r
  /\ Rating.classParticipation r' = Rating.classParticipation r
  /\ Rating.rankInGroup r' = Rating.rankInGroup r
  /\ Rating.totalHomeworks r' = Rating.totalHomeworks r
  /\ Rating.completedHomeworks r' = Rating.completedHomeworks r
  /\ Rating.totalClasses r' = Rating.totalClasses r
  /\ Rating.attendedClasses r' = Rating.attendedClasses r.
Proof.
  hook_cases r; repeat split; reflexivity.
Qed.

(** The total the hook stores is the weighted sum of the components the
    row had when [save] was called. *)
Lemma pre_save_totalScore (now : Date) (r : Rating.t) :
  Rating.totalScore (Rating.pre_save now r)
  = Js.Math_round (Rating.weighted r).
Proof.
  hook_cases r; reflexivity.
Qed.

(** The document the hook leaves, path by path. *)
Lemma pre_save_fields (now : Date) (r : Rating.t) :
  Rating.pre_save now r
  = Rating.mk (Rating.id r) (Rating.student r) (Rating.group r)
      (Rating.grades r)
      (if Js.gt (Rating.totalClasses r) 0
       then inject_Z (Js.Math_round
                        (Js.mul (Js.div (Rating.attendedClasses r)
                                        (Rating.totalClasses r)) 10))
       else Rating.attendance r)
      (if Js.gt (Rating.totalHomeworks r) 0
       then inject_Z (Js.Math_round
                        (Js.mul (Js.div (Rating.completedHomeworks r)
                                        (Rating.totalHomeworks r)) 10))
       else Rating.homeworkCompletion r)
      (Rating.classParticipation r)
      (Js.Math_round (Rating.weighted r))
      (Rating.rankInGroup r) (Rating.totalHomeworks r)
      (Rating.completedHomeworks r) (Rating.totalClasses r)
      (Rating.attendedClasses r) (Rating.participationCount r)
      (Rating.averageGrade r) (Rating.monthlyStats r) now.
Proof.
  hook_cases r; reflexivity.
Qed.

(** The worked example of the spec: no counters, components 8, 6, 10, 4. *)
Example pre_save_8_6_10_4 :
  Rating.totalScore
    (Rating.pre_save 1%Z
       (Rating.mk 1 1 1 8 6 10 4 0%Z 0%Z 0 0 0 0 0 0 [] 0%Z)) = 8%Z.
Proof. vm_compute. reflexivity. Qed.

(** Binary64 at work: the components 0.7, 7, 8 and 4.7 weigh
    4.499999999999999 in the hook, which rounds to 4, while their exact
    weighted sum is 4.5, which would round to 5. *)
Example pre_save_rounds_in_binary64 :
  Rating.totalScore
    (Rating.pre_save 1%Z
       (Rating.mk 1 1 1 (7 # 10) 7 8 (47 # 10) 0%Z 0%Z 0 0 0 0 0 0 [] 0%Z))
  = 4%Z
  /\ Js.Math_round ((7 # 10) * (4 # 10) + 7 * (25 # 100) + 8 * (25 # 100)
                    + (47 # 10) * (1 # 10)) = 5%Z.
Proof. vm_compute. split; reflexivity. Qed.

(** Where both counters are not positive the hook touches no component, so
    the stored total is the weighted sum of the stored components. *)
Lemma pre_save_invariant_without_counters (now : Date) (r : Rating.t) :
  ~ 0 < Rating.totalHomeworks r ->
  ~ 0 < Rating.totalClasses r ->
  let r' := Rating.pre_save now r in
  Rating.totalScore r' = Js.Math_round (Rating.weighted r').
Proof.
  intros H1 H2. apply gt_zero_false in H1, H2.
  hook_cases r; try congruence.
  unfold Rating.weighted. hook_simpl. reflexivity.
Qed.

(** A second save with nothing changed in between brings the total in line
    with the stored components. *)
Lemma pre_save_twice_invariant (n1 n2 : Date) (r : Rating.t) :
  let r2 := Rating.pre_save n2 (Rating.pre_save n1 r) in
  Rating.totalScore r2 = Js.Math_round (Rating.weighted r2).
Proof.
  unfold Rating.pre_save at 2.
  hook_cases r; unfold Rating.weighted; hook_simpl;
    repeat match goal with H : Js.gt _ _ = _ |- _ => rewrite H end;
    hook_simpl;
    repeat match goal with H : Js.gt _ _ = _ |- _ => rewrite H end;
    reflexivity.
Qed.

(** C1. The stored total is NOT the weighted sum of the stored components
    after a save that refreshes a percentage: the hook computes the total
    first and only then overwrites [homeworkCompletion] (0 becomes 10), so
    the row is stored with total 2 while its own components weigh 5. *)
Theorem C1_total_computed_before_percentages :
  let r' := Rating.pre_save 1%Z Sample.graded_once in
  Rating.homeworkCompletion r' = inject_Z 10
  /\ Rating.totalScore r' = 2%Z
  /\ Js.Math_round (Rating.weighted r') = 5%Z.
Proof. vm_compute. repeat split. Qed.

(** What an accepted save writes: the document the hook leaves, under the
    id of the document saved. *)
Lemma save_stores (now : Date) (r : Rating.t) (db db' : Db) :
  Aggregator.save now r db = Some db' ->
  Rating.validate r = true
  /\ db' = with_ratings (put Rating.id (Rating.pre_save now r) (ratings db)) db
  /\ findById Rating.id (Rating.id r) (ratings db')
     = Some (Rating.pre_save now r).
Proof.
  unfold Aggregator.save. destruct (Rating.validate r); [|discriminate].
  intros [= <-]. split; [reflexivity|]. split; [reflexivity|].
  cbn [ratings with_ratings].
  rewrite <- (proj1 (pre_save_frame now r)) at 1.
  unfold findById.
  induction (ratings db) as [|y c IH]; cbn [put find].
  - now rewrite Nat.eqb_refl.
  - destruct (Nat.eqb (Rating.id y) (Rating.id (Rating.pre_save now r))) eqn:E;
      cbn [find].
    + now rewrite Nat.eqb_refl.
    + now rewrite E.
Qed.

(** A refused save writes nothing. *)
Lemma save_refused (now : Date) (r : Rating.t) (db : Db) :
  Aggregator.save now r db = None <-> Rating.validate r = false.
Proof.
  unfold Aggregator.save. destruct (Rating.validate r); split; congruence.
Qed.

(** C2. After a write of a row, the stored [homeworkCompletion] is the
    rounded ratio of the homework counters the row was saved with, computed
    as the code computes it, when [totalHomeworks > 0], and is what the row
    was saved with otherwise; [attendance] likewise from the class
    counters.  The write leaves the four counters as they were. *)
Theorem C2_percentages_from_counters
        (now : Date) (r : Rating.t) (db db' : Db) :
  Aggregator.save now r db = Some db' ->
  exists r',
    findById Rating.id (Rating.id r) (ratings db') = Some r'
    /\ Rating.totalHomeworks r' = Rating.totalHomeworks r
    /\ Rating.completedHomeworks r' = Rating.completedHomeworks r
    /\ Rating.totalClasses r' = Rating.totalClasses r
    /\ Rating.attendedClasses r' = Rating.attendedClasses r
    /\ (0 < Rating.totalHomeworks r ->
        Rating.homeworkCompletion r'
        = inject_Z (Js.Math_round
                      (Js.mul (Js.div (Rating.completedHomeworks r)
                                      (Rating.totalHomeworks r)) 10)))
    /\ (~ 0 < Rating.totalHomeworks r ->
        Rating.homeworkCompletion r' = Rating.homeworkCompletion r)
    /\ (0 < Rating.totalClasses r ->
        Rating.attendance r'
        = inject_Z (Js.Math_round
                      (Js.mul (Js.div (Rating.attendedClasses r)
                                      (Rating.totalClasses r)) 10)))
    /\ (~ 0 < Rating.totalClasses r ->
        Rating.attendance r' = Rating.attendance r).
Proof.
  intros Hsave. destruct (save_stores now r db db' Hsave) as (_ & _ & Hfind).
  exists (Rating.pre_save now r). split; [exact Hfind|].
  rewrite (pre_save_fields now r).
  cbn [Rating.totalHomeworks Rating.completedHomeworks Rating.totalClasses
       Rating.attendedClasses Rating.homeworkCompletion Rating.attendance].
  repeat (split; [reflexivity|]).
  repeat split; intros H.
  - apply gt_zero_spec in H. now rewrite H.
  - apply gt_zero_false in H. now rewrite H.
  - apply gt_zero_spec in H. now rewrite H.
  - apply gt_zero_false in H. now rewrite H.
Qed.

(** One homework, completed, and no classes yet: completion becomes 10,
    attendance stays 0. *)
Lemma C2_percentages_from_counters_witness :
  exists db' r',
    Aggregator.save 1 Sample.graded_once Sample.graded_db = Some db'
    /\ findById Rating.id 1 (ratings db') = Some r'
    /\ Rating.homeworkCompletion r' = inject_Z 10
    /\ Rating.attendance r' = 0.
Proof.
  eexists.
  destruct (C2_percentages_from_counters 1%Z Sample.graded_once
              Sample.graded_db _ eq_refl)
    as (r' & Hfind & _ & _ & _ & _ & Hhw & _ & _ & Hatt).
  exists r'. split; [reflexivity|]. split; [exact Hfind|]. split.
  - rewrite Hhw; [vm_compute; reflexivity | reflexivity].
  - rewrite Hatt; [reflexivity | intros H; discriminate H].
Defined.

(** ** The score aggregator *)

(** [Sample.graded_once] is the row the aggregator saves on
    [Sample.graded_db]. *)
Example graded_once_is_saved :
  Aggregator.findOne 1 1
    (Aggregator.updateStudentRating 9 1 1 Sample.graded_db)
  = Some (Rating.pre_save 9 Sample.graded_once).
Proof. vm_compute. reflexivity. Qed.

(** C3. [updateStudentRating] is NOT idempotent on first use: called twice
    on the same facts (one homework, graded 5, the clock held still) it
    stores total 2 the first time and total 5 the second time, because the
    first save computed the total before it refreshed [homeworkCompletion]. *)
Theorem C3_recompute_twice_differs :
  let db1 := Aggregator.updateStudentRating 9%Z 1 1 Sample.graded_db in
  let db2 := Aggregator.updateStudentRating 9%Z 1 1 db1 in
  option_map Rating.totalScore (Aggregator.findOne 1 1 db1) = Some 2%Z
  /\ option_map Rating.totalScore (Aggregator.findOne 1 1 db2) = Some 5%Z
  /\ db1 <> db2.
Proof.
  cbv zeta.
  assert (H1 : option_map Rating.totalScore
                 (Aggregator.findOne 1 1
                    (Aggregator.updateStudentRating 9%Z 1 1 Sample.graded_db))
               = Some 2%Z) by (vm_compute; reflexivity).
  assert (H2 : option_map Rating.totalScore
                 (Aggregator.findOne 1 1
                    (Aggregator.updateStudentRating 9%Z 1 1
                       (Aggregator.updateStudentRating 9%Z 1 1
                          Sample.graded_db)))
               = Some 5%Z) by (vm_compute; reflexivity).
  repeat split; try assumption.
  intros E. rewrite <- E in H2. rewrite H1 in H2. discriminate H2.
Qed.

(** *** One pass of the aggregator over a row *)
Section RowPass.
Variables (now : Date) (acc : Aggregator.Tally) (total : Q).

Let average : Q :=
  if Js.gt (Aggregator.gradeCount acc) 0
  then Js.div (Aggregator.totalGrades acc) (Aggregator.gradeCount acc) else 0.

Let pass (r : Rating.t) : Rating.t :=
  Rating.pre_save now (Aggregator.assign_facts acc total r).

(** The row as one call leaves it: saved when validation lets it, as it
    was otherwise. *)
Let step (r : Rating.t) : Rating.t :=
  if Rating.validate (Aggregator.assign_facts acc total r)
  then pass r else r.

Ltac fields :=
  cbn [Rating.id Rating.student Rating.group Rating.grades Rating.attendance
       Rating.homeworkCompletion Rating.classParticipation Rating.totalScore
       Rating.rankInGroup Rating.totalHomeworks Rating.completedHomeworks
       Rating.totalClasses Rating.attendedClasses Rating.participationCount
       Rating.averageGrade Rating.monthlyStats Rating.lastUpdated].

(** The row one pass stores, field by field. *)
Lemma pass_fields (r : Rating.t) :
  pass r
  = Rating.mk (Rating.id r) (Rating.student r) (Rating.group r) average
      (if Js.gt (Rating.totalClasses r) 0
       then inject_Z (Js.Math_round
                        (Js.mul (Js.div (Rating.attendedClasses r)
                                        (Rating.totalClasses r)) 10))
       else Rating.attendance r)
      (if Js.gt total 0
       then inject_Z (Js.Math_round
                        (Js.mul (Js.div (Aggregator.completedHomeworks acc)
                                        total) 10))
       else Rating.homeworkCompletion r)
      (Rating.classParticipation r)
      (Js.Math_round
         (Js.add
            (Js.add
               (Js.add (Js.mul average (4 # 10))
                       (Js.mul (Rating.attendance r) (25 # 100)))
               (Js.mul (Rating.homeworkCompletion r) (25 # 100)))
            (Js.mul (Rating.classParticipation r) (1 # 10))))
      (Rating.rankInGroup r) total (Aggregator.completedHomeworks acc)
      (Rating.totalClasses r) (Rating.attendedClasses r)
      (Rating.participationCount r) average (Rating.monthlyStats r) now.
Proof.
  unfold pass, average, Aggregator.assign_facts, Rating.pre_save,
    Rating.weighted.
  destruct r. hook_simpl.
  destruct (Js.gt total 0); hook_simpl;
    match goal with
    | |- context [Js.gt ?tc 0] => destruct (Js.gt tc 0)
    end; reflexivity.
Qed.

(** From the second pass on the row is reproduced: the third pass stores
    what the second stored. *)
Lemma aggregate_row_stabilises (r : Rating.t) :
  pass (pass (pass r)) = pass (pass r).
Proof.
  rewrite (pass_fields r).
  match goal with
  | |- pass (pass ?x) = _ => rewrite (pass_fields x)
  end.
  fields.
  match goal with
  | |- pass ?x = _ => rewrite (pass_fields x)
  end.
  fields.
  destruct (Js.gt total 0); destruct (Js.gt (Rating.totalClasses r) 0);
    reflexivity.
Qed.

(** The same with validation in the way: a call whose save is refused
    leaves the row, and so do the calls after it. *)
Lemma aggregate_step_stabilises (r : Rating.t) :
  step (step (step r)) = step (step r).
Proof.
  assert (Hyes : forall x,
             Rating.validate (Aggregator.assign_facts acc total x) = true ->
             step x = pass x)
    by (intros x H; unfold step; now rewrite H).
  assert (Hno : forall x,
             Rating.validate (Aggregator.assign_facts acc total x) = false ->
             step x = x)
    by (intros x H; unfold step; now rewrite H).
  destruct (Rating.validate (Aggregator.assign_facts acc total r)) eqn:V0;
    [|now rewrite !(Hno r V0)].
  rewrite (Hyes r V0).
  destruct (Rating.validate (Aggregator.assign_facts acc total (pass r)))
    eqn:V1; [|now rewrite !(Hno _ V1)].
  rewrite (Hyes _ V1).
  destruct (Rating.validate
              (Aggregator.assign_facts acc total (pass (pass r)))) eqn:V2.
  - rewrite (Hyes _ V2). apply aggregate_row_stabilises.
  - apply (Hno _ V2).
Qed.
End RowPass.

(** ** The document store *)
Section CollectionFacts.
Context {A : Type} (key : A -> ObjectId).

Lemma findById_put_same (x : A) (c : list A) :
  findById key (key x) (put key x c) = Some x.
Proof.
  unfold findById.
  induction c as [|y c IH]; simpl.
  - now rewrite Nat.eqb_refl.
  - destruct (Nat.eqb (key y) (key x)) eqn:E; simpl.
    + now rewrite Nat.eqb_refl.
    + now rewrite E.
Qed.

Lemma findById_put_other (i : ObjectId) (x : A) (c : list A) :
  i <> key x -> findById key i (put key x c) = findById key i c.
Proof.
  unfold findById. intros Hne.
  assert (Hx : Nat.eqb (key x) i = false)
    by (apply Nat.eqb_neq; congruence).
  induction c as [|y c IH]; simpl.
  - now rewrite Hx.
  - destruct (Nat.eqb (key y) (key x)) eqn:E; simpl.
    + apply Nat.eqb_eq in E. rewrite E, Hx. reflexivity.
    + destruct (Nat.eqb (key y) i); [reflexivity | exact IH].
Qed.

(** Saving a document that is already stored adds and removes none. *)
Lemma put_keys (x : A) (c : list A) :
  In (key x) (map key c) -> map key (put key x c) = map key c.
Proof.
  induction c as [|y c IH]; simpl; intros Hin.
  - contradiction.
  - destruct (Nat.eqb (key y) (key x)) eqn:E; simpl.
    + apply Nat.eqb_eq in E. now rewrite E.
    + f_equal. apply IH. destruct Hin as [H|H]; [|exact H].
      apply Nat.eqb_neq in E. congruence.
Qed.

Lemma findById_cons (i : ObjectId) (y : A) (c : list A) :
  findById key i (y :: c)
  = if Nat.eqb (key y) i then Some y else findById key i c.
Proof. reflexivity. Qed.

Lemma findById_key (i : ObjectId) (x : A) (c : list A) :
  findById key i c = Some x -> key x = i /\ In x c.
Proof.
  unfold findById. intros H. apply find_some in H.
  destruct H as [Hin H]. apply Nat.eqb_eq in H. now split.
Qed.

Lemma findById_None (i : ObjectId) (c : list A) :
  findById key i c = None <-> ~ In i (map key c).
Proof.
  unfold findById. induction c as [|y c IH]; simpl.
  - tauto.
  - destruct (Nat.eqb (key y) i) eqn:E.
    + apply Nat.eqb_eq in E. split; [discriminate | tauto].
    + apply Nat.eqb_neq in E. rewrite IH. tauto.
Qed.

(** A save over a save of the same document leaves the later one. *)
Lemma put_put (x y : A) (c : list A) :
  key x = key y -> put key x (put key y c) = put key x c.
Proof.
  intros Hk. induction c as [|z c IH]; cbn [put].
  - now rewrite Hk, Nat.eqb_refl.
  - rewrite Hk. destruct (Nat.eqb (key z) (key y)) eqn:E; cbn [put].
    + now rewrite Hk, Nat.eqb_refl.
    + rewrite Hk, E. now rewrite IH.
Qed.

(** In a collection with distinct keys every member is found under its
    key. *)
Lemma findById_In (x : A) (c : list A) :
  NoDup (map key c) -> In x c -> findById key (key x) c = Some x.
Proof.
  unfold findById. induction c as [|y c IH]; simpl; intros Hnd Hin.
  - contradiction.
  - inversion Hnd as [|? ? Hnotin Hnd']; subst.
    destruct Hin as [->|Hin].
    + now rewrite Nat.eqb_refl.
    + destruct (Nat.eqb (key y) (key x)) eqn:E.
      * apply Nat.eqb_eq in E. exfalso. apply Hnotin. rewrite E.
        now apply in_map.
      * now apply IH.
Qed.
End CollectionFacts.

(** ** The aggregator from the second call on *)

Lemma findOne_put (s g : ObjectId) (c : list Rating.t) (r0 x : Rating.t) :
  find (fun r => Nat.eqb (Rating.student r) s && Nat.eqb (Rating.group r) g) c
  = Some r0 ->
  Rating.id x = Rating.id r0 ->
  Rating.student x = s -> Rating.group x = g ->
  find (fun r => Nat.eqb (Rating.student r) s && Nat.eqb (Rating.group r) g)
       (put Rating.id x c)
  = Some x.
Proof.
  intros Hfind Hid Hs Hg.
  assert (Hx : Nat.eqb (Rating.student x) s && Nat.eqb (Rating.group x) g
               = true)
    by (rewrite Hs, Hg, !Nat.eqb_refl; reflexivity).
  induction c as [|y c IH]; [discriminate|].
  cbn [find] in Hfind. cbn [put].
  destruct (Nat.eqb (Rating.student y) s && Nat.eqb (Rating.group y) g) eqn:Ey.
  - injection Hfind as <-. rewrite Hid, Nat.eqb_refl. cbn [find].
    now rewrite Hx.
  - destruct (Nat.eqb (Rating.id y) (Rating.id x)); cbn [find].
    + now rewrite Hx.
    + rewrite Ey. now apply IH.
Qed.

Lemma assign_facts_frame (acc : Aggregator.Tally) (total : Q) (r : Rating.t) :
  let r' := Aggregator.assign_facts acc total r in
  Rating.id r' = Rating.id r
  /\ Rating.student r' = Rating.student r
  /\ Rating.group r' = Rating.group r.
Proof. repeat split. Qed.

Lemma with_ratings_same (db : Db) : with_ratings (ratings db) db = db.
Proof. now destruct db. Qed.


(** One call on a store that holds the student's row; [c] is the ratings
    collection, the other collections are those of [db].  The row handed to
    [save] is saved when it passes validation; otherwise the call leaves
    the store as it is. *)
Lemma updateStudentRating_found (now : Date) (s g : ObjectId) (db : Db)
      (c : list Rating.t) (r : Rating.t) :
  Aggregator.findOne s g (with_ratings c db) = Some r ->
  let fed := Aggregator.assign_facts (fst (Aggregator.tally s g db))
                                     (snd (Aggregator.tally s g db)) r in
  (Rating.validate fed = true ->
   Aggregator.updateStudentRating now s g (with_ratings c db)
   = with_ratings (put Rating.id (Rating.pre_save now fed) c) db
   /\ Aggregator.findOne s g
        (with_ratings (put Rating.id (Rating.pre_save now fed) c) db)
      = Some (Rating.pre_save now fed))
  /\ (Rating.validate fed = false ->
      Aggregator.updateStudentRating now s g (with_ratings c db)
      = with_ratings c db).
Proof.
  intros Hfind fed.
  assert (Hupd : Aggregator.updateStudentRating now s g (with_ratings c db)
                 = Aggregator.settle now (with_ratings c db) fed).
  { unfold Aggregator.updateStudentRating. rewrite Hfind.
    change (Aggregator.tally s g (with_ratings c db))
      with (Aggregator.tally s g db).
    subst fed. destruct (Aggregator.tally s g db). reflexivity. }
  rewrite Hupd. unfold Aggregator.settle, Aggregator.save.
  split; intros Hv; rewrite Hv; [|reflexivity].
  split; [reflexivity|].
  unfold Aggregator.findOne in *. cbn [ratings with_ratings] in *.
  destruct (pre_save_frame now fed) as (Hid & Hs & Hg & _).
  destruct (find_some _ _ Hfind) as [_ Hsg].
  apply andb_true_iff in Hsg. destruct Hsg as [Hs0 Hg0].
  apply Nat.eqb_eq in Hs0, Hg0.
  apply (findOne_put s g c r (Rating.pre_save now fed) Hfind).
  - exact Hid.
  - rewrite Hs. exact Hs0.
  - rewrite Hg. exact Hg0.
Qed.

(** With the clock held still, a third call on the same facts leaves the
    store the second call left. *)
Lemma updateStudentRating_stabilises (now : Date) (s g : ObjectId) (db : Db) :
  let upd := Aggregator.updateStudentRating now s g in
  upd (upd (upd db)) = upd (upd db).
Proof.
  cbv zeta.
  destruct (Aggregator.findOne s g db) as [r|] eqn:Hfind.
  - rewrite <- (with_ratings_same db) in Hfind |- *.
    generalize dependent (ratings db). intros c Hfind.
    set (acc := fst (Aggregator.tally s g db)).
    set (total := snd (Aggregator.tally s g db)).
    destruct (updateStudentRating_found now s g db c r Hfind) as [Hy0 Hn0].
    fold acc total in Hy0, Hn0. cbv zeta in Hy0, Hn0.
    destruct (Rating.validate (Aggregator.assign_facts acc total r)) eqn:V0;
      [|now rewrite !(Hn0 eq_refl)].
    destruct (Hy0 eq_refl) as [-> Hf1]. clear Hy0 Hn0.
    destruct (updateStudentRating_found now s g db _ _ Hf1) as [Hy1 Hn1].
    fold acc total in Hy1, Hn1. cbv zeta in Hy1, Hn1.
    destruct (Rating.validate
                (Aggregator.assign_facts acc total
                   (Rating.pre_save now (Aggregator.assign_facts acc total r))))
      eqn:V1; [|now rewrite !(Hn1 eq_refl)].
    destruct (Hy1 eq_refl) as [-> Hf2]. clear Hy1 Hn1.
    destruct (updateStudentRating_found now s g db _ _ Hf2) as [Hy2 Hn2].
    fold acc total in Hy2, Hn2. cbv zeta in Hy2, Hn2.
    match type of Hy2 with
    | Rating.validate ?x = true -> _ =>
        destruct (Rating.validate x) eqn:V2
    end; [|now rewrite (Hn2 eq_refl)].
    destruct (Hy2 eq_refl) as [-> _].
    f_equal.
    rewrite (aggregate_row_stabilises now acc total r).
    apply put_put. reflexivity.
  - assert (H : Aggregator.updateStudentRating now s g db = db)
      by (unfold Aggregator.updateStudentRating; now rewrite Hfind).
    now rewrite !H.
Qed.
(** ** The rank resolver *)

Lemma insert_desc_perm (r : Rating.t) (l : list Rating.t) :
  Permutation (Ranking.insert_desc r l) (r :: l).
Proof.
  induction l as [|x l IH]; simpl.
  - apply Permutation_refl.
  - destruct (Rating.totalScore r <? Rating.totalScore x)%Z.
    + eapply perm_trans; [apply perm_skip, IH | apply perm_swap].
    + apply Permutation_refl.
Qed.

Lemma sort_desc_perm (l : list Rating.t) :
  Permutation (Ranking.sort_desc l) l.
Proof.
  induction l as [|x l IH]; simpl.
  - apply perm_nil.
  - eapply perm_trans; [apply insert_desc_perm | apply perm_skip, IH].
Qed.

Lemma insert_desc_sorted (r : Rating.t) (l : list Rating.t) :
  StronglySorted Ranking.score_ge l ->
  StronglySorted Ranking.score_ge (Ranking.insert_desc r l).
Proof.
  induction 1 as [|x l Hl IH Hx]; simpl.
  - constructor; constructor.
  - destruct (Rating.totalScore r <? Rating.totalScore x)%Z eqn:E.
    + constructor; [exact IH|].
      apply Z.ltb_lt in E.
      eapply Permutation_Forall;
        [apply Permutation_sym, insert_desc_perm|].
      constructor; [unfold Ranking.score_ge; lia | exact Hx].
    + apply Z.ltb_ge in E.
      constructor; [constructor; assumption|].
      constructor; [exact E|].
      eapply Forall_impl; [|exact Hx].
      unfold Ranking.score_ge. intros; lia.
Qed.

Lemma sort_desc_sorted (l : list Rating.t) :
  StronglySorted Ranking.score_ge (Ranking.sort_desc l).
Proof.
  induction l as [|x l IH]; simpl.
  - constructor.
  - now apply insert_desc_sorted.
Qed.

Lemma insert_desc_stable (k : Z) (r : Rating.t) (l : list Rating.t) :
  Ranking.with_score k (Ranking.insert_desc r l) = Ranking.with_score k (r :: l).
Proof.
  unfold Ranking.with_score.
  induction l as [|x l IH]; [reflexivity|].
  cbn [Ranking.insert_desc].
  destruct (Rating.totalScore r <? Rating.totalScore x)%Z eqn:E;
    [|reflexivity].
  apply Z.ltb_lt in E.
  cbn [filter] in *. rewrite IH.
  destruct (Z.eqb (Rating.totalScore r) k) eqn:Er;
    destruct (Z.eqb (Rating.totalScore x) k) eqn:Ex; try reflexivity.
  apply Z.eqb_eq in Er, Ex. lia.
Qed.

(** Equal totals keep their insertion order. *)
Lemma sort_desc_stable (k : Z) (l : list Rating.t) :
  Ranking.with_score k (Ranking.sort_desc l) = Ranking.with_score k l.
Proof.
  induction l as [|x l IH]; [reflexivity|].
  cbn [Ranking.sort_desc fold_right].
  fold (Ranking.sort_desc l).
  rewrite insert_desc_stable.
  unfold Ranking.with_score in *. cbn [filter]. now rewrite IH.
Qed.

Lemma assign_from_ranks (i : Z) (rows : list Rating.t) :
  map Rating.rankInGroup (Ranking.assign_from i rows)
  = map (fun k => (i + Z.of_nat k)%Z) (seq 1 (List.length rows)).
Proof.
  revert i. induction rows as [|r rows IH]; intros i; [reflexivity|].
  cbn [Ranking.assign_from map List.length seq].
  f_equal.
  rewrite IH, <- (seq_shift _ 1), map_map.
  apply map_ext. intros k. lia.
Qed.

Lemma assign_from_nth (i : Z) (rows : list Rating.t) (n : nat) :
  nth_error (Ranking.assign_from i rows) n
  = option_map (Rating.set_rankInGroup (i + Z.of_nat n + 1))
               (nth_error rows n).
Proof.
  revert i n. induction rows as [|r rows IH]; intros i [|n];
    try reflexivity.
  - cbn. do 2 f_equal. lia.
  - cbn [Ranking.assign_from nth_error]. rewrite IH.
    do 2 f_equal. lia.
Qed.

Lemma assign_from_ids (i : Z) (rows : list Rating.t) :
  map Rating.id (Ranking.assign_from i rows) = map Rating.id rows.
Proof.
  revert i. induction rows as [|r rows IH]; intros i; [reflexivity|].
  cbn [Ranking.assign_from map]. now rewrite IH.
Qed.

Lemma pre_save_id (now : Date) (r : Rating.t) :
  Rating.id (Rating.pre_save now r) = Rating.id r.
Proof. apply (pre_save_frame now r). Qed.

Lemma pre_save_rank (now : Date) (r : Rating.t) :
  Rating.rankInGroup (Rating.pre_save now r) = Rating.rankInGroup r.
Proof. apply (pre_save_frame now r). Qed.


(** Validation does not look at the rank. *)
Lemma validate_set_rank (k : Z) (r : Rating.t) :
  Rating.validate (Rating.set_rankInGroup k r) = Rating.validate r.
Proof. now destruct r. Qed.

Lemma forallb_validate_ranks (i : Z) (rows : list Rating.t) :
  forallb Rating.validate (Ranking.assign_from i rows)
  = forallb Rating.validate rows.
Proof.
  revert i. induction rows as [|r rows IH]; intros i; [reflexivity|].
  cbn [Ranking.assign_from forallb]. now rewrite validate_set_rank, IH.
Qed.

Lemma settle_ratings (now : Date) (db : Db) (r : Rating.t) :
  ratings (Aggregator.settle now db r)
  = if Rating.validate r
    then put Rating.id (Rating.pre_save now r) (ratings db)
    else ratings db.
Proof.
  unfold Aggregator.settle, Aggregator.save.
  now destruct (Rating.validate r).
Qed.

(** The store after [Promise.all(rows.map(r => r.save()))]: the rows that
    pass validation are written, the others are not. *)
Lemma saves_ratings (now : Date) (rows : list Rating.t) (db : Db) :
  ratings (fold_left (Aggregator.settle now) rows db)
  = fold_left (fun c r => put Rating.id (Rating.pre_save now r) c)
              (filter Rating.validate rows) (ratings db).
Proof.
  revert db. induction rows as [|r rows IH]; intros db; [reflexivity|].
  cbn [fold_left filter]. rewrite IH, settle_ratings.
  now destruct (Rating.validate r).
Qed.

(** Saving ratings writes to no other collection. *)
Lemma saves_frame (now : Date) (rows : list Rating.t) (db : Db) :
  let db' := fold_left (Aggregator.settle now) rows db in
  users db' = users db /\ groups db' = groups db
  /\ homeworks db' = homeworks db /\ rewards db' = rewards db.
Proof.
  revert db. induction rows as [|r rows IH]; intros db.
  - cbn. repeat split.
  - cbn [fold_left]. destruct (IH (Aggregator.settle now db r)) as (?&?&?&?).
    cbv zeta.
    assert (Hs : users (Aggregator.settle now db r) = users db
                 /\ groups (Aggregator.settle now db r) = groups db
                 /\ homeworks (Aggregator.settle now db r) = homeworks db
                 /\ rewards (Aggregator.settle now db r) = rewards db).
    { unfold Aggregator.settle, Aggregator.save.
      destruct (Rating.validate r); repeat split. }
    destruct Hs as (?&?&?&?).
    repeat split; etransitivity; eauto.
Qed.

Lemma lookup_after_saves (now : Date) (rows c : list Rating.t) (i : ObjectId) :
  NoDup (map Rating.id rows) ->
  findById Rating.id i
    (fold_left (fun c r => put Rating.id (Rating.pre_save now r) c) rows c)
  = match findById Rating.id i rows with
    | Some r => Some (Rating.pre_save now r)
    | None => findById Rating.id i c
    end.
Proof.
  revert c. induction rows as [|r rows IH]; intros c Hnd; [reflexivity|].
  inversion Hnd as [|? ? Hnotin Hnd']; subst.
  cbn [fold_left]. rewrite IH by assumption.
  rewrite findById_cons.
  destruct (Nat.eqb (Rating.id r) i) eqn:E.
  - apply Nat.eqb_eq in E. subst i.
    apply findById_None in Hnotin. rewrite Hnotin.
    rewrite <- (pre_save_id now r).
    apply findById_put_same.
  - destruct (findById Rating.id i rows); [reflexivity|].
    apply findById_put_other. rewrite pre_save_id.
    apply Nat.eqb_neq in E. congruence.
Qed.

Lemma NoDup_ids_filter (f : Rating.t -> bool) (l : list Rating.t) :
  NoDup (map Rating.id l) -> NoDup (map Rating.id (filter f l)).
Proof.
  induction l as [|x l IH]; intros Hnd; [constructor|].
  inversion Hnd as [|? ? Hnotin Hnd']; subst.
  cbn [filter]. destruct (f x); [|now apply IH].
  cbn [map]. constructor; [|now apply IH].
  intros Hin. apply Hnotin.
  apply in_map_iff in Hin. destruct Hin as (y & Hy & Hin).
  apply filter_In in Hin. rewrite <- Hy. apply in_map. tauto.
Qed.

(** Looking up a member of a list with distinct ids among the members
    that pass a test. *)
Lemma findById_filter (f : Rating.t -> bool) (l : list Rating.t)
      (x : Rating.t) :
  NoDup (map Rating.id l) -> In x l ->
  findById Rating.id (Rating.id x) (filter f l)
  = if f x then Some x else None.
Proof.
  intros Hnd Hin. destruct (f x) eqn:Ex.
  - apply findById_In; [now apply NoDup_ids_filter|].
    apply filter_In. now split.
  - apply findById_None. intros Hid.
    apply in_map_iff in Hid. destruct Hid as (y & Hy & Hyin).
    apply filter_In in Hyin. destruct Hyin as [Hyin Hfy].
    pose proof (findById_In Rating.id y l Hnd Hyin) as H1.
    pose proof (findById_In Rating.id x l Hnd Hin) as H2.
    rewrite Hy in H1. congruence.
Qed.

Lemma find_sorted_perm (g : ObjectId) (db : Db) :
  Permutation (Ranking.find_sorted g db)
              (filter (fun r => Nat.eqb (Rating.group r) g) (ratings db)).
Proof. apply sort_desc_perm. Qed.

Lemma find_sorted_NoDup (g : ObjectId) (db : Db) :
  NoDup (map Rating.id (ratings db)) ->
  NoDup (map Rating.id (Ranking.find_sorted g db)).
Proof.
  intros Hnd.
  eapply Permutation_NoDup.
  - apply Permutation_map, Permutation_sym, find_sorted_perm.
  - now apply NoDup_ids_filter.
Qed.

Lemma find_sorted_member (g : ObjectId) (db : Db) (r : Rating.t) :
  In r (Ranking.find_sorted g db) <-> In r (ratings db) /\ Rating.group r = g.
Proof.
  split; intros H.
  - apply (Permutation_in _ (find_sorted_perm g db)) in H.
    apply filter_In in H. now rewrite Nat.eqb_eq in H.
  - apply (Permutation_in _ (Permutation_sym (find_sorted_perm g db))).
    apply filter_In. now rewrite Nat.eqb_eq.
Qed.

(** What the [await] of a resolve pass gives. *)
Lemma resolve_reply (now : Date) (g : ObjectId) (db : Db) :
  fst (Ranking.resolve now g db)
  = if forallb Rating.validate (Ranking.find_sorted g db)
    then Some (map (Rating.pre_save now)
                   (Ranking.assign_ranks (Ranking.find_sorted g db)))
    else None.
Proof.
  unfold Ranking.resolve, Ranking.save_all, Ranking.assign_ranks. cbn [fst].
  now rewrite forallb_validate_ranks.
Qed.

(** What the store holds after a resolve pass, row by row: the row at
    position [i] of the sorted load is stored with rank [i + 1], as the
    pre-save hook leaves it, when it passes validation, and is left as it
    was when it does not. *)
Lemma resolve_lookup (now : Date) (g : ObjectId) (db : Db)
      (i : nat) (r : Rating.t) :
  NoDup (map Rating.id (ratings db)) ->
  nth_error (Ranking.find_sorted g db) i = Some r ->
  findById Rating.id (Rating.id r)
           (ratings (snd (Ranking.resolve now g db)))
  = Some (if Rating.validate r
          then Rating.pre_save now
                 (Rating.set_rankInGroup (Z.of_nat i + 1) r)
          else r).
Proof.
  intros Hnd Hnth.
  unfold Ranking.resolve, Ranking.save_all. cbn [snd].
  rewrite saves_ratings.
  assert (Hids : NoDup (map Rating.id
                          (Ranking.assign_ranks (Ranking.find_sorted g db)))).
  { unfold Ranking.assign_ranks. rewrite assign_from_ids.
    now apply find_sorted_NoDup. }
  rewrite lookup_after_saves by (now apply NoDup_ids_filter).
  assert (Hrow : nth_error (Ranking.assign_ranks (Ranking.find_sorted g db)) i
                 = Some (Rating.set_rankInGroup (Z.of_nat i + 1) r)).
  { unfold Ranking.assign_ranks. rewrite assign_from_nth, Hnth. reflexivity. }
  apply nth_error_In in Hrow.
  change (Rating.id r)
    with (Rating.id (Rating.set_rankInGroup (Z.of_nat i + 1) r)).
  rewrite (findById_filter _ _ _ Hids Hrow), validate_set_rank.
  destruct (Rating.validate r); [reflexivity|].
  change (Rating.id (Rating.set_rankInGroup (Z.of_nat i + 1) r))
    with (Rating.id r).
  apply findById_In; [exact Hnd|].
  apply nth_error_In in Hnth. now apply find_sorted_member in Hnth.
Qed.

(** Rows of other groups are not written. *)
Lemma resolve_other (now : Date) (g : ObjectId) (db : Db) (j : ObjectId) :
  ~ In j (map Rating.id (Ranking.find_sorted g db)) ->
  findById Rating.id j (ratings (snd (Ranking.resolve now g db)))
  = findById Rating.id j (ratings db).
Proof.
  intros Hj.
  unfold Ranking.resolve, Ranking.save_all. cbn [snd].
  rewrite saves_ratings.
  assert (Hnone : forall x,
             In x (filter Rating.validate
                     (Ranking.assign_ranks (Ranking.find_sorted g db))) ->
             Rating.id x <> j).
  { intros x Hx Hid. apply Hj. apply filter_In in Hx. destruct Hx as [Hx _].
    apply (in_map Rating.id) in Hx. unfold Ranking.assign_ranks in Hx.
    rewrite assign_from_ids in Hx. now rewrite <- Hid. }
  revert Hnone.
  generalize (filter Rating.validate
                (Ranking.assign_ranks (Ranking.find_sorted g db))).
  intros rows. generalize (ratings db).
  induction rows as [|r rows IH]; intros c Hnone; [reflexivity|].
  cbn [fold_left].
  rewrite IH by (intros x Hx; apply Hnone; now right).
  apply findById_put_other. rewrite pre_save_id.
  intros E. apply (Hnone r (or_introl eq_refl)). now symmetry.
Qed.

(** A resolve pass inserts and deletes no document. *)
Lemma resolve_keeps_ids (now : Date) (g : ObjectId) (db : Db) :
  map Rating.id (ratings (snd (Ranking.resolve now g db)))
  = map Rating.id (ratings db).
Proof.
  unfold Ranking.resolve, Ranking.save_all. cbn [snd].
  rewrite saves_ratings.
  assert (Hin : forall r,
             In r (filter Rating.validate
                     (Ranking.assign_ranks (Ranking.find_sorted g db))) ->
             In (Rating.id r) (map Rating.id (ratings db))).
  { intros r Hr. apply filter_In in Hr. destruct Hr as [Hr _].
    apply (in_map Rating.id) in Hr.
    unfold Ranking.assign_ranks in Hr. rewrite assign_from_ids in Hr.
    apply in_map_iff in Hr. destruct Hr as (x & <- & Hx).
    apply in_map. now apply find_sorted_member in Hx. }
  revert Hin.
  generalize (filter Rating.validate
                (Ranking.assign_ranks (Ranking.find_sorted g db))).
  intros rows. generalize (ratings db).
  induction rows as [|r rows IH]; intros c Hin; [reflexivity|].
  cbn [fold_left].
  assert (Hkeys : map Rating.id (put Rating.id (Rating.pre_save now r) c)
                  = map Rating.id c).
  { apply put_keys. rewrite pre_save_id. apply Hin. now left. }
  rewrite IH; [exact Hkeys|].
  intros r' Hr'. rewrite Hkeys. apply Hin. now right.
Qed.

Lemma find_sorted_position (g : ObjectId) (db : Db) (r : Rating.t) :
  In r (ratings db) -> Rating.group r = g ->
  exists i, nth_error (Ranking.find_sorted g db) i = Some r.
Proof.
  intros Hin Hg. apply In_nth_error. now apply find_sorted_member.
Qed.

(** The hook on a consistent row changes [lastUpdated] only. *)
Lemma consistent_fixed_point (now : Date) (r : Rating.t) :
  RatingInv.consistent r ->
  Rating.pre_save now r = Rating.set_lastUpdated now r.
Proof.
  intros (Htot & Hhc & Hatt).
  rewrite pre_save_fields, <- Htot.
  destruct r as [i s g gr at0 hc cp ts rk th ch tc ac pc ag ms lu].
  cbn [Rating.totalScore Rating.totalHomeworks Rating.homeworkCompletion
       Rating.completedHomeworks Rating.totalClasses Rating.attendance
       Rating.attendedClasses Rating.id Rating.student Rating.group
       Rating.grades Rating.classParticipation Rating.rankInGroup
       Rating.participationCount Rating.averageGrade Rating.monthlyStats
       Rating.set_lastUpdated Rating.lastUpdated] in *.
  destruct (Js.gt th 0) eqn:E1; destruct (Js.gt tc 0) eqn:E2;
    rewrite <- ?(Hhc eq_refl), <- ?(Hatt eq_refl); reflexivity.
Qed.

Lemma consistent_set_rank (k : Z) (r : Rating.t) :
  RatingInv.consistent r -> RatingInv.consistent (Rating.set_rankInGroup k r).
Proof.
  destruct r. unfold RatingInv.consistent, Rating.weighted. hook_simpl.
  exact (fun H => H).
Qed.

Lemma forallb_perm {A : Type} (f : A -> bool) (l l' : list A) :
  Permutation l l' -> forallb f l = forallb f l'.
Proof.
  induction 1 as [|x l l' _ IH|x y l|l l' l'' _ IH1 _ IH2]; cbn [forallb].
  - reflexivity.
  - now rewrite IH.
  - now destruct (f x), (f y).
  - now rewrite IH1.
Qed.

(** Being in descending order of total depends on the totals only. *)
Lemma sorted_by_totals (l l' : list Rating.t) :
  map Rating.totalScore l = map Rating.totalScore l' ->
  StronglySorted Ranking.score_ge l' -> StronglySorted Ranking.score_ge l.
Proof.
  revert l'. induction l as [|x l IH]; intros [|y l'] Hmap Hs;
    try discriminate; [constructor|].
  cbn [map] in Hmap. injection Hmap as Hx Hl.
  inversion Hs as [|? ? Hs' Hall]; subst.
  constructor; [now apply (IH l')|].
  apply Forall_forall. intros z Hz.
  apply (in_map Rating.totalScore) in Hz. rewrite Hl in Hz.
  apply in_map_iff in Hz. destruct Hz as (z' & Hz' & Hin).
  rewrite Forall_forall in Hall. specialize (Hall z' Hin).
  unfold Ranking.score_ge in *. now rewrite Hx, <- Hz'.
Qed.

(** The rows a resolve pass returns when every save is accepted. *)
Lemma returned_nth (now : Date) (sorted : list Rating.t) (i : nat) :
  nth_error (map (Rating.pre_save now) (Ranking.assign_ranks sorted)) i
  = option_map (fun r => Rating.pre_save now
                           (Rating.set_rankInGroup (Z.of_nat i + 1) r))
               (nth_error sorted i).
Proof.
  unfold Ranking.assign_ranks. rewrite nth_error_map, assign_from_nth.
  now destruct (nth_error sorted i).
Qed.

(** What both routes make of a resolve pass. *)
Lemma get_group_resolve (now : Date) (db : Db) (tok : Auth.Token)
      (groupId : ObjectId) (user : User.t) :
  Auth.auth db tok = inl user ->
  User.role user = User.teacher ->
  RatingRoutes.get_group now db tok groupId
  = (match fst (Ranking.resolve now groupId db) with
     | Some rows => Success rows
     | None => server_error
     end,
     snd (Ranking.resolve now groupId db)).
Proof.
  intros Hauth Hrole.
  unfold RatingRoutes.get_group, Auth.authorize. rewrite Hauth, Hrole.
  cbn [existsb User.Role_eqb orb negb].
  destruct (Ranking.resolve now groupId db) as [[rows|] db']; reflexivity.
Qed.

(** C4. A resolve pass over group [g] sorts its [N] rows by the total each
    is loaded with, descending, rows of equal total in insertion order, and
    assigns them the ranks 1..N without gap or repeat.  A row is written
    back with its rank when it passes schema validation and is left as
    stored when it does not; the reply carries the [N] rows with ranks
    1..N when every row passes, and is the 500 reply otherwise.  Rows
    whose total agrees with their components come back with the totals
    they were sorted by, so in descending order of their totals. *)
Theorem C4_dense_stable_ranking (now : Date) (g : ObjectId) (db : Db) :
  NoDup (map Rating.id (ratings db)) ->
  let loaded := filter (fun r => Nat.eqb (Rating.group r) g) (ratings db) in
  let sorted := Ranking.find_sorted g db in
  let ranked := Ranking.assign_ranks sorted in
  let out := Ranking.resolve now g db in
  Permutation sorted loaded
  /\ StronglySorted Ranking.score_ge sorted
  /\ (forall k, Ranking.with_score k sorted = Ranking.with_score k loaded)
  /\ (forall i r,
         nth_error sorted i = Some r ->
         nth_error ranked i
         = Some (Rating.set_rankInGroup (Z.of_nat i + 1) r))
  /\ map Rating.rankInGroup ranked = map Z.of_nat (seq 1 (List.length loaded))
  /\ (forall i r,
         nth_error sorted i = Some r ->
         exists r',
           findById Rating.id (Rating.id r) (ratings (snd out)) = Some r'
           /\ (Rating.validate r = true ->
               Rating.rankInGroup r' = (Z.of_nat i + 1)%Z)
           /\ (Rating.validate r = false -> r' = r))
  /\ (forall tok user,
         Auth.auth db tok = inl user -> User.role user = User.teacher ->
         RatingRoutes.get_group now db tok g
         = (match fst out with
            | Some rows => Success rows
            | None => server_error
            end, snd out))
  /\ (forallb Rating.validate loaded = false -> fst out = None)
  /\ (forallb Rating.validate loaded = true ->
      exists returned,
        fst out = Some returned
        /\ map Rating.id returned = map Rating.id sorted
        /\ map Rating.rankInGroup returned
           = map Z.of_nat (seq 1 (List.length loaded))
        /\ ((forall r, In r loaded -> RatingInv.consistent r) ->
            map Rating.totalScore returned = map Rating.totalScore sorted
            /\ StronglySorted Ranking.score_ge returned)).
Proof.
  intros Hnd loaded sorted ranked out.
  assert (Hperm : Permutation sorted loaded) by apply find_sorted_perm.
  assert (Hranks : map Rating.rankInGroup ranked
                   = map Z.of_nat (seq 1 (List.length loaded))).
  { unfold ranked, Ranking.assign_ranks. rewrite assign_from_ranks.
    fold sorted. rewrite (Permutation_length Hperm). reflexivity. }
  split; [exact Hperm|].
  split; [apply sort_desc_sorted|].
  split; [intros k; apply sort_desc_stable|].
  split.
  { intros i r Hnth. unfold ranked, Ranking.assign_ranks.
    now rewrite assign_from_nth, Hnth. }
  split; [exact Hranks|].
  split.
  { intros i r Hnth. eexists. split.
    - subst out. apply resolve_lookup; eassumption.
    - split; intros Hv; rewrite Hv; [|reflexivity].
      now rewrite pre_save_rank. }
  split; [intros tok user; apply get_group_resolve|].
  unfold out. rewrite resolve_reply. fold sorted.
  rewrite (forallb_perm Rating.validate sorted loaded Hperm).
  split; intros Hv; rewrite Hv; [reflexivity|].
  fold ranked. eexists. split; [reflexivity|].
  split.
  { rewrite map_map.
    rewrite (map_ext _ Rating.id) by (intros; apply pre_save_id).
    apply assign_from_ids. }
  split.
  { rewrite map_map.
    rewrite (map_ext _ Rating.rankInGroup) by (intros; apply pre_save_rank).
    exact Hranks. }
  intros Hcons.
  assert (Htot : map Rating.totalScore (map (Rating.pre_save now) ranked)
                 = map Rating.totalScore sorted).
  { apply nth_error_ext. intros i.
    rewrite !nth_error_map. unfold ranked.
    pose proof (returned_nth now sorted i) as Hi.
    rewrite nth_error_map in Hi. rewrite Hi.
    destruct (nth_error sorted i) as [r|] eqn:E; [|reflexivity].
    cbn [option_map]. f_equal.
    rewrite consistent_fixed_point; [reflexivity|].
    apply consistent_set_rank, Hcons.
    apply nth_error_In in E. exact (Permutation_in _ Hperm E). }
  split; [exact Htot|].
  exact (sorted_by_totals _ _ Htot (sort_desc_sorted _)).
Qed.

(** The spec's example: totals 8, 8, 5 inserted as A, B, C. *)
Lemma C4_dense_stable_ranking_witness :
  NoDup (map Rating.id (ratings Sample.group7_db))
  /\ exists returned,
      fst (Ranking.resolve 1 7 Sample.group7_db) = Some returned
      /\ map Rating.id returned
         = map Rating.id [Sample.row_A; Sample.row_B; Sample.row_C]
      /\ map Rating.rankInGroup returned = [1; 2; 3]%Z.
Proof.
  assert (Hnd : NoDup (map Rating.id (ratings Sample.group7_db))).
  { cbn. repeat constructor; cbn; intuition discriminate. }
  split; [exact Hnd|].
  destruct (C4_dense_stable_ranking 1 7 Sample.group7_db Hnd)
    as (_ & _ & _ & _ & _ & _ & _ & _ & Hall).
  destruct (Hall eq_refl) as (returned & Hout & Hids & Hranks & _).
  exists returned. split; [exact Hout|]. split; [exact Hids | exact Hranks].
Defined.

(** How [Sample.overbooked_db] comes about: the save of a new row for
    student 12 with 15 attended classes out of 10 is accepted, and the row
    it stores fails validation from then on. *)
Example overbooked_row_is_saved :
  Aggregator.save 0 (Rating.mk 2 12 7 0 0 0 0 0 0 0 0 10 15 0 0 [] 0)
                  (with_ratings [Sample.row_A] Sample.overbooked_db)
  = Some Sample.overbooked_db
  /\ Rating.validate Sample.row_overbooked = false.
Proof. vm_compute. split; reflexivity. Qed.

(** C4 as stated fails where a row of the group does not pass validation:
    the teacher's GET of group 7 is answered 500, row A is stored with
    rank 1 and the other row keeps rank 0, so the ranks of the two rows are
    not 1, 2. *)
Lemma C4_refused_row_keeps_rank :
  fst (RatingRoutes.get_group 1 Sample.overbooked_db (Auth.Bearer 20) 7)
  = Failure 500 "Server error"
  /\ map Rating.rankInGroup
       (ratings (snd (RatingRoutes.get_group 1 Sample.overbooked_db
                        (Auth.Bearer 20) 7)))
     = [1; 0]%Z.
Proof. vm_compute. split; reflexivity. Qed.

(** ** The reading routes write *)

Lemma get_student_resolve (now : Date) (db : Db) (tok : Auth.Token)
      (studentId : ObjectId) (user student : User.t) (g : ObjectId)
      (rt : Rating.t) :
  Auth.auth db tok = inl user ->
  (User.role user = User.student -> User.id user = studentId) ->
  (User.role user = User.parent -> In studentId (User.children user)) ->
  findById User.id studentId (users db) = Some student ->
  RatingRoutes.populated_group db student = Some g ->
  Aggregator.findOne studentId g db = Some rt ->
  snd (RatingRoutes.get_student now db tok studentId)
  = snd (Ranking.resolve now g db)
  /\ (fst (Ranking.resolve now g db) = None ->
      fst (RatingRoutes.get_student now db tok studentId) = server_error).
Proof.
  intros Hauth Hstu Hpar Hfind Hgrp Hrt.
  unfold RatingRoutes.get_student. rewrite Hauth.
  assert (E1 : User.Role_eqb (User.role user) User.student
               && negb (Nat.eqb (User.id user) studentId) = false).
  { destruct (User.role user) eqn:Er; try reflexivity.
    rewrite (Hstu eq_refl), Nat.eqb_refl. reflexivity. }
  assert (E2 : User.Role_eqb (User.role user) User.parent
               && negb (existsb (fun child => Nat.eqb child studentId)
                                (User.children user)) = false).
  { destruct (User.role user) eqn:Er; try reflexivity.
    cbn. apply negb_false_iff, existsb_exists.
    exists studentId. split; [now apply Hpar | apply Nat.eqb_refl]. }
  rewrite E1, E2, Hfind, Hgrp, Hrt.
  destruct (Ranking.resolve now g db) as [[rows|] db']; cbn [fst snd].
  - destruct (RatingRoutes.find_current db studentId rows);
      split; try reflexivity; discriminate.
  - split; reflexivity.
Qed.

(** C10. Neither reading route is a pure read.  A GET of a student's
    rating that finds the rating, and a GET of a group's rankings by a
    teacher, both leave the store a resolve pass leaves.  That pass writes
    back every row of the group that passes schema validation, with its
    rank set from its position and the pre-save hook run on it: the total
    recomputed from the components as loaded, each percentage refreshed
    from its counters, [lastUpdated] set to the time of the request.  A
    row that fails validation is left as stored, and the request is then
    answered 500. *)
Theorem C10_reading_routes_persist_ranks (now : Date) (db : Db) :
  NoDup (map Rating.id (ratings db)) ->
  (forall tok studentId user student g rt,
      Auth.auth db tok = inl user ->
      (User.role user = User.student -> User.id user = studentId) ->
      (User.role user = User.parent -> In studentId (User.children user)) ->
      findById User.id studentId (users db) = Some student ->
      RatingRoutes.populated_group db student = Some g ->
      Aggregator.findOne studentId g db = Some rt ->
      snd (RatingRoutes.get_student now db tok studentId)
      = snd (Ranking.resolve now g db)
      /\ (forallb Rating.validate (Ranking.find_sorted g db) = false ->
          fst (RatingRoutes.get_student now db tok studentId)
          = Failure 500 "Server error"))
  /\ (forall tok groupId user,
         Auth.auth db tok = inl user ->
         User.role user = User.teacher ->
         snd (RatingRoutes.get_group now db tok groupId)
         = snd (Ranking.resolve now groupId db)
         /\ (forallb Rating.validate (Ranking.find_sorted groupId db) = false ->
             fst (RatingRoutes.get_group now db tok groupId)
             = Failure 500 "Server error"))
  /\ (forall g r,
         In r (ratings db) -> Rating.group r = g ->
         exists i,
           nth_error (Ranking.find_sorted g db) i = Some r
           /\ findById Rating.id (Rating.id r)
                       (ratings (snd (Ranking.resolve now g db)))
              = Some
                  (if Rating.validate r
                   then
                     Rating.mk (Rating.id r) (Rating.student r)
                       (Rating.group r) (Rating.grades r)
                       (if Js.gt (Rating.totalClasses r) 0
                        then inject_Z
                               (Js.Math_round
                                  (Js.mul (Js.div (Rating.attendedClasses r)
                                                  (Rating.totalClasses r))
                                          10))
                        else Rating.attendance r)
                       (if Js.gt (Rating.totalHomeworks r) 0
                        then inject_Z
                               (Js.Math_round
                                  (Js.mul (Js.div (Rating.completedHomeworks r)
                                                  (Rating.totalHomeworks r))
                                          10))
                        else Rating.homeworkCompletion r)
                       (Rating.classParticipation r)
                       (Js.Math_round (Rating.weighted r))
                       (Z.of_nat i + 1)
                       (Rating.totalHomeworks r) (Rating.completedHomeworks r)
                       (Rating.totalClasses r) (Rating.attendedClasses r)
                       (Rating.participationCount r) (Rating.averageGrade r)
                       (Rating.monthlyStats r) now
                   else r)).
Proof.
  intros Hnd. split; [|split].
  - intros tok studentId user student g rt Hauth Hstu Hpar Hfind Hgrp Hrt.
    destruct (get_student_resolve now db tok studentId user student g rt
                Hauth Hstu Hpar Hfind Hgrp Hrt) as [Hsnd Hfst].
    split; [exact Hsnd|]. intros Hv. apply Hfst.
    now rewrite resolve_reply, Hv.
  - intros tok groupId user Hauth Hrole.
    rewrite (get_group_resolve now db tok groupId user Hauth Hrole).
    cbn [fst snd]. split; [reflexivity|]. intros Hv.
    now rewrite resolve_reply, Hv.
  - intros g r Hin Hg.
    destruct (find_sorted_position g db r Hin Hg) as [i Hi].
    exists i. split; [exact Hi|].
    rewrite (resolve_lookup now g db i r Hnd Hi). f_equal.
    destruct (Rating.validate r); [|reflexivity].
    rewrite pre_save_fields. destruct r.
    unfold Rating.weighted. hook_simpl. reflexivity.
Qed.

(** A teacher's GET of group 7 turns the stored ranks 0, 0, 0 into
    1, 2, 3. *)
Lemma C10_reading_routes_persist_ranks_witness :
  NoDup (map Rating.id (ratings Sample.group7_db))
  /\ map Rating.rankInGroup (ratings Sample.group7_db) = [0; 0; 0]%Z
  /\ map Rating.rankInGroup
        (ratings (snd (RatingRoutes.get_group 1 Sample.group7_db
                         (Auth.Bearer 20) 7)))
     = [1; 2; 3]%Z
  /\ snd (RatingRoutes.get_student 1 Sample.group7_db (Auth.Bearer 12) 12)
     = snd (RatingRoutes.get_group 1 Sample.group7_db (Auth.Bearer 20) 7).
Proof.
  assert (Hnd : NoDup (map Rating.id (ratings Sample.group7_db))).
  { cbn. repeat constructor; cbn; intuition discriminate. }
  destruct (C10_reading_routes_persist_ranks 1 Sample.group7_db Hnd)
    as (Hstudent & Hgroup & _).
  split; [exact Hnd|].
  split; [reflexivity|].
  rewrite (proj1 (Hgroup (Auth.Bearer 20) 7%nat Sample.teacher_T
                         eq_refl eq_refl)).
  split; [vm_compute; reflexivity|].
  apply (Hstudent (Auth.Bearer 12) 12%nat (Sample.student_of 12)
                  (Sample.student_of 12) 7%nat Sample.row_B); try reflexivity.
  intros H; discriminate H.
Defined.

(** C10 as stated fails where a row of the group does not pass
    validation: student 11 reads the own rating, which is found; the
    request is answered 500 and the row of student 12 is not written, it
    stays as it was, rank 0 and all. *)
Lemma C10_refused_row_not_persisted :
  Aggregator.findOne 11 7 Sample.overbooked_db = Some Sample.row_A
  /\ fst (RatingRoutes.get_student 1 Sample.overbooked_db (Auth.Bearer 11) 11)
     = Failure 500 "Server error"
  /\ findById Rating.id 2
       (ratings (snd (RatingRoutes.get_student 1 Sample.overbooked_db
                        (Auth.Bearer 11) 11)))
     = Some Sample.row_overbooked
  /\ Rating.rankInGroup Sample.row_overbooked = 0%Z.
Proof. vm_compute. repeat split; reflexivity. Qed.
(** ** Authentication *)

Lemma auth_bearer (db : Db) (uid : ObjectId) (user : User.t) :
  Auth.auth db (Auth.Bearer uid) = inl user
  <-> findById User.id uid (users db) = Some user
      /\ User.isActive user = true.
Proof.
  unfold Auth.auth.
  destruct (findById User.id uid (users db)) as [u|]; [|split; [discriminate|]].
  - destruct (User.isActive u) eqn:E; cbn [negb]; split.
    + intros H. injection H as <-. now split.
    + intros [H _]. now injection H as <-.
    + discriminate.
    + intros [H Hact]. injection H as <-. congruence.
  - intros [H _]. discriminate.
Qed.

Lemma auth_user (db : Db) (tok : Auth.Token) (user : User.t) :
  Auth.auth db tok = inl user ->
  tok = Auth.Bearer (User.id user)
  /\ findById User.id (User.id user) (users db) = Some user
  /\ User.isActive user = true.
Proof.
  destruct tok as [| |uid]; try discriminate.
  intros H. apply auth_bearer in H. destruct H as [Hfind Hact].
  destruct (findById_key User.id _ _ _ Hfind) as [<- _].
  now repeat split.
Qed.

(** ** Bonus tasks: credits *)

Lemma record_completion_spec (now : Date) (taskId : Z) (task : BonusTasks.Task)
      (proof notes : option string) (user : User.t) :
  let user' := BonusTasks.record_completion now taskId task proof notes user in
  User.id user' = User.id user
  /\ User.role user' = User.role user
  /\ User.isActive user' = User.isActive user
  /\ User.points user' = User.points user + BonusTasks.points task
  /\ User.completedBonusTasks user'
     = User.completedBonusTasks user
       ++ [User.mkCompletedTask taskId now (BonusTasks.or_empty proof)
             (BonusTasks.or_empty notes) (BonusTasks.points task)]
  /\ User.achievements user'
     = User.achievements user
       ++ match BonusTasks.milestone now
                  (S (List.length (User.completedBonusTasks user))) with
          | Some a => [a]
          | None => []
          end.
Proof.
  unfold BonusTasks.record_completion.
  cbn [User.set_points User.set_completedBonusTasks User.completedBonusTasks
       User.achievements User.points].
  rewrite length_app, Nat.add_1_r. cbn [List.length].
  destruct (BonusTasks.milestone now
              (S (List.length (User.completedBonusTasks user)))).
  - cbn. repeat split.
  - cbn. rewrite app_nil_r. repeat split.
Qed.



(** A call that fails writes nothing. *)
Lemma complete_failure_frame (now : Date) (db db' : Db) (tok : Auth.Token)
      (taskId : Z) (proof notes : option string) (code : nat) (msg : string) :
  BonusTasks.complete now db tok taskId proof notes = (Failure code msg, db') ->
  db' = db.
Proof.
  unfold BonusTasks.complete.
  destruct (Auth.auth db tok) as [u|[c m]]; [|now intros [= _ _ <-]].
  destruct (find _ BonusTasks.bonusTasksData); [|now intros [= _ _ <-]].
  destruct (findById User.id (User.id u) (users db)); [|now intros [= _ _ <-]].
  destruct (existsb _ _); [now intros [= _ _ <-] | discriminate].
Qed.

(** After a completion is stored the same token still authenticates, now
    as the updated user. *)
Lemma auth_after_completion (db : Db) (uid : ObjectId) (user user' : User.t) :
  Auth.auth db (Auth.Bearer uid) = inl user ->
  User.id user' = User.id user ->
  User.isActive user' = User.isActive user ->
  Auth.auth (with_users (put User.id user' (users db)) db) (Auth.Bearer uid)
  = inl user'.
Proof.
  intros Hauth Hid Hact.
  destruct (auth_user _ _ _ Hauth) as (Htok & _ & Hactive).
  injection Htok as ->.
  apply auth_bearer. cbn [users with_users]. split.
  - rewrite <- Hid. apply findById_put_same.
  - congruence.
Qed.




(** ** Reward claims: debits *)

Section UpdateFacts.
Context {A : Type} (key : A -> ObjectId) (f : A -> A).
Hypothesis f_key : forall y, key (f y) = key y.

Lemma findById_update_same (i : ObjectId) (c : list A) :
  findById key i (update key i f c) = option_map f (findById key i c).
Proof.
  induction c as [|y c IH]; [reflexivity|].
  cbn [update]. rewrite findById_cons.
  destruct (Nat.eqb (key y) i) eqn:E.
  - rewrite findById_cons, f_key, E. reflexivity.
  - rewrite findById_cons, E. exact IH.
Qed.

Lemma findById_update_other (i j : ObjectId) (c : list A) :
  j <> i -> findById key j (update key i f c) = findById key j c.
Proof.
  intros Hne. induction c as [|y c IH]; [reflexivity|].
  cbn [update]. rewrite findById_cons.
  destruct (Nat.eqb (key y) i) eqn:E.
  - apply Nat.eqb_eq in E. rewrite findById_cons, f_key.
    destruct (Nat.eqb (key y) j) eqn:Ej; [|reflexivity].
    apply Nat.eqb_eq in Ej. congruence.
  - rewrite findById_cons.
    destruct (Nat.eqb (key y) j); [reflexivity | exact IH].
Qed.
End UpdateFacts.

Lemma lt_spec (x y : Q) : Rewards.lt x y = true <-> x < y.
Proof.
  unfold Rewards.lt. rewrite negb_true_iff. split; intros H.
  - apply Qnot_le_lt. intros Hle. apply Qle_bool_iff in Hle. congruence.
  - destruct (Qle_bool y x) eqn:E; [|reflexivity].
    apply Qle_bool_iff in E. exfalso. exact (Qlt_not_le _ _ H E).
Qed.

Lemma lt_false (x y : Q) : Rewards.lt x y = false <-> y <= x.
Proof.
  unfold Rewards.lt. rewrite negb_false_iff. apply Qle_bool_iff.
Qed.

(** The store a claim leaves: untouched, or debited with the claim record
    stored as well, or debited only. *)
Lemma claim_effect (now : Date) (w1 w2 : Rewards.Outcome) (db db' : Db)
      (tok : Auth.Token) (rewardId : ObjectId) (resp : Response string) :
  Rewards.claim now w1 w2 db tok rewardId = (resp, db') ->
  (db' = db /\ exists code msg, resp = Failure code msg)
  \/ exists user reward,
      Auth.auth db tok = inl user
      /\ findById Reward.id rewardId (rewards db) = Some reward
      /\ Reward.pointsRequired reward <= User.points user
      /\ Reward.claimOf (User.id user) reward = None
      /\ w1 = Rewards.Acked
      /\ users db'
         = update User.id (User.id user)
                  (Rewards.debit (Reward.pointsRequired reward)) (users db)
      /\ ((w2 = Rewards.Rejected
           /\ rewards db' = rewards db
           /\ resp = Failure 500 "Server error")
          \/ (w2 = Rewards.Acked
              /\ rewards db'
                 = put Reward.id
                       (Reward.set_claimedBy
                          (Reward.claimedBy reward
                           ++ [Reward.mkClaim (User.id user) now
                                              Reward.pending]) reward)
                       (rewards db)
              /\ resp = Success "Reward claimed successfully"%string)).
Proof.
  unfold Rewards.claim.
  destruct (Auth.auth db tok) as [user|[c m]] eqn:Hauth;
    [|intros [= <- <-]; left; eauto].
  destruct (negb (Auth.authorize [User.student] user));
    [intros [= <- <-]; left; unfold Auth.forbidden; eauto|].
  destruct (findById Reward.id rewardId (rewards db)) as [reward|] eqn:Hrew;
    [|intros [= <- <-]; left; eauto].
  destruct (Rewards.lt (User.points user) (Reward.pointsRequired reward))
    eqn:Hlt; [intros [= <- <-]; left; eauto|].
  destruct (Reward.claimOf (User.id user) reward) eqn:Hclaimed;
    [intros [= <- <-]; left; eauto|].
  match goal with |- context [if ?b then _ else _] => destruct b end;
    [intros [= <- <-]; left; eauto|].
  destruct w1; [|intros [= <- <-]; left; unfold server_error; eauto].
  apply lt_false in Hlt.
  destruct w2; intros [= <- <-]; right; exists user, reward;
    cbn [users rewards with_users with_rewards Reward.pointsRequired
         Reward.set_claimedBy];
    repeat (split; [solve [auto]|]).
  - right. repeat split.
  - left. repeat split.
Qed.

Lemma findPrevious_Some (reward previous : Reward.t) (db : Db) :
  Rewards.findPrevious reward db = Some previous ->
  In previous (rewards db)
  /\ Reward.order previous == Reward.order reward - 1
  /\ Reward.isActive previous = true.
Proof.
  unfold Rewards.findPrevious. intros H. apply find_some in H.
  destruct H as [Hin H]. apply andb_true_iff in H. destruct H as [Ho Ha].
  apply Qeq_bool_iff in Ho. now repeat split.
Qed.




Lemma debit_id (amount : Q) (u : User.t) :
  User.id (Rewards.debit amount u) = User.id u.
Proof. reflexivity. Qed.




(** ** The ledger, step by step *)

(** The store a completion call leaves: untouched, or the user stored with
    the completion recorded. *)
Lemma complete_effect (now : Date) (db db' : Db) (tok : Auth.Token)
      (taskId : Z) (proof notes : option string)
      (resp : Response BonusTasks.Completion) :
  BonusTasks.complete now db tok taskId proof notes = (resp, db') ->
  (db' = db /\ exists code msg, resp = Failure code msg)
  \/ exists user task,
      Auth.auth db tok = inl user
      /\ find (fun t => Z.eqb (BonusTasks.id t) taskId)
              BonusTasks.bonusTasksData = Some task
      /\ existsb (fun ct => Z.eqb (User.taskId ct) taskId)
                 (User.completedBonusTasks user) = false
      /\ db' = with_users
                 (put User.id
                      (BonusTasks.record_completion now taskId task proof
                                                    notes user)
                      (users db)) db
      /\ exists data, resp = Success data.
Proof.
  unfold BonusTasks.complete.
  destruct (Auth.auth db tok) as [user|[c m]] eqn:Hauth;
    [|intros [= <- <-]; left; eauto].
  destruct (auth_user _ _ _ Hauth) as (_ & Hfind & _). rewrite Hfind.
  destruct (find _ BonusTasks.bonusTasksData) as [task|] eqn:Htask;
    [|intros [= <- <-]; left; eauto].
  destruct (existsb _ _) eqn:Hdone; [intros [= <- <-]; left; eauto|].
  intros [= <- <-]. right. exists user, task. repeat split; eauto.
Qed.

Lemma task_points_positive (taskId : Z) (task : BonusTasks.Task) :
  find (fun t => Z.eqb (BonusTasks.id t) taskId) BonusTasks.bonusTasksData
  = Some task ->
  0 < BonusTasks.points task.
Proof.
  intros H. apply find_some in H. destruct H as [Hin _].
  cbn in Hin.
  repeat (destruct Hin as [<- | Hin]; [reflexivity|]).
  contradiction.
Qed.

(** What one request of student [uid] does to that student's document. *)
Lemma step_user (uid : ObjectId) (db : Db) (op : Ledger.Op) (user : User.t) :
  Auth.auth db (Auth.Bearer uid) = inl user ->
  exists user',
    Auth.auth (Ledger.step uid db op) (Auth.Bearer uid) = inl user'
    /\ (user' = user
        \/ (exists now taskId task proof notes,
               find (fun t => Z.eqb (BonusTasks.id t) taskId)
                    BonusTasks.bonusTasksData = Some task
               /\ user' = BonusTasks.record_completion now taskId task proof
                                                       notes user)
        \/ (exists amount,
               amount <= User.points user
               /\ user' = Rewards.debit amount user)).
Proof.
  intros Hauth. destruct op as [now taskId proof notes | now w1 w2 rewardId];
    cbn [Ledger.step].
  - destruct (BonusTasks.complete now db (Auth.Bearer uid) taskId proof notes)
      as [resp db'] eqn:E. cbn [snd].
    destruct (complete_effect _ _ _ _ _ _ _ _ E)
      as [[-> _] | (u & task & Hu & Htask & _ & -> & _)].
    + exists user. split; [exact Hauth | now left].
    + rewrite Hauth in Hu. injection Hu as <-.
      eexists. split.
      * apply (auth_after_completion db uid user); [exact Hauth | |];
          apply (record_completion_spec now taskId task proof notes user).
      * right. left. exists now, taskId, task, proof, notes. now split.
  - destruct (Rewards.claim now w1 w2 db (Auth.Bearer uid) rewardId)
      as [resp db'] eqn:E. cbn [snd].
    destruct (claim_effect _ _ _ _ _ _ _ _ E)
      as [[-> _] | (u & reward & Hu & _ & Hle & _ & _ & Husers & _)].
    + exists user. split; [exact Hauth | now left].
    + rewrite Hauth in Hu. injection Hu as <-.
      destruct (auth_user _ _ _ Hauth) as (Htok & Hfind & Hact).
      injection Htok as Huid.
      exists (Rewards.debit (Reward.pointsRequired reward) user). split.
      * apply auth_bearer. split; [|exact Hact].
        rewrite Husers, Huid.
        rewrite (findById_update_same User.id _ (debit_id _)).
        now rewrite Hfind.
      * right. right. exists (Reward.pointsRequired reward). now split.
Qed.

(** Requests under a token that does not authenticate write nothing. *)
Lemma run_unauthenticated (uid : ObjectId) (db : Db) (ops : list Ledger.Op)
      (e : nat * string) :
  Auth.auth db (Auth.Bearer uid) = inr e ->
  Ledger.run uid db ops = db.
Proof.
  intros Hauth. induction ops as [|op ops IH]; [reflexivity|].
  unfold Ledger.run. cbn [fold_left].
  assert (Hstep : Ledger.step uid db op = db).
  { destruct op; cbn [Ledger.step];
      unfold BonusTasks.complete, Rewards.claim; rewrite Hauth;
      destruct e; reflexivity. }
  rewrite Hstep. exact IH.
Qed.

Lemma step_user_nonneg (uid : ObjectId) (db : Db) (op : Ledger.Op)
      (user : User.t) :
  Auth.auth db (Auth.Bearer uid) = inl user ->
  0 <= User.points user ->
  exists user',
    Auth.auth (Ledger.step uid db op) (Auth.Bearer uid) = inl user'
    /\ 0 <= User.points user'.
Proof.
  intros Hauth Hpos.
  destruct (step_user uid db op user Hauth) as (user' & Hauth' & Hcases).
  exists user'. split; [exact Hauth'|].
  destruct Hcases
    as [-> | [(now & taskId & task & proof & notes & Htask & ->)
             | (amount & Hle & ->)]].
  - exact Hpos.
  - destruct (record_completion_spec now taskId task proof notes user)
      as (_ & _ & _ & -> & _).
    pose proof (task_points_positive taskId task Htask). lra.
  - cbn [Rewards.debit User.set_points User.points]. lra.
Qed.

Lemma run_user_nonneg (uid : ObjectId) (ops : list Ledger.Op) :
  forall (db : Db) (user : User.t),
    Auth.auth db (Auth.Bearer uid) = inl user ->
    0 <= User.points user ->
    exists user',
      Auth.auth (Ledger.run uid db ops) (Auth.Bearer uid) = inl user'
      /\ 0 <= User.points user'.
Proof.
  induction ops as [|op ops IH]; intros db user Hauth Hpos.
  - exists user. now split.
  - destruct (step_user_nonneg uid db op user Hauth Hpos)
      as (user1 & Hauth1 & Hpos1).
    unfold Ledger.run. cbn [fold_left].
    exact (IH _ user1 Hauth1 Hpos1).
Qed.

(** C9. The balance of a student never goes negative: over any sequence of
    bonus-task credits and reward-claim debits by the student, whatever the
    store answers to the writes, a balance that starts at zero or above
    stays there; and a claim whose price exceeds the balance is answered
    400 "Insufficient points" with nothing written. *)
Theorem C9_balance_never_negative (uid : ObjectId) (db : Db) :
  (forall ops,
      (forall u, findById User.id uid (users db) = Some u ->
                 0 <= User.points u) ->
      forall u',
        findById User.id uid (users (Ledger.run uid db ops)) = Some u' ->
        0 <= User.points u')
  /\ (forall now w1 w2 rewardId user reward,
         Auth.auth db (Auth.Bearer uid) = inl user ->
         User.role user = User.student ->
         findById Reward.id rewardId (rewards db) = Some reward ->
         User.points user < Reward.pointsRequired reward ->
         Rewards.claim now w1 w2 db (Auth.Bearer uid) rewardId
         = (Failure 400 "Insufficient points", db)).
Proof.
  split.
  - intros ops Hpos u' Hu'.
    destruct (Auth.auth db (Auth.Bearer uid)) as [user|e] eqn:Hauth.
    + destruct (auth_user _ _ _ Hauth) as (Htok & Hfind & _).
      injection Htok as Huid. rewrite <- Huid in Hfind.
      destruct (run_user_nonneg uid ops db user Hauth (Hpos _ Hfind))
        as (user' & Hauth' & Hpos').
      apply auth_bearer in Hauth'. destruct Hauth' as [Hfind' _].
      rewrite Hfind' in Hu'. injection Hu' as <-. exact Hpos'.
    + rewrite (run_unauthenticated uid db ops e Hauth) in Hu'.
      now apply Hpos.
  - intros now w1 w2 rewardId user reward Hauth Hrole Hfind Hlt.
    apply lt_spec in Hlt. unfold Rewards.claim, Auth.authorize.
    rewrite Hauth, Hrole. cbn [existsb User.Role_eqb orb negb].
    now rewrite Hfind, Hlt.
Qed.

(** ** Achievements *)

Lemma milestone_Some (now : Date) (k : nat) :
  k = 1%nat \/ k = 5%nat \/ k = 10%nat ->
  exists a, BonusTasks.milestone now k = Some a.
Proof.
  intros [-> | [-> | ->]]; eexists; reflexivity.
Qed.

Lemma milestone_None (now : Date) (k : nat) :
  k <> 1%nat -> k <> 5%nat -> k <> 10%nat ->
  BonusTasks.milestone now k = None.
Proof.
  intros H1 H5 H10. unfold BonusTasks.milestone.
  apply Nat.eqb_neq in H1, H5, H10. now rewrite H1, H5, H10.
Qed.

Lemma badges_step (now : Date) (n : nat) :
  BonusTasks.badges (S n)
  = BonusTasks.badges n
    ++ match BonusTasks.milestone now (S n) with
       | Some a => [User.title a]
       | None => []
       end.
Proof.
  do 10 (destruct n as [|n]; [reflexivity|]).
  reflexivity.
Qed.

Lemma badges_NoDup (n : nat) : NoDup (BonusTasks.badges n).
Proof.
  unfold BonusTasks.badges.
  destruct (Nat.leb 1 n); destruct (Nat.leb 5 n); destruct (Nat.leb 10 n);
    cbn [app]; repeat constructor; cbn [In];
    intuition discriminate.
Qed.

(** The titles held match the number of completed tasks. *)
Lemma step_user_badges (uid : ObjectId) (db : Db) (op : Ledger.Op)
      (user : User.t) :
  Auth.auth db (Auth.Bearer uid) = inl user ->
  map User.title (User.achievements user)
  = BonusTasks.badges (List.length (User.completedBonusTasks user)) ->
  exists user',
    Auth.auth (Ledger.step uid db op) (Auth.Bearer uid) = inl user'
    /\ (exists more,
           User.achievements user' = User.achievements user ++ more)
    /\ map User.title (User.achievements user')
       = BonusTasks.badges (List.length (User.completedBonusTasks user')).
Proof.
  intros Hauth Hinv.
  destruct (step_user uid db op user Hauth) as (user' & Hauth' & Hcases).
  exists user'. split; [exact Hauth'|].
  destruct Hcases
    as [-> | [(now & taskId & task & proof & notes & Htask & ->)
             | (amount & Hle & ->)]].
  - split; [exists []; now rewrite app_nil_r | exact Hinv].
  - destruct (record_completion_spec now taskId task proof notes user)
      as (_ & _ & _ & _ & -> & ->).
    split; [eexists; reflexivity|].
    rewrite map_app, Hinv, length_app, Nat.add_1_r.
    rewrite (badges_step now). f_equal.
    destruct (BonusTasks.milestone now _); reflexivity.
  - split; [exists []; now rewrite app_nil_r | exact Hinv].
Qed.

Lemma run_user_badges (uid : ObjectId) (ops : list Ledger.Op) :
  forall (db : Db) (user : User.t),
    Auth.auth db (Auth.Bearer uid) = inl user ->
    map User.title (User.achievements user)
    = BonusTasks.badges (List.length (User.completedBonusTasks user)) ->
    exists user',
      Auth.auth (Ledger.run uid db ops) (Auth.Bearer uid) = inl user'
      /\ (exists more,
             User.achievements user' = User.achievements user ++ more)
      /\ map User.title (User.achievements user')
         = BonusTasks.badges (List.length (User.completedBonusTasks user')).
Proof.
  induction ops as [|op ops IH]; intros db user Hauth Hinv.
  - exists user. repeat split; [exact Hauth | | exact Hinv].
    exists []. now rewrite app_nil_r.
  - destruct (step_user_badges uid db op user Hauth Hinv)
      as (user1 & Hauth1 & [more1 Hmore1] & Hinv1).
    unfold Ledger.run. cbn [fold_left].
    destruct (IH _ user1 Hauth1 Hinv1)
      as (user' & Hauth' & [more Hmore] & Hinv').
    exists user'. repeat split; [exact Hauth' | | exact Hinv'].
    exists (more1 ++ more). now rewrite Hmore, Hmore1, app_assoc.
Qed.

(** C8. A successful completion appends one achievement when the number of
    completed tasks becomes 1, 5 or 10 and none at any other count; a
    failed call changes nothing; and over any sequence of requests of a
    student whose titles match the tasks completed so far, achievements are
    only ever appended and no title is held twice. *)
Theorem C8_achievements_at_1_5_10 (uid : ObjectId) (db : Db) (user : User.t) :
  Auth.auth db (Auth.Bearer uid) = inl user ->
  (forall now taskId proof notes data db',
      BonusTasks.complete now db (Auth.Bearer uid) taskId proof notes
      = (Success data, db') ->
      exists user',
        findById User.id uid (users db') = Some user'
        /\ List.length (User.completedBonusTasks user')
           = S (List.length (User.completedBonusTasks user))
        /\ (forall n,
              n = List.length (User.completedBonusTasks user') ->
              (n = 1%nat \/ n = 5%nat \/ n = 10%nat ->
               exists a,
                 User.achievements user' = User.achievements user ++ [a])
              /\ (n <> 1%nat -> n <> 5%nat -> n <> 10%nat ->
                  User.achievements user' = User.achievements user)))
  /\ (forall now taskId proof notes code msg db',
         BonusTasks.complete now db (Auth.Bearer uid) taskId proof notes
         = (Failure code msg, db') ->
         db' = db)
  /\ (forall ops,
         map User.title (User.achievements user)
         = BonusTasks.badges (List.length (User.completedBonusTasks user)) ->
         exists user',
           findById User.id uid (users (Ledger.run uid db ops)) = Some user'
           /\ (exists more,
                  User.achievements user' = User.achievements user ++ more)
           /\ NoDup (map User.title (User.achievements user'))).
Proof.
  intros Hauth. split; [|split].
  - intros now taskId proof notes data db' Hcall.
    destruct (complete_effect _ _ _ _ _ _ _ _ Hcall)
      as [[_ (code & msg & Hresp)] | (u & task & Hu & _ & _ & -> & _)];
      [discriminate Hresp|].
    rewrite Hauth in Hu. injection Hu as <-.
    destruct (record_completion_spec now taskId task proof notes user)
      as (Hid & _ & _ & _ & Hrec & Hach).
    destruct (auth_user _ _ _ Hauth) as (Htok & _ & _).
    injection Htok as Huid.
    eexists. split; [|split].
    + cbn [users with_users]. rewrite Huid, <- Hid.
      apply findById_put_same.
    + rewrite Hrec, length_app, Nat.add_1_r. reflexivity.
    + intros n Hn. rewrite Hrec, length_app, Nat.add_1_r in Hn.
      rewrite Hach, <- Hn. split.
      * intros Hmile. destruct (milestone_Some now n Hmile) as [a ->].
        now exists a.
      * intros H1 H5 H10. rewrite (milestone_None now n H1 H5 H10).
        apply app_nil_r.
  - intros now taskId proof notes code msg db'.
    apply complete_failure_frame.
  - intros ops Hinv.
    destruct (run_user_badges uid ops db user Hauth Hinv)
      as (user' & Hauth' & Hmore & Hinv').
    apply auth_bearer in Hauth'. destruct Hauth' as [Hfind' _].
    exists user'. split; [exact Hfind'|]. split; [exact Hmore|].
    rewrite Hinv'. apply badges_NoDup.
Qed.

(** Student 11 in seven calls, one of them a repeat: six tasks completed,
    two achievements, for the first and the fifth. *)
Lemma C8_achievements_at_1_5_10_witness :
  (exists user',
      findById User.id 11 (users (Ledger.run 11 Sample.group7_db
                                             Sample.seven_calls))
      = Some user'
      /\ NoDup (map User.title (User.achievements user')))
  /\ option_map (fun u => (List.length (User.completedBonusTasks u),
                           map User.title (User.achievements u)))
       (findById User.id 11 (users (Ledger.run 11 Sample.group7_db
                                              Sample.seven_calls)))
     = Some (6%nat, ["Birinchi bonus vazifa"%string; "Faol o'quvchi"%string]).
Proof.
  split; [|reflexivity].
  destruct (C8_achievements_at_1_5_10 11 Sample.group7_db
              (Sample.student_of 11) eq_refl) as (_ & _ & Hrun).
  destruct (Hrun Sample.seven_calls eq_refl) as (user' & Hfind & _ & Hnd).
  exists user'. split; assumption.
Defined.

(** Student 11 with 100 points over a mixed sequence ends at 65; without
    points the student is refused reward 1. *)
Lemma C9_balance_never_negative_witness :
  (forall u',
      findById User.id 11 (users (Ledger.run 11 Sample.chain_db
                                             Sample.mixed_ops)) = Some u' ->
      0 <= User.points u')
  /\ Ledger.balance 11 (Ledger.run 11 Sample.chain_db Sample.mixed_ops)
     = Some 65
  /\ Rewards.claim 1 Rewards.Acked Rewards.Acked Sample.poor_db
                   (Auth.Bearer 11) 1
     = (Failure 400 "Insufficient points", Sample.poor_db).
Proof.
  split; [|split].
  - apply (proj1 (C9_balance_never_negative 11 Sample.chain_db)).
    intros u Hu. injection Hu as <-. discriminate.
  - vm_compute. reflexivity.
  - apply (proj2 (C9_balance_never_negative 11 Sample.poor_db)
                 1%Z Rewards.Acked Rewards.Acked 1%nat
                 (Sample.student_of 11) (Sample.reward_1 true));
      reflexivity.
Defined.

(** * Further properties *)

(** ** Ranges the pre-save hook keeps *)

(** [Math.round] keeps a number between two integers between them. *)
Lemma Math_round_between (lo hi : Z) (x : Q) :
  inject_Z lo <= x -> x <= inject_Z hi ->
  (lo <= Js.Math_round x <= hi)%Z.
Proof.
  intros Hlo Hhi. unfold Js.Math_round. split.
  - rewrite <- (Qfloor_Z lo). apply Qfloor_resp_le. lra.
  - apply Z.lt_succ_r. rewrite Zlt_Qlt.
    eapply Qle_lt_trans; [apply Qfloor_le|].
    unfold Z.succ. rewrite inject_Z_plus.
    change (inject_Z 1) with 1. lra.
Qed.

Lemma in_scale_round (x : Q) :
  RatingInv.in_scale x -> RatingInv.in_scale (inject_Z (Js.Math_round x)).
Proof.
  intros [H0 H10].
  destruct (Math_round_between 0 10 x H0 H10) as [Hlo Hhi].
  split.
  - change 0 with (inject_Z 0). now rewrite <- Zle_Qle.
  - change 10 with (inject_Z 10). now rewrite <- Zle_Qle.
Qed.

(** A part of a whole, taken out of ten, as the hook computes it. *)
Lemma ratio_in_scale (part whole : Q) :
  0 <= part -> part <= whole ->
  RatingInv.in_scale (Js.mul (Js.div part whole) 10).
Proof.
  intros H0 Hle.
  destruct (div_bounds part whole H0 Hle) as [Hd0 Hd1].
  destruct (mul_bounds (Js.div part whole) 10 1 10 Hd0 Hd1)
    as [Hm0 Hm1]; [discriminate | apply Qle_refl|].
  split; [exact Hm0|].
  assert (E : Js.mul 1 10 = 10) by (vm_compute; reflexivity).
  now rewrite E in Hm1.
Qed.

(** The weighted sum of components on the scale is on the scale. *)
Lemma weighted_in_scale (r : Rating.t) :
  RatingInv.components_in_scale r -> RatingInv.in_scale (Rating.weighted r).
Proof.
  intros ([Hg0 Hg1] & [Ha0 Ha1] & [Hh0 Hh1] & [Hc0 Hc1]).
  unfold Rating.weighted.
  destruct (mul_bounds (Rating.grades r) (4 # 10) 10 (4 # 10) Hg0 Hg1)
    as [G0 G1]; [discriminate | apply Qle_refl|].
  destruct (mul_bounds (Rating.attendance r) (25 # 100) 10 (25 # 100) Ha0 Ha1)
    as [A0 A1]; [discriminate | apply Qle_refl|].
  destruct (mul_bounds (Rating.homeworkCompletion r) (25 # 100) 10 (25 # 100)
              Hh0 Hh1) as [H0 H1]; [discriminate | apply Qle_refl|].
  destruct (mul_bounds (Rating.classParticipation r) (1 # 10) 10 (1 # 10)
              Hc0 Hc1) as [C0 C1]; [discriminate | apply Qle_refl|].
  destruct (add_bounds _ _ _ _ G0 G1 A0 A1) as [S0 S1].
  destruct (add_bounds _ _ _ _ S0 S1 H0 H1) as [T0 T1].
  destruct (add_bounds _ _ _ _ T0 T1 C0 C1) as [U0 U1].
  split; [exact U0|].
  assert (E : Js.add
                (Js.add (Js.add (Js.mul 10 (4 # 10)) (Js.mul 10 (25 # 100)))
                        (Js.mul 10 (25 # 100)))
                (Js.mul 10 (1 # 10)) = 10) by (vm_compute; reflexivity).
  now rewrite E in U1.
Qed.

(** X1. A row whose four components lie between 0 and 10 is stored with a
    total between 0 and 10. *)
Theorem save_keeps_total_in_scale (now : Date) (r : Rating.t) :
  RatingInv.components_in_scale r ->
  (0 <= Rating.totalScore (Rating.pre_save now r) <= 10)%Z.
Proof.
  intros Hr. rewrite pre_save_totalScore.
  destruct (weighted_in_scale r Hr) as [H0 H10].
  now apply Math_round_between.
Qed.

Lemma save_keeps_total_in_scale_witness :
  (0 <= Rating.totalScore (Rating.pre_save 1 Sample.row_C) <= 10)%Z.
Proof.
  apply save_keeps_total_in_scale.
  unfold RatingInv.components_in_scale, RatingInv.in_scale. cbn.
  repeat split; discriminate.
Defined.

(** What the hook leaves in the two percentages. *)
Lemma pre_save_percentages (now : Date) (r : Rating.t) :
  Rating.homeworkCompletion (Rating.pre_save now r)
  = (if Js.gt (Rating.totalHomeworks r) 0
     then inject_Z (Js.Math_round
                      (Js.mul (Js.div (Rating.completedHomeworks r)
                                      (Rating.totalHomeworks r)) 10))
     else Rating.homeworkCompletion r)
  /\ Rating.attendance (Rating.pre_save now r)
     = (if Js.gt (Rating.totalClasses r) 0
        then inject_Z (Js.Math_round
                         (Js.mul (Js.div (Rating.attendedClasses r)
                                         (Rating.totalClasses r)) 10))
        else Rating.attendance r).
Proof. rewrite pre_save_fields. split; reflexivity. Qed.

(** X2. Counters that count a part of a whole (0 <= completed <= total,
    0 <= attended <= classes) give stored percentages between 0 and 10. *)
Theorem save_keeps_percentages_in_scale (now : Date) (r : Rating.t) :
  (0 < Rating.totalHomeworks r ->
   0 <= Rating.completedHomeworks r ->
   Rating.completedHomeworks r <= Rating.totalHomeworks r ->
   RatingInv.in_scale (Rating.homeworkCompletion (Rating.pre_save now r)))
  /\ (0 < Rating.totalClasses r ->
      0 <= Rating.attendedClasses r ->
      Rating.attendedClasses r <= Rating.totalClasses r ->
      RatingInv.in_scale (Rating.attendance (Rating.pre_save now r))).
Proof.
  destruct (pre_save_percentages now r) as [Hhc Hatt].
  split; intros Hpos H0 Hle.
  - rewrite Hhc. apply gt_zero_spec in Hpos. rewrite Hpos.
    now apply in_scale_round, ratio_in_scale.
  - rewrite Hatt. apply gt_zero_spec in Hpos. rewrite Hpos.
    now apply in_scale_round, ratio_in_scale.
Qed.

Lemma save_keeps_percentages_in_scale_witness :
  RatingInv.in_scale
    (Rating.homeworkCompletion (Rating.pre_save 1 Sample.graded_once)).
Proof.
  apply (proj1 (save_keeps_percentages_in_scale 1 Sample.graded_once));
    [reflexivity | discriminate | discriminate].
Defined.

(** ** Saving a row again *)

(** X3. A consistent row is a fixed point of the hook: saving it changes
    [lastUpdated] and nothing else. *)
Theorem save_consistent_row (now : Date) (r : Rating.t) :
  RatingInv.consistent r ->
  Rating.pre_save now r = Rating.set_lastUpdated now r.
Proof. apply consistent_fixed_point. Qed.

(** What the hook leaves is consistent once the hook has run before. *)
Lemma pre_save_twice_consistent (n1 n2 : Date) (r : Rating.t) :
  RatingInv.consistent (Rating.pre_save n2 (Rating.pre_save n1 r)).
Proof.
  unfold RatingInv.consistent.
  split; [apply pre_save_twice_invariant|].
  destruct (pre_save_percentages n2 (Rating.pre_save n1 r)) as [Hhc Hatt].
  destruct (pre_save_frame n2 (Rating.pre_save n1 r))
    as (_ & _ & _ & _ & _ & _ & Hth & Hch & Htc & Hac).
  cbv zeta in Hth, Hch, Htc, Hac.
  rewrite Hth, Hch, Htc, Hac, Hhc, Hatt.
  split; intros E; rewrite E; reflexivity.
Qed.

(** X4. Two saves of a row in a row.  The first, accepted, stores what the
    hook leaves.  The second is accepted when that row passes validation,
    and then the row it stores is consistent; it is refused when the hook
    left a percentage off the scale, and then the row stays as the first
    save stored it. *)
Theorem save_twice_consistent
        (n1 n2 : Date) (r : Rating.t) (db db1 : Db) :
  Aggregator.save n1 r db = Some db1 ->
  let r1 := Rating.pre_save n1 r in
  findById Rating.id (Rating.id r) (ratings db1) = Some r1
  /\ match Aggregator.save n2 r1 db1 with
     | Some db2 =>
         Rating.validate r1 = true
         /\ exists r2,
             findById Rating.id (Rating.id r) (ratings db2) = Some r2
             /\ r2 = Rating.pre_save n2 r1
             /\ RatingInv.consistent r2
     | None => Rating.validate r1 = false
     end.
Proof.
  intros Hsave r1.
  destruct (save_stores n1 r db db1 Hsave) as (_ & _ & Hfind).
  split; [exact Hfind|].
  destruct (Aggregator.save n2 r1 db1) as [db2|] eqn:E2.
  - destruct (save_stores n2 r1 db1 db2 E2) as (Hv & _ & Hfind2).
    split; [exact Hv|]. exists (Rating.pre_save n2 r1).
    split; [|split; [reflexivity | apply pre_save_twice_consistent]].
    rewrite <- Hfind2. f_equal. symmetry. apply pre_save_id.
  - now apply save_refused in E2.
Qed.

Lemma save_consistent_row_witness :
  Rating.pre_save 3 (Rating.pre_save 2 (Rating.pre_save 1 Sample.graded_once))
  = Rating.set_lastUpdated 3
      (Rating.pre_save 2 (Rating.pre_save 1 Sample.graded_once)).
Proof.
  apply save_consistent_row. unfold RatingInv.consistent.
  split; [vm_compute; reflexivity|].
  split; intros H; [vm_compute; reflexivity | vm_compute in H; discriminate H].
Defined.

Lemma save_twice_consistent_witness :
  exists db1 db2 r2,
    Aggregator.save 1 Sample.graded_once Sample.graded_db = Some db1
    /\ Aggregator.save 2 (Rating.pre_save 1 Sample.graded_once) db1 = Some db2
    /\ findById Rating.id 1 (ratings db2) = Some r2
    /\ RatingInv.consistent r2.
Proof.
  eexists. 
  pose proof (save_twice_consistent 1 2 Sample.graded_once Sample.graded_db
                _ eq_refl) as [_ H].
  destruct (Aggregator.save 2 (Rating.pre_save 1 Sample.graded_once) _)
    as [db2|] eqn:E; [|vm_compute in E; discriminate E].
  destruct H as (_ & r2 & Hfind & _ & Hcons).
  exists db2, r2. split; [reflexivity|]. split; [exact E|].
  split; [exact Hfind | exact Hcons].
Defined.

(** ** What the aggregator reads from the homework *)

Lemma find_map_keeps {A : Type} (f : A -> bool) (h : A -> A) (l : list A) :
  (forall x, f (h x) = f x) ->
  find f (map h l) = option_map h (find f l).
Proof.
  intros Hf. induction l as [|x l IH]; [reflexivity|].
  cbn [map find]. rewrite Hf. destruct (f x); [reflexivity | exact IH].
Qed.

Lemma filter_map_keeps {A : Type} (f : A -> bool) (h : A -> A) (l : list A) :
  (forall x, f (h x) = f x) ->
  filter f (map h l) = map h (filter f l).
Proof.
  intros Hf. induction l as [|x l IH]; [reflexivity|].
  cbn [map filter]. rewrite Hf. destruct (f x); cbn [map]; now rewrite IH.
Qed.

Lemma tally_step_ungrade_zero (s : ObjectId) (acc : Aggregator.Tally)
      (hw : Homework.t) :
  Aggregator.tally_step s acc (Grades.ungrade_zero hw)
  = Aggregator.tally_step s acc hw.
Proof.
  unfold Aggregator.tally_step, Grades.ungrade_zero.
  cbn [Homework.submissions].
  rewrite find_map_keeps.
  - destruct (find _ (Homework.submissions hw)) as [sub|]; [|reflexivity].
    cbn [option_map]. unfold Grades.ungrade_zero_sub.
    destruct (Homework.totalGrade sub) as [g|] eqn:Eg; [|now rewrite Eg].
    destruct (Js.truthy g) eqn:Et; [now rewrite Eg, Et | reflexivity].
  - intros x. unfold Grades.ungrade_zero_sub.
    destruct (Homework.totalGrade x) as [g|]; [|reflexivity].
    destruct (Js.truthy g); reflexivity.
Qed.

(** X5. A grade of 0 is read as no grade: the row the aggregator stores is
    the same whether a submission carries [totalGrade] 0 or none at all; it
    counts as completed and stays out of the average. *)
Theorem grade_zero_is_ungraded (now : Date) (s g : ObjectId) (db : Db) :
  Aggregator.updateStudentRating now s g
    (with_homeworks (map Grades.ungrade_zero (homeworks db)) db)
  = with_homeworks (map Grades.ungrade_zero (homeworks db))
      (Aggregator.updateStudentRating now s g db).
Proof.
  assert (Ht : Aggregator.tally s g
                 (with_homeworks (map Grades.ungrade_zero (homeworks db)) db)
               = Aggregator.tally s g db).
  { unfold Aggregator.tally. cbn [homeworks with_homeworks].
    rewrite filter_map_keeps by reflexivity.
    rewrite length_map. f_equal.
    generalize (Aggregator.mkTally 0 0 0).
    induction (filter (fun hw => Nat.eqb (Homework.group hw) g) (homeworks db))
      as [|hw l IH]; intros acc; [reflexivity|].
    cbn [map fold_left]. rewrite tally_step_ungrade_zero. apply IH. }
  unfold Aggregator.updateStudentRating.
  change (Aggregator.findOne s g
            (with_homeworks (map Grades.ungrade_zero (homeworks db)) db))
    with (Aggregator.findOne s g db).
  rewrite Ht.
  destruct (Aggregator.findOne s g db); [|reflexivity].
  destruct (Aggregator.tally s g db).
  unfold Aggregator.settle, Aggregator.save.
  destruct (Rating.validate _); reflexivity.
Qed.

(** ** binary64 on whole numbers *)

Lemma rne_comp (p q : Q) : p == q -> Js.rne p = Js.rne q.
Proof.
  intros H. unfold Js.rne.
  rewrite (Qfloor_comp _ _ H).
  assert (E : Qcompare (p - inject_Z (Qfloor q)) (1 # 2)
              = Qcompare (q - inject_Z (Qfloor q)) (1 # 2))
    by (now rewrite H).
  now rewrite E.
Qed.

Lemma ilog2_unique (x : Q) (k : Z) :
  0 < x -> Js.pow2 k <= x -> x < Js.pow2 (k + 1) -> Js.ilog2 x = k.
Proof.
  intros Hx Hlo Hhi. destruct (ilog2_spec x Hx) as [Hl Hu].
  assert (H1 : Js.pow2 k < Js.pow2 (Js.ilog2 x + 1)) by lra.
  assert (H2 : Js.pow2 (Js.ilog2 x) < Js.pow2 (k + 1)) by lra.
  apply pow2_lt_inv in H1, H2. lia.
Qed.

(** [fl] takes equal numbers to the same value. *)
Lemma fl_comp (x y : Q) : x == y -> Js.fl x = Js.fl y.
Proof.
  intros H. unfold Js.fl.
  assert (E0 : Qeq_bool x 0 = Qeq_bool y 0).
  { destruct (Qeq_bool x 0) eqn:Ex, (Qeq_bool y 0) eqn:Ey; try reflexivity.
    - apply Qeq_bool_iff in Ex. apply Qeq_bool_neq in Ey.
      exfalso. apply Ey. now rewrite <- H.
    - apply Qeq_bool_iff in Ey. apply Qeq_bool_neq in Ex.
      exfalso. apply Ex. now rewrite H. }
  rewrite E0. destruct (Qeq_bool y 0) eqn:Ey; [reflexivity|].
  apply Qeq_bool_neq in Ey.
  assert (Hy : 0 < Qabs y).
  { destruct (Qlt_le_dec y 0) as [Hneg|Hpos].
    - rewrite (Qabs_neg y) by lra. lra.
    - rewrite (Qabs_pos y) by exact Hpos.
      destruct (Qlt_le_dec 0 y) as [Hp|Hn]; [exact Hp|].
      exfalso. apply Ey. lra. }
  assert (Habs : Qabs x == Qabs y) by (now rewrite H).
  assert (EL : Js.ilog2 (Qabs x) = Js.ilog2 (Qabs y)).
  { destruct (ilog2_spec (Qabs y) Hy) as [Hl Hu].
    apply ilog2_unique; rewrite Habs; assumption. }
  rewrite EL. apply Qred_complete.
  rewrite (rne_comp (x / Js.pow2 (Z.max (Js.ilog2 (Qabs y) - 52) (-1074)))
                    (y / Js.pow2 (Z.max (Js.ilog2 (Qabs y) - 52) (-1074))))
    by (now rewrite H).
  reflexivity.
Qed.

(** Whole numbers below 2^53 are binary64 values. *)
Lemma fl_int (n : Z) :
  (0 <= n < 2 ^ 53)%Z -> Js.fl (inject_Z n) == inject_Z n.
Proof.
  intros [H0 H53].
  destruct (Z.eq_dec n 0) as [->|Hn]; [reflexivity|].
  assert (Hx : 0 < inject_Z n) by (rewrite <- (Zlt_Qlt 0); lia).
  assert (Hne : ~ inject_Z n == 0) by lra.
  rewrite (fl_value _ Hne), (Qabs_nonneg_eq (inject_Z n)) by lra.
  destruct (ilog2_spec _ Hx) as [Hl Hu].
  set (L := Js.ilog2 (inject_Z n)) in *.
  assert (HL0 : (0 <= L)%Z).
  { assert (H : Js.pow2 0 < Js.pow2 (L + 1)).
    { eapply Qle_lt_trans; [|exact Hu].
      change (Js.pow2 0) with (inject_Z 1). rewrite <- Zle_Qle. lia. }
    apply pow2_lt_inv in H. lia. }
  assert (HL52 : (L <= 52)%Z).
  { assert (H : Js.pow2 L < Js.pow2 53).
    { eapply Qle_lt_trans; [exact Hl|].
      rewrite (pow2_Z 53) by lia. rewrite <- Zlt_Qlt. exact H53. }
    apply pow2_lt_inv in H. lia. }
  replace (Z.max (L - 52) (-1074)) with (- (52 - L))%Z by lia.
  assert (Hp : Js.pow2 (- (52 - L)) == / inject_Z (2 ^ (52 - L))).
  { unfold Js.pow2. rewrite Qpower_opp. fold (Js.pow2 (52 - L)).
    now rewrite pow2_Z by lia. }
  assert (Hpos : 0 < inject_Z (2 ^ (52 - L))).
  { rewrite <- (Zlt_Qlt 0). apply Z.pow_pos_nonneg; lia. }
  rewrite (rne_comp _ (inject_Z (n * 2 ^ (52 - L)))).
  - rewrite rne_Z, Hp, inject_Z_mult. field. lra.
  - rewrite Hp, inject_Z_mult. field. lra.
Qed.

Lemma fl_whole (q : Q) (n : Z) :
  q == inject_Z n -> (0 <= n < 2 ^ 53)%Z -> Js.fl q == inject_Z n.
Proof. intros Hq Hn. rewrite (fl_comp q _ Hq). now apply fl_int. Qed.

(** ** The average the aggregator takes *)

(** The loop keeps its running variables in step: [gradeCount] counts the
    grades added, their sum is at most ten apiece, and no more completions
    are counted than homework seen. *)
Lemma tally_fold_bounds (s : ObjectId) (l : list Homework.t) :
  Grades.grades_in_scale l ->
  forall (acc : Aggregator.Tally) (m k : nat),
    (m <= k)%nat ->
    (Z.of_nat (k + List.length l) < 2 ^ 32)%Z ->
    Aggregator.gradeCount acc == inject_Z (Z.of_nat m)
    /\ 0 <= Aggregator.totalGrades acc
    /\ Aggregator.totalGrades acc <= inject_Z (10 * Z.of_nat m)
    /\ 0 <= Aggregator.completedHomeworks acc
    /\ Aggregator.completedHomeworks acc <= inject_Z (Z.of_nat k) ->
    let acc' := fold_left (Aggregator.tally_step s) l acc in
    exists m',
      (m' <= k + List.length l)%nat
      /\ Aggregator.gradeCount acc' == inject_Z (Z.of_nat m')
      /\ 0 <= Aggregator.totalGrades acc'
      /\ Aggregator.totalGrades acc' <= inject_Z (10 * Z.of_nat m')
      /\ 0 <= Aggregator.completedHomeworks acc'
      /\ Aggregator.completedHomeworks acc'
         <= inject_Z (Z.of_nat (k + List.length l)).
Proof.
  induction l as [|hw l IH]; intros Hsc acc m k Hmk Hlen Hacc.
  - cbn [fold_left List.length]. rewrite Nat.add_0_r in *.
    exists m. split; [exact Hmk | exact Hacc].
  - cbn [fold_left List.length] in *.
    rewrite Nat.add_succ_r, <- Nat.add_succ_l in *.
    assert (Hl : Grades.grades_in_scale l)
      by (intros h sub g Hh; apply Hsc; now right).
    destruct Hacc as (H1 & H2 & H3 & H4 & H5).
    assert (Hk : inject_Z (Z.of_nat (S k)) == inject_Z (Z.of_nat k) + 1).
    { rewrite Nat2Z.inj_succ. unfold Z.succ. rewrite inject_Z_plus.
      reflexivity. }
    assert (Hm : inject_Z (Z.of_nat (S m)) == inject_Z (Z.of_nat m) + 1).
    { rewrite Nat2Z.inj_succ. unfold Z.succ. rewrite inject_Z_plus.
      reflexivity. }
    assert (Hweak : inject_Z (Z.of_nat k) <= inject_Z (Z.of_nat (S k)))
      by (rewrite Hk; lra).
    unfold Aggregator.tally_step.
    destruct (find _ (Homework.submissions hw)) as [sub|] eqn:Ef.
    + apply find_some in Ef. destruct Ef as [Hin _].
      assert (Hc : 0 <= Aggregator.completedHomeworks acc + 1
                   /\ Aggregator.completedHomeworks acc + 1
                      <= inject_Z (Z.of_nat (S k)))
        by (rewrite Hk; split; lra).
      destruct (Homework.totalGrade sub) as [g|] eqn:Eg.
      * destruct (Hsc hw sub g (or_introl eq_refl) Hin Eg) as [Hg0 Hg1].
        destruct (Js.truthy g).
        -- apply (IH Hl _ (S m) (S k)); [lia | exact Hlen|].
           cbn [Aggregator.gradeCount Aggregator.totalGrades
                Aggregator.completedHomeworks].
           split; [rewrite H1, Hm; reflexivity|].
           destruct (add_bounds (Aggregator.totalGrades acc) g
                       (inject_Z (10 * Z.of_nat m)) 10 H2 H3 Hg0 Hg1)
             as [S0 S1].
           split; [exact S0|]. split; [|exact Hc].
           eapply Qle_trans; [exact S1|]. unfold Js.add.
           assert (E10 : Js.fl 10 = 10) by (vm_compute; reflexivity).
           rewrite E10.
           rewrite (fl_whole (Js.fl (inject_Z (10 * Z.of_nat m)) + 10)
                             (10 * Z.of_nat (S m)));
             [apply Qle_refl | | lia].
           rewrite (fl_int (10 * Z.of_nat m)) by lia.
           replace (10 * Z.of_nat (S m))%Z with (10 * Z.of_nat m + 10)%Z
             by lia.
           rewrite inject_Z_plus. reflexivity.
        -- apply (IH Hl _ m (S k)); [lia | exact Hlen|].
           cbn [Aggregator.gradeCount Aggregator.totalGrades
                Aggregator.completedHomeworks].
           repeat split; tauto.
      * apply (IH Hl _ m (S k)); [lia | exact Hlen|].
        cbn [Aggregator.gradeCount Aggregator.totalGrades
             Aggregator.completedHomeworks].
        repeat split; tauto.
    + apply (IH Hl _ m (S k)); [lia | exact Hlen|].
      repeat split; try assumption. lra.
Qed.

(** The average of grades on the scale is on the scale. *)
Lemma average_in_scale (tg gc : Q) (m : nat) :
  (Z.of_nat m < 2 ^ 32)%Z ->
  gc == inject_Z (Z.of_nat m) ->
  0 <= tg -> tg <= inject_Z (10 * Z.of_nat m) ->
  RatingInv.in_scale (if Js.gt gc 0 then Js.div tg gc else 0).
Proof.
  intros Hm Hgc H0 H1.
  destruct (Js.gt gc 0) eqn:E; [|split; discriminate].
  apply gt_zero_spec in E. unfold Js.div.
  assert (Hfg : Js.fl gc == inject_Z (Z.of_nat m))
    by (apply fl_whole; [exact Hgc | lia]).
  assert (Hft : 0 <= Js.fl tg /\ Js.fl tg <= inject_Z (10 * Z.of_nat m)).
  { split; [now apply fl_nonneg|].
    rewrite <- (fl_int (10 * Z.of_nat m)) by lia. now apply fl_mono. }
  destruct Hft as [Ht0 Ht1].
  assert (Hpos : 0 < inject_Z (Z.of_nat m)) by (rewrite <- Hgc; exact E).
  assert (Hq : 0 <= Js.fl tg / Js.fl gc /\ Js.fl tg / Js.fl gc <= 10).
  { rewrite Hfg. split.
    - apply Qle_shift_div_l; [exact Hpos | lra].
    - apply Qle_shift_div_r; [exact Hpos|].
      rewrite inject_Z_mult in Ht1. exact Ht1. }
  destruct Hq as [Hq0 Hq1]. split; [now apply fl_nonneg|].
  assert (E10 : Js.fl 10 = 10) by (vm_compute; reflexivity).
  apply Qle_trans with (Js.fl 10); [now apply fl_mono|].
  rewrite E10. apply Qle_refl.
Qed.

Lemma in_range_scale (x : Q) :
  Rating.in_range x = true <-> RatingInv.in_scale x.
Proof.
  unfold Rating.in_range, RatingInv.in_scale.
  rewrite andb_true_iff, !Qle_bool_iff. reflexivity.
Qed.

(** X6. Grades between 0 and 10 give a row on the scale.  With every
    [totalGrade] of the store between 0 and 10 (and fewer than 2^32
    homework documents, as in any array), the row [updateStudentRating]
    hands to [save] has [grades] equal to [averageGrade], between 0 and
    10, and counters with 0 <= completed <= total.  When that row passes
    validation it is what the store holds afterwards, as the hook leaves
    it, with [homeworkCompletion] between 0 and 10 as well; when it does
    not (a path left off the scale by an earlier save), the call changes
    nothing. *)
Theorem aggregate_stays_in_scale (now : Date) (s g : ObjectId) (db : Db)
        (r : Rating.t) :
  Aggregator.findOne s g db = Some r ->
  Grades.grades_in_scale (homeworks db) ->
  (Z.of_nat (List.length (homeworks db)) < 2 ^ 32)%Z ->
  let fed := Aggregator.assign_facts (fst (Aggregator.tally s g db))
                                     (snd (Aggregator.tally s g db)) r in
  Rating.grades fed = Rating.averageGrade fed
  /\ RatingInv.in_scale (Rating.grades fed)
  /\ 0 <= Rating.completedHomeworks fed
  /\ Rating.completedHomeworks fed <= Rating.totalHomeworks fed
  /\ (Rating.validate fed = false ->
      Aggregator.updateStudentRating now s g db = db)
  /\ (Rating.validate fed = true ->
      exists r',
        Aggregator.findOne s g (Aggregator.updateStudentRating now s g db)
        = Some r'
        /\ r' = Rating.pre_save now fed
        /\ Rating.grades r' = Rating.averageGrade r'
        /\ RatingInv.in_scale (Rating.grades r')
        /\ 0 <= Rating.completedHomeworks r'
        /\ Rating.completedHomeworks r' <= Rating.totalHomeworks r'
        /\ RatingInv.in_scale (Rating.homeworkCompletion r')).
Proof.
  intros Hfind Hsc Hlen fed.
  set (l := filter (fun hw => Nat.eqb (Homework.group hw) g) (homeworks db)).
  assert (Hl : Grades.grades_in_scale l).
  { intros hw sub q Hin. apply Hsc. apply filter_In in Hin. tauto. }
  assert (Hll : (Z.of_nat (List.length l) < 2 ^ 32)%Z).
  { pose proof (filter_length_le (fun hw => Nat.eqb (Homework.group hw) g)
                                 (homeworks db)) as Hle.
    fold l in Hle. lia. }
  destruct (tally_fold_bounds s l Hl (Aggregator.mkTally 0 0 0) 0 0
              (Nat.le_refl 0) Hll)
    as (m & Hm & H1 & H2 & H3 & H4 & H5).
  { cbn. repeat split; discriminate. }
  cbn [Nat.add] in Hm, H5.
  assert (Hfed : fed = Aggregator.assign_facts
                         (fold_left (Aggregator.tally_step s) l
                                    (Aggregator.mkTally 0 0 0))
                         (inject_Z (Z.of_nat (List.length l))) r)
    by reflexivity.
  set (acc := fold_left (Aggregator.tally_step s) l (Aggregator.mkTally 0 0 0))
    in *.
  set (total := inject_Z (Z.of_nat (List.length l))) in *.
  assert (Havg : RatingInv.in_scale
                   (if Js.gt (Aggregator.gradeCount acc) 0
                    then Js.div (Aggregator.totalGrades acc)
                                (Aggregator.gradeCount acc)
                    else 0))
    by (apply (average_in_scale _ _ m); [lia | assumption..]).
  assert (Hg : Rating.grades fed = Rating.averageGrade fed)
    by (rewrite Hfed; reflexivity).
  assert (Hgs : RatingInv.in_scale (Rating.grades fed))
    by (rewrite Hfed; exact Havg).
  assert (Hc0 : 0 <= Rating.completedHomeworks fed)
    by (rewrite Hfed; exact H4).
  assert (Hc1 : Rating.completedHomeworks fed <= Rating.totalHomeworks fed)
    by (rewrite Hfed; exact H5).
  assert (Hth : Rating.totalHomeworks fed = total)
    by (rewrite Hfed; reflexivity).
  repeat (split; [assumption|]).
  rewrite <- (with_ratings_same db) in Hfind.
  destruct (updateStudentRating_found now s g db (ratings db) r Hfind)
    as [Hyes Hno]. cbv zeta in Hyes, Hno. fold fed in Hyes, Hno.
  rewrite (with_ratings_same db) in Hyes, Hno.
  split; [exact Hno|].
  intros Hv. destruct (Hyes Hv) as [Hupd Hf]. rewrite <- Hupd in Hf.
  exists (Rating.pre_save now fed). split; [exact Hf|].
  split; [reflexivity|].
  destruct (pre_save_frame now fed)
    as (_ & _ & _ & Hgr & _ & _ & Hth' & Hch' & _).
  cbv zeta in Hgr, Hth', Hch'.
  rewrite Hgr, Hth', Hch'.
  assert (Hag : Rating.averageGrade (Rating.pre_save now fed)
                = Rating.averageGrade fed)
    by (rewrite pre_save_fields; reflexivity).
  rewrite Hag.
  repeat (split; [assumption|]).
  rewrite (proj1 (pre_save_percentages now fed)).
  destruct (Js.gt (Rating.totalHomeworks fed) 0).
  - now apply in_scale_round, ratio_in_scale.
  - apply in_range_scale. unfold Rating.validate in Hv.
    repeat (apply andb_true_iff in Hv; destruct Hv as [Hv ?]).
    assumption.
Qed.

Lemma aggregate_stays_in_scale_witness :
  exists r',
    Aggregator.findOne 1 1
      (Aggregator.updateStudentRating 9 1 1 Sample.graded_db) = Some r'
    /\ RatingInv.in_scale (Rating.grades r')
    /\ RatingInv.in_scale (Rating.homeworkCompletion r').
Proof.
  destruct (aggregate_stays_in_scale 9 1 1 Sample.graded_db
              (Rating.new 1 1 1 0) eq_refl)
    as (_ & _ & _ & _ & _ & Hyes).
  - intros hw sub q [<-|[]] [<-|[]] [= <-]. split; discriminate.
  - reflexivity.
  - destruct (Hyes eq_refl) as (r' & Hf & _ & _ & Hg & _ & _ & Hhc).
    exists r'. split; [exact Hf|]. split; [exact Hg | exact Hhc].
Defined.

(** ** What the aggregator and the resolver leave alone *)

(** X7. [updateStudentRating] writes one document at most: without a row
    for the student it leaves the store as it is; with one it creates and
    deletes no row, leaves every other row as it is, and writes to no other
    collection. *)
Theorem aggregate_touches_one_row (now : Date) (s g : ObjectId) (db : Db) :
  let db' := Aggregator.updateStudentRating now s g db in
  (Aggregator.findOne s g db = None -> db' = db)
  /\ users db' = users db /\ groups db' = groups db
  /\ homeworks db' = homeworks db /\ rewards db' = rewards db
  /\ map Rating.id (ratings db') = map Rating.id (ratings db)
  /\ (forall r j,
         Aggregator.findOne s g db = Some r -> j <> Rating.id r ->
         findById Rating.id j (ratings db') = findById Rating.id j (ratings db)).
Proof.
  cbv zeta. unfold Aggregator.updateStudentRating.
  destruct (Aggregator.findOne s g db) as [r|] eqn:Hfind.
  - destruct (Aggregator.tally s g db) as [acc total].
    unfold Aggregator.settle, Aggregator.save.
    destruct (Rating.validate (Aggregator.assign_facts acc total r)).
    + cbn [users groups homeworks rewards ratings with_ratings].
      split; [discriminate|]. repeat (split; [reflexivity|]).
      split.
      * apply put_keys. rewrite pre_save_id.
        apply find_some in Hfind. destruct Hfind as [Hin _].
        now apply (in_map Rating.id) in Hin.
      * intros r0 j [= <-] Hj. apply findById_put_other.
        now rewrite pre_save_id.
    + split; [discriminate|]. repeat split; reflexivity.
  - repeat split; intros; try reflexivity; discriminate.
Qed.

(** X8. A resolve pass of group [g] creates and deletes no row, leaves the
    rows of every other group as they are, and writes to no other
    collection. *)
Theorem resolve_touches_one_group (now : Date) (g : ObjectId) (db : Db) :
  let db' := snd (Ranking.resolve now g db) in
  users db' = users db /\ groups db' = groups db
  /\ homeworks db' = homeworks db /\ rewards db' = rewards db
  /\ map Rating.id (ratings db') = map Rating.id (ratings db)
  /\ (forall r,
         In r (ratings db) -> Rating.group r <> g ->
         NoDup (map Rating.id (ratings db)) ->
         findById Rating.id (Rating.id r) (ratings db') = Some r).
Proof.
  cbv zeta.
  destruct (saves_frame now (Ranking.assign_ranks (Ranking.find_sorted g db)) db)
    as (Hu & Hg & Hh & Hr).
  cbv zeta in Hu, Hg, Hh, Hr.
  unfold Ranking.resolve at 1 2 3 4, Ranking.save_all. cbn [snd].
  repeat (split; [assumption|]).
  split; [apply resolve_keeps_ids|].
  intros r Hin Hgr Hnd.
  rewrite resolve_other; [now apply findById_In|].
  intros Hid. apply in_map_iff in Hid. destruct Hid as (x & Hx & Hxin).
  apply find_sorted_member in Hxin. destruct Hxin as [Hxin Hxg].
  assert (x = r); [|congruence].
  pose proof (findById_In Rating.id x _ Hnd Hxin) as Hfx.
  pose proof (findById_In Rating.id r _ Hnd Hin) as Hfr.
  rewrite Hx in Hfx. congruence.
Qed.

Lemma resolve_touches_one_group_witness :
  findById Rating.id 1 (ratings (snd (Ranking.resolve 1 8 Sample.group7_db)))
  = Some Sample.row_A.
Proof.
  destruct (resolve_touches_one_group 1 8 Sample.group7_db)
    as (_ & _ & _ & _ & _ & H).
  apply (H Sample.row_A).
  - left. reflexivity.
  - discriminate.
  - cbn. repeat constructor; cbn; intuition discriminate.
Defined.
(** ** A second resolve pass *)

Section PutFacts.
Context {A : Type} (key : A -> ObjectId).

(** Saving what is stored changes nothing. *)
Lemma put_found (x : A) (c : list A) :
  findById key (key x) c = Some x -> put key x c = c.
Proof.
  induction c as [|y c IH]; [discriminate|].
  rewrite findById_cons. cbn [put].
  destruct (Nat.eqb (key y) (key x)) eqn:E.
  - now intros [= ->].
  - intros H. now rewrite IH.
Qed.

Lemma overlay_key (rows : list A) (y : A) :
  key (overlay key rows y) = key y.
Proof.
  unfold overlay. destruct (findById key (key y) rows) as [x|] eqn:E;
    [|reflexivity].
  now destruct (findById_key key _ _ _ E).
Qed.

Lemma put_as_map (x : A) (c : list A) :
  NoDup (map key c) -> In (key x) (map key c) ->
  put key x c = map (overlay key [x]) c.
Proof.
  unfold overlay.
  induction c as [|y c IH]; intros Hnd Hin; [contradiction|].
  inversion Hnd as [|? ? Hnotin Hnd']; subst.
  cbn [put map]. rewrite findById_cons.
  rewrite (Nat.eqb_sym (key x) (key y)).
  destruct (Nat.eqb (key y) (key x)) eqn:E.
  - f_equal. apply Nat.eqb_eq in E.
    rewrite <- (map_id c) at 1. apply map_ext_in. intros z Hz.
    rewrite findById_cons.
    destruct (Nat.eqb (key x) (key z)) eqn:Ez; [|reflexivity].
    apply Nat.eqb_eq in Ez. exfalso. apply Hnotin.
    rewrite E, Ez. now apply in_map.
  - cbn [findById find]. f_equal. apply IH; [exact Hnd'|].
    destruct Hin as [H|H]; [|exact H].
    apply Nat.eqb_neq in E. congruence.
Qed.

(** Saving rows with distinct keys, all of them stored already, replaces
    each stored document by the row of its key. *)
Lemma fold_put_as_map (rows c : list A) :
  NoDup (map key c) -> NoDup (map key rows) ->
  (forall x, In x rows -> In (key x) (map key c)) ->
  fold_left (fun c x => put key x c) rows c = map (overlay key rows) c.
Proof.
  revert c. induction rows as [|x rows IH]; intros c Hc Hrows Hin.
  - cbn [fold_left]. rewrite <- (map_id c) at 1. reflexivity.
  - inversion Hrows as [|? ? Hnotin Hrows']; subst.
    cbn [fold_left].
    rewrite (put_as_map x c Hc (Hin x (or_introl eq_refl))).
    assert (Hkeys : map key (map (overlay key [x]) c) = map key c).
    { rewrite map_map. apply map_ext. intros y. apply overlay_key. }
    rewrite IH; [|now rewrite Hkeys|exact Hrows'|].
    + rewrite map_map. apply map_ext. intros y.
      unfold overlay at 2 3. rewrite !findById_cons.
      cbn [findById find].
      destruct (Nat.eqb (key x) (key y)) eqn:E.
      * unfold overlay. apply findById_None in Hnotin. now rewrite Hnotin.
      * reflexivity.
    + intros z Hz. rewrite Hkeys. apply Hin. now right.
Qed.
End PutFacts.
Lemma insert_desc_map (h : Rating.t -> Rating.t) (r : Rating.t)
      (l : list Rating.t) :
  Rating.totalScore (h r) = Rating.totalScore r ->
  (forall x, In x l -> Rating.totalScore (h x) = Rating.totalScore x) ->
  Ranking.insert_desc (h r) (map h l) = map h (Ranking.insert_desc r l).
Proof.
  intros Hr. induction l as [|x l IH]; intros Hl; [reflexivity|].
  cbn [map Ranking.insert_desc].
  rewrite Hr, (Hl x (or_introl eq_refl)).
  destruct (Rating.totalScore r <? Rating.totalScore x)%Z; [|reflexivity].
  cbn [map]. f_equal. apply IH. intros y Hy. apply Hl. now right.
Qed.

Lemma sort_desc_map (h : Rating.t -> Rating.t) (l : list Rating.t) :
  (forall x, In x l -> Rating.totalScore (h x) = Rating.totalScore x) ->
  Ranking.sort_desc (map h l) = map h (Ranking.sort_desc l).
Proof.
  induction l as [|x l IH]; intros Hl; [reflexivity|].
  cbn [map Ranking.sort_desc fold_right].
  fold (Ranking.sort_desc (map h l)). fold (Ranking.sort_desc l).
  rewrite IH by (intros y Hy; apply Hl; now right).
  apply insert_desc_map; [apply Hl; now left|].
  intros y Hy. apply Hl. right.
  exact (Permutation_in _ (sort_desc_perm l) Hy).
Qed.

Lemma filter_map_in {A : Type} (f : A -> bool) (h : A -> A) (l : list A) :
  (forall x, In x l -> f (h x) = f x) ->
  filter f (map h l) = map h (filter f l).
Proof.
  induction l as [|x l IH]; intros Hl; [reflexivity|].
  cbn [map filter]. rewrite (Hl x (or_introl eq_refl)).
  rewrite IH by (intros y Hy; apply Hl; now right).
  destruct (f x); reflexivity.
Qed.

Lemma fold_put_map {A B : Type} (key : A -> ObjectId) (h : B -> A)
      (rows : list B) (c : list A) :
  fold_left (fun c r => put key (h r) c) rows c
  = fold_left (fun c x => put key x c) (map h rows) c.
Proof.
  revert c. induction rows as [|r rows IH]; intros c; [reflexivity|].
  cbn [map fold_left]. apply IH.
Qed.

Lemma fold_put_found {A : Type} (key : A -> ObjectId) (rows c : list A) :
  (forall x, In x rows -> findById key (key x) c = Some x) ->
  fold_left (fun c x => put key x c) rows c = c.
Proof.
  induction rows as [|x rows IH]; intros H; [reflexivity|].
  cbn [fold_left]. rewrite (put_found key x c) by (apply H; now left).
  apply IH. intros y Hy. apply H. now right.
Qed.

Lemma resolve_store_shape (now : Date) (g : ObjectId) (db : Db) :
  snd (Ranking.resolve now g db)
  = with_ratings (ratings (snd (Ranking.resolve now g db))) db.
Proof.
  destruct (saves_frame now (Ranking.assign_ranks (Ranking.find_sorted g db)) db)
    as (Hu & Hg & Hh & Hr).
  cbv zeta in Hu, Hg, Hh, Hr.
  unfold Ranking.resolve, Ranking.save_all. cbn [snd].
  destruct (fold_left _ _ db) as [u gs rs hs ws].
  cbn in *. subst. reflexivity.
Qed.

Lemma consistent_touch (now : Date) (k : Z) (r : Rating.t) :
  RatingInv.consistent r ->
  RatingInv.consistent (Rating.set_lastUpdated now (Rating.set_rankInGroup k r)).
Proof.
  destruct r. unfold RatingInv.consistent, Rating.weighted. hook_simpl.
  exact (fun H => H).
Qed.

Lemma forallb_by_map {A : Type} (f : A -> bool) (l l' : list A) :
  map f l = map f l' -> forallb f l = forallb f l'.
Proof.
  revert l'. induction l as [|x l IH]; intros [|y l'] H; try discriminate;
    [reflexivity|].
  cbn [map] in H. injection H as Hx Hl. cbn [forallb].
  now rewrite Hx, (IH l' Hl).
Qed.

Section SecondPass.
Variables (now : Date) (g : ObjectId) (db : Db).
Hypothesis ids_distinct : NoDup (map Rating.id (ratings db)).
Hypothesis group_consistent :
  forall r, In r (ratings db) -> Rating.group r = g -> RatingInv.consistent r.

Let sorted := Ranking.find_sorted g db.
Let ranked := Ranking.assign_ranks sorted.

(** The documents the first pass writes. *)
Let written := map (Rating.pre_save now) (filter Rating.validate ranked).

(** The row at position [n] as the first pass leaves it. *)
Let touch (n : nat) (y : Rating.t) : Rating.t :=
  if Rating.validate y
  then Rating.set_lastUpdated now (Rating.set_rankInGroup (Z.of_nat n + 1) y)
  else y.

Lemma sorted_consistent (n : nat) (y : Rating.t) :
  nth_error sorted n = Some y -> RatingInv.consistent y.
Proof.
  intros E. apply nth_error_In in E.
  apply find_sorted_member in E. destruct E as [Hin Hg].
  now apply group_consistent.
Qed.

Lemma ranked_nth (n : nat) (y : Rating.t) :
  nth_error sorted n = Some y ->
  nth_error ranked n = Some (Rating.set_rankInGroup (Z.of_nat n + 1) y).
Proof.
  intros E. unfold ranked, Ranking.assign_ranks.
  now rewrite assign_from_nth, E.
Qed.

Lemma ranked_ids_distinct : NoDup (map Rating.id ranked).
Proof.
  unfold ranked, Ranking.assign_ranks. rewrite assign_from_ids.
  now apply find_sorted_NoDup.
Qed.

Lemma written_ids :
  map Rating.id written = map Rating.id (filter Rating.validate ranked).
Proof.
  unfold written. rewrite map_map. apply map_ext. intros x. apply pre_save_id.
Qed.

Lemma written_ids_distinct : NoDup (map Rating.id written).
Proof. rewrite written_ids. apply NoDup_ids_filter, ranked_ids_distinct. Qed.

Lemma touch_saved (n : nat) (y : Rating.t) :
  nth_error sorted n = Some y -> Rating.validate y = true ->
  Rating.pre_save now (Rating.set_rankInGroup (Z.of_nat n + 1) y)
  = touch n y.
Proof.
  intros E Hv. unfold touch. rewrite Hv.
  apply consistent_fixed_point, consistent_set_rank.
  exact (sorted_consistent n y E).
Qed.

Lemma touch_keeps (n : nat) (y : Rating.t) :
  Rating.id (touch n y) = Rating.id y
  /\ Rating.group (touch n y) = Rating.group y
  /\ Rating.totalScore (touch n y) = Rating.totalScore y
  /\ Rating.validate (touch n y) = Rating.validate y.
Proof.
  unfold touch. destruct (Rating.validate y) eqn:Hv; [|now rewrite Hv].
  destruct y. repeat split. exact Hv.
Qed.

Lemma overlay_in_group (n : nat) (y : Rating.t) :
  nth_error sorted n = Some y -> overlay Rating.id written y = touch n y.
Proof.
  intros E. pose proof (ranked_nth n y E) as Hr. apply nth_error_In in Hr.
  unfold overlay.
  change (Rating.id y)
    with (Rating.id (Rating.set_rankInGroup (Z.of_nat n + 1) y)).
  destruct (Rating.validate y) eqn:Hv.
  - assert (Hin : In (Rating.pre_save now
                        (Rating.set_rankInGroup (Z.of_nat n + 1) y)) written).
    { unfold written. apply in_map. apply filter_In. split; [exact Hr|].
      now rewrite validate_set_rank. }
    rewrite <- (pre_save_id now (Rating.set_rankInGroup (Z.of_nat n + 1) y)).
    rewrite (findById_In Rating.id _ _ written_ids_distinct Hin).
    now apply touch_saved.
  - assert (Hnone : findById Rating.id
                      (Rating.id (Rating.set_rankInGroup (Z.of_nat n + 1) y))
                      written = None).
    { apply findById_None. rewrite written_ids. apply findById_None.
      rewrite (findById_filter _ _ _ ranked_ids_distinct Hr).
      now rewrite validate_set_rank, Hv. }
    rewrite Hnone. unfold touch. now rewrite Hv.
Qed.

Lemma overlay_out_of_group (y : Rating.t) :
  In y (ratings db) -> Rating.group y <> g ->
  overlay Rating.id written y = y.
Proof.
  intros Hin Hg. unfold overlay.
  assert (H : findById Rating.id (Rating.id y) written = None);
    [|now rewrite H].
  apply findById_None. rewrite written_ids.
  intros Hid. apply in_map_iff in Hid. destruct Hid as (x & Hx & Hxs).
  apply filter_In in Hxs. destruct Hxs as [Hxs _].
  apply (in_map Rating.id) in Hxs. unfold ranked, Ranking.assign_ranks in Hxs.
  rewrite assign_from_ids in Hxs. rewrite Hx in Hxs.
  apply in_map_iff in Hxs. destruct Hxs as (z & Hz & Hzs).
  apply find_sorted_member in Hzs. destruct Hzs as [Hzin Hzg].
  pose proof (findById_In Rating.id z _ ids_distinct Hzin) as Hfz.
  pose proof (findById_In Rating.id y _ ids_distinct Hin) as Hfy.
  rewrite Hz in Hfz. congruence.
Qed.

Lemma overlay_keeps (y : Rating.t) :
  In y (ratings db) ->
  Rating.group (overlay Rating.id written y) = Rating.group y
  /\ (Rating.group y = g ->
      Rating.totalScore (overlay Rating.id written y) = Rating.totalScore y).
Proof.
  intros Hin. destruct (Nat.eq_dec (Rating.group y) g) as [Hg|Hg].
  - destruct (find_sorted_position g db y Hin Hg) as [n Hn].
    rewrite (overlay_in_group n y Hn).
    destruct (touch_keeps n y) as (_ & H1 & H2 & _). now split.
  - rewrite (overlay_out_of_group y Hin Hg). now split.
Qed.

(** The store after the first pass, as a list. *)
Lemma first_pass_store :
  ratings (snd (Ranking.resolve now g db))
  = map (overlay Rating.id written) (ratings db).
Proof.
  unfold Ranking.resolve at 1, Ranking.save_all. cbn [snd].
  rewrite saves_ratings, fold_put_map.
  change (map (Rating.pre_save now)
              (filter Rating.validate
                 (Ranking.assign_ranks (Ranking.find_sorted g db))))
    with written.
  apply fold_put_as_map; [exact ids_distinct | exact written_ids_distinct|].
  intros x Hx. apply (in_map Rating.id) in Hx.
  rewrite written_ids in Hx.
  apply in_map_iff in Hx. destruct Hx as (z & <- & Hz).
  apply filter_In in Hz. destruct Hz as [Hz _].
  apply (in_map Rating.id) in Hz. unfold ranked, Ranking.assign_ranks in Hz.
  rewrite assign_from_ids in Hz.
  apply in_map_iff in Hz. destruct Hz as (y & <- & Hy).
  apply in_map. now apply find_sorted_member in Hy.
Qed.

(** The second pass loads the rows in the order of the first. *)
Lemma second_pass_sorted (n : nat) :
  nth_error (Ranking.find_sorted g (snd (Ranking.resolve now g db))) n
  = option_map (touch n) (nth_error sorted n).
Proof.
  unfold Ranking.find_sorted at 1. rewrite first_pass_store.
  rewrite filter_map_in.
  2:{ intros x Hx. now rewrite (proj1 (overlay_keeps x Hx)). }
  rewrite sort_desc_map.
  2:{ intros x Hx. apply filter_In in Hx. destruct Hx as [Hin Hg].
      apply Nat.eqb_eq in Hg. now apply overlay_keeps. }
  fold (Ranking.find_sorted g db). fold sorted.
  rewrite nth_error_map.
  destruct (nth_error sorted n) as [y|] eqn:E; [|reflexivity].
  cbn [option_map]. f_equal. now apply overlay_in_group.
Qed.

(** A row the second pass saves is stored already. *)
Lemma second_pass_saves (n : nat) (y : Rating.t) :
  nth_error sorted n = Some y -> Rating.validate y = true ->
  Rating.pre_save now (Rating.set_rankInGroup (Z.of_nat n + 1) (touch n y))
  = touch n y.
Proof.
  intros E Hv.
  assert (Hc : RatingInv.consistent (touch n y)).
  { unfold touch. rewrite Hv. apply consistent_touch.
    exact (sorted_consistent n y E). }
  rewrite (consistent_fixed_point now) by (now apply consistent_set_rank).
  unfold touch. rewrite Hv. reflexivity.
Qed.

Lemma second_pass_reply :
  fst (Ranking.resolve now g (snd (Ranking.resolve now g db)))
  = fst (Ranking.resolve now g db).
Proof.
  rewrite !resolve_reply. fold sorted.
  set (sorted1 := Ranking.find_sorted g (snd (Ranking.resolve now g db))).
  assert (Hlen : forall n, nth_error sorted1 n
                           = option_map (touch n) (nth_error sorted n))
    by apply second_pass_sorted.
  assert (Hv : forallb Rating.validate sorted1 = forallb Rating.validate sorted).
  { assert (H : map Rating.validate sorted1 = map Rating.validate sorted).
    { apply nth_error_ext. intros n. rewrite !nth_error_map, Hlen.
      destruct (nth_error sorted n) as [y|]; [|reflexivity].
      cbn [option_map]. f_equal. apply touch_keeps. }
    now apply forallb_by_map. }
  rewrite Hv. destruct (forallb Rating.validate sorted) eqn:Hall;
    [|reflexivity].
  f_equal. apply nth_error_ext. intros n.
  rewrite !returned_nth, Hlen. fold sorted.
  destruct (nth_error sorted n) as [y|] eqn:E; [|reflexivity].
  cbn [option_map]. f_equal.
  assert (Hy : Rating.validate y = true).
  { rewrite forallb_forall in Hall. apply Hall.
    eapply nth_error_In, E. }
  rewrite (second_pass_saves n y E Hy). symmetry. now apply touch_saved.
Qed.

Lemma second_pass_store :
  snd (Ranking.resolve now g (snd (Ranking.resolve now g db)))
  = snd (Ranking.resolve now g db).
Proof.
  set (db1 := snd (Ranking.resolve now g db)).
  rewrite (resolve_store_shape now g db1).
  assert (H : ratings (snd (Ranking.resolve now g db1)) = ratings db1);
    [|rewrite H; apply with_ratings_same].
  unfold Ranking.resolve at 1, Ranking.save_all. cbn [snd].
  rewrite saves_ratings, fold_put_map.
  apply fold_put_found. intros x Hx.
  apply in_map_iff in Hx. destruct Hx as (z & <- & Hz).
  apply filter_In in Hz. destruct Hz as [Hz Hzv].
  apply In_nth_error in Hz. destruct Hz as [n Hn].
  unfold Ranking.assign_ranks in Hn. rewrite assign_from_nth in Hn.
  fold db1 in Hn. unfold db1 in Hn. rewrite second_pass_sorted in Hn.
  destruct (nth_error sorted n) as [y|] eqn:E; [|discriminate].
  cbn [option_map] in Hn. injection Hn as <-.
  rewrite validate_set_rank in Hzv.
  rewrite (proj2 (proj2 (proj2 (touch_keeps n y)))) in Hzv.
  rewrite (second_pass_saves n y E Hzv).
  rewrite (proj1 (touch_keeps n y)).
  unfold db1. rewrite (resolve_lookup now g db n y ids_distinct E).
  rewrite Hzv. f_equal. now apply touch_saved.
Qed.
End SecondPass.

(** X9. On a group whose rows are all consistent a resolve pass is
    idempotent: with the clock held still, a second pass returns the rows
    of the first and leaves the store the first one left. *)
Theorem resolve_again_on_consistent_group (now : Date) (g : ObjectId)
        (db : Db) :
  NoDup (map Rating.id (ratings db)) ->
  (forall r, In r (ratings db) -> Rating.group r = g ->
             RatingInv.consistent r) ->
  Ranking.resolve now g (snd (Ranking.resolve now g db))
  = Ranking.resolve now g db.
Proof.
  intros Hnd Hcons.
  rewrite (surjective_pairing
             (Ranking.resolve now g (snd (Ranking.resolve now g db)))).
  rewrite (second_pass_reply now g db Hnd Hcons).
  rewrite (second_pass_store now g db Hnd Hcons).
  symmetry. apply surjective_pairing.
Qed.

Lemma resolve_again_on_consistent_group_witness :
  Ranking.resolve 1 7 (snd (Ranking.resolve 1 7 Sample.group7_db))
  = Ranking.resolve 1 7 Sample.group7_db.
Proof.
  apply resolve_again_on_consistent_group.
  - cbn. repeat constructor; cbn; intuition discriminate.
  - intros r [<-|[<-|[<-|[]]]] _; unfold RatingInv.consistent;
      (split; [vm_compute; reflexivity|]);
      split; intros H; vm_compute in H; discriminate H.
Defined.
(** ** The reward catalog under claims *)

Section PutMembers.
Context {A : Type} (key : A -> ObjectId).

Lemma In_put (x y : A) (c : list A) :
  In y (put key x c) -> y = x \/ In y c.
Proof.
  induction c as [|z c IH]; cbn [put].
  - intros [<-|[]]. now left.
  - destruct (Nat.eqb (key z) (key x)).
    + intros [<-|H]; [now left | right; now right].
    + intros [<-|H]; [right; now left|].
      destruct (IH H) as [->|Hin]; [now left | right; now right].
Qed.

(** Looking for the first document with a property the save does not
    change. *)
Lemma find_put (pred : A -> bool) (x old : A) (c : list A) :
  findById key (key x) c = Some old ->
  pred x = pred old ->
  forall found,
    find pred (put key x c) = Some found ->
    find pred c = Some found \/ (found = x /\ find pred c = Some old).
Proof.
  intros Hold Hpred found.
  induction c as [|z c IH]; [discriminate|].
  rewrite findById_cons in Hold. cbn [put].
  destruct (Nat.eqb (key z) (key x)) eqn:E.
  - injection Hold as ->. cbn [find]. rewrite Hpred.
    destruct (pred old); [intros [= <-]; now right | now left].
  - cbn [find]. destruct (pred z); [now left | now apply IH].
Qed.
End PutMembers.

(** What a claim request writes, with the check on the previous reward it
    has passed. *)
Lemma claim_written (now : Date) (w1 w2 : Rewards.Outcome) (db : Db)
      (tok : Auth.Token) (rewardId : ObjectId) :
  let db' := snd (Rewards.claim now w1 w2 db tok rewardId) in
  groups db' = groups db /\ ratings db' = ratings db
  /\ homeworks db' = homeworks db
  /\ (db' = db
      \/ exists user reward,
          Auth.auth db tok = inl user
          /\ findById Reward.id rewardId (rewards db) = Some reward
          /\ Reward.claimOf (User.id user) reward = None
          /\ (forall previous,
                 Rewards.findPrevious reward db = Some previous ->
                 Reward.claimOf (User.id user) previous <> None)
          /\ users db'
             = update User.id (User.id user)
                      (Rewards.debit (Reward.pointsRequired reward)) (users db)
          /\ (rewards db' = rewards db
              \/ rewards db'
                 = put Reward.id
                       (Reward.set_claimedBy
                          (Reward.claimedBy reward
                           ++ [Reward.mkClaim (User.id user) now
                                              Reward.pending]) reward)
                       (rewards db))).
Proof.
  cbv zeta. unfold Rewards.claim.
  destruct (Auth.auth db tok) as [user|[c m]] eqn:Hauth;
    [|cbn [snd]; repeat split; now left].
  destruct (negb (Auth.authorize [User.student] user));
    [cbn [snd]; repeat split; now left|].
  destruct (findById Reward.id rewardId (rewards db)) as [reward|] eqn:Hrew;
    [|cbn [snd]; repeat split; now left].
  destruct (Rewards.lt (User.points user) (Reward.pointsRequired reward));
    [cbn [snd]; repeat split; now left|].
  destruct (Reward.claimOf (User.id user) reward) eqn:Hclaimed;
    [cbn [snd]; repeat split; now left|].
  assert (Hchain :
            (match Rewards.findPrevious reward db with
             | Some previous =>
                 match Reward.claimOf (User.id user) previous with
                 | Some _ => false
                 | None => true
                 end
             | None => false
             end) = false ->
            forall previous,
              Rewards.findPrevious reward db = Some previous ->
              Reward.claimOf (User.id user) previous <> None).
  { intros H previous Hp. rewrite Hp in H.
    destruct (Reward.claimOf (User.id user) previous); [discriminate|].
    discriminate H. }
  match goal with
  | |- context [if ?b then _ else _] => destruct b eqn:Hb
  end; [cbn [snd]; repeat split; now left|].
  specialize (Hchain eq_refl).
  destruct w1; [|cbn [snd]; repeat split; now left].
  destruct w2; cbn [snd users groups ratings homeworks rewards with_users
                    with_rewards Reward.pointsRequired Reward.set_claimedBy];
    (split; [reflexivity|]); (split; [reflexivity|]);
    (split; [reflexivity|]); right; exists user, reward;
    repeat (split; [solve [auto]|]).
  - now right.
  - now left.
Qed.

Lemma claimOf_None (uid : ObjectId) (r : Reward.t) :
  Reward.claimOf uid r = None ->
  ~ In uid (map Reward.student (Reward.claimedBy r)).
Proof.
  unfold Reward.claimOf. intros Hnone Hin.
  apply in_map_iff in Hin. destruct Hin as (c & Hc & Hin).
  pose proof (find_none _ _ Hnone c Hin) as H. cbn beta in H.
  rewrite Hc, Nat.eqb_refl in H. discriminate H.
Qed.

Lemma find_appended {A : Type} (f : A -> bool) (l l' : list A) :
  find f (l ++ l') = match find f l with
                     | Some x => Some x
                     | None => find f l'
                     end.
Proof.
  induction l as [|x l IH]; [reflexivity|].
  cbn [app find]. destruct (f x); [reflexivity | exact IH].
Qed.

Lemma claimOf_appended (u uid : ObjectId) (now : Date) (r : Reward.t) :
  let r' := Reward.set_claimedBy
              (Reward.claimedBy r ++ [Reward.mkClaim uid now Reward.pending])
              r in
  (Reward.claimOf u r <> None -> Reward.claimOf u r' <> None)
  /\ (Reward.claimOf u r' <> None -> u = uid \/ Reward.claimOf u r <> None).
Proof.
  cbv zeta. unfold Reward.claimOf. cbn [Reward.claimedBy Reward.set_claimedBy].
  rewrite find_appended.
  destruct (find _ (Reward.claimedBy r)) as [c|].
  - split; intros _; [discriminate | right; discriminate].
  - cbn [find Reward.student]. split; [intros H; now contradiction H|].
    destruct (Nat.eqb uid u) eqn:E; [|intros H; now contradiction H].
    apply Nat.eqb_eq in E. now left.
Qed.

(** X10. A claim request, whoever sends it and whatever the store answers,
    keeps the catalog free of double claims: if no reward carries two claim
    records of one student before, none does after. *)
Theorem claim_keeps_one_claim_each
        (now : Date) (w1 w2 : Rewards.Outcome) (db : Db) (tok : Auth.Token)
        (rewardId : ObjectId) :
  RewardInv.one_claim_each db ->
  RewardInv.one_claim_each (snd (Rewards.claim now w1 w2 db tok rewardId)).
Proof.
  intros Hinv.
  destruct (claim_written now w1 w2 db tok rewardId)
    as (_ & _ & _ & [-> | (user & reward & _ & Hfind & Hnone & _ & _ & Hrew)]);
    [exact Hinv|].
  intros r Hr. destruct Hrew as [Hrew | Hrew]; rewrite Hrew in Hr;
    [now apply Hinv|].
  destruct (In_put Reward.id _ _ _ Hr) as [-> | Hin]; [|now apply Hinv].
  cbn [Reward.claimedBy Reward.set_claimedBy].
  rewrite map_app. cbn [map Reward.student].
  destruct (findById_key Reward.id _ _ _ Hfind) as [_ Hin].
  apply NoDup_app_remove_l with (l := []). cbn [app].
  apply Permutation_NoDup with (l := User.id user
                                      :: map Reward.student
                                           (Reward.claimedBy reward)).
  - apply Permutation_cons_append.
  - constructor; [now apply claimOf_None | now apply Hinv].
Qed.

Lemma claim_keeps_one_claim_each_witness :
  RewardInv.one_claim_each
    (snd (Rewards.claim 5 Rewards.Acked Rewards.Acked Sample.chain_db
                        (Auth.Bearer 11) 1)).
Proof.
  apply claim_keeps_one_claim_each.
  intros r [<-|[<-|[]]]; constructor.
Defined.

(** X11. A claim request keeps the unlock chain: if every holder of a
    claim on a reward holds one on its previous reward before the request,
    so it is after, whoever sends the request and whatever the store
    answers. *)
Theorem claim_keeps_chain
        (now : Date) (w1 w2 : Rewards.Outcome) (db : Db) (tok : Auth.Token)
        (rewardId : ObjectId) :
  RewardInv.chain_respected db ->
  RewardInv.chain_respected (snd (Rewards.claim now w1 w2 db tok rewardId)).
Proof.
  intros Hinv.
  destruct (claim_written now w1 w2 db tok rewardId)
    as (_ & _ & _ & [-> | (user & reward & _ & Hfind & Hnone & Hchain & _
                          & Hrew)]);
    [exact Hinv|].
  set (db' := snd (Rewards.claim now w1 w2 db tok rewardId)) in *.
  destruct Hrew as [Hrew | Hrew].
  - intros r u previous Hr Hu Hp.
    unfold Rewards.findPrevious in Hp. rewrite Hrew in Hr, Hp.
    exact (Hinv r u previous Hr Hu Hp).
  - destruct (findById_key Reward.id _ _ _ Hfind) as [Hid Hin].
    set (reward' := Reward.set_claimedBy
                      (Reward.claimedBy reward
                       ++ [Reward.mkClaim (User.id user) now Reward.pending])
                      reward) in *.
    assert (Hkey : findById Reward.id (Reward.id reward') (rewards db)
                   = Some reward).
    { change (Reward.id reward') with (Reward.id reward). now rewrite Hid. }
    intros r u previous Hr Hu Hp.
    unfold Rewards.findPrevious in Hp. rewrite Hrew in Hr, Hp.
    destruct (find_put Reward.id
                (fun r0 => Qeq_bool (Reward.order r0) (Reward.order r - 1)
                           && Reward.isActive r0)
                reward' reward (rewards db) Hkey eq_refl previous Hp)
      as [Hsame | [-> Hwas]].
    + (* the previous reward is an unchanged document *)
      destruct (In_put Reward.id _ _ _ Hr) as [-> | Hrin].
      * destruct (proj2 (claimOf_appended u (User.id user) now reward) Hu)
          as [-> | Hheld].
        -- apply Hchain. exact Hsame.
        -- exact (Hinv reward u previous Hin Hheld Hsame).
      * exact (Hinv r u previous Hrin Hu Hsame).
    + (* the previous reward is the one just claimed *)
      apply (proj1 (claimOf_appended u (User.id user) now reward)).
      destruct (In_put Reward.id _ _ _ Hr) as [-> | Hrin].
      * exfalso.
        destruct (findPrevious_Some reward reward db Hwas) as (_ & Hord & _).
        lra.
      * exact (Hinv r u reward Hrin Hu Hwas).
Qed.

Lemma claim_keeps_chain_witness :
  RewardInv.chain_respected
    (snd (Rewards.claim 5 Rewards.Acked Rewards.Acked Sample.chain_db
                        (Auth.Bearer 11) 1)).
Proof.
  apply claim_keeps_chain.
  intros r u previous [<-|[<-|[]]] Hu; now contradiction Hu.
Defined.

Lemma set_claimedBy_nil (r : Reward.t) :
  Reward.set_claimedBy (Reward.claimedBy r ++ []) r = r.
Proof. destruct r. cbn. now rewrite app_nil_r. Qed.

(** X12. A claim request writes to the caller's user document and to the
    claimed reward only: groups, ratings and homework are not written, every
    other user document is as it was, and every reward is still in the
    catalog under its id with the claim records it had, in their order,
    followed by at most the new one. *)
Theorem claim_appends_only
        (now : Date) (w1 w2 : Rewards.Outcome) (db : Db) (tok : Auth.Token)
        (rewardId : ObjectId) :
  let db' := snd (Rewards.claim now w1 w2 db tok rewardId) in
  groups db' = groups db /\ ratings db' = ratings db
  /\ homeworks db' = homeworks db
  /\ (forall j,
         (forall u, Auth.auth db tok = inl u -> j <> User.id u) ->
         findById User.id j (users db') = findById User.id j (users db))
  /\ (forall i r,
         findById Reward.id i (rewards db) = Some r ->
         exists more,
           findById Reward.id i (rewards db')
           = Some (Reward.set_claimedBy (Reward.claimedBy r ++ more) r)
           /\ (more = []
               \/ exists uid, more = [Reward.mkClaim uid now Reward.pending])).
Proof.
  cbv zeta.
  destruct (claim_written now w1 w2 db tok rewardId)
    as (Hg & Hr & Hh & Hcases).
  cbv zeta in Hg, Hr, Hh, Hcases.
  repeat (split; [assumption|]).
  destruct Hcases
    as [-> | (user & reward & Hauth & Hfind & _ & _ & Husers & Hrew)].
  - split; [reflexivity|]. intros i r Hi. exists [].
    rewrite set_claimedBy_nil. split; [exact Hi | now left].
  - split.
    + intros j Hj. rewrite Husers.
      apply (findById_update_other User.id _ (debit_id _)).
      now apply Hj.
    + intros i r Hi. destruct Hrew as [-> | ->].
      * exists []. rewrite set_claimedBy_nil. split; [exact Hi | now left].
      * destruct (findById_key Reward.id _ _ _ Hfind) as [Hid _].
        destruct (Nat.eq_dec i rewardId) as [-> | Hne].
        -- rewrite Hfind in Hi. injection Hi as <-.
           eexists. split; [|right; eexists; reflexivity].
           rewrite <- Hid at 1.
           apply (findById_put_same Reward.id (Reward.set_claimedBy _ reward)).
        -- exists []. rewrite set_claimedBy_nil. split; [|now left].
           rewrite findById_put_other; [exact Hi|].
           cbn [Reward.id Reward.set_claimedBy]. congruence.
Qed.



(** ** The reward list and the claim route *)

Lemma insert_asc_perm (r : Reward.t) (l : list Reward.t) :
  Permutation (RewardsList.insert_asc r l) (r :: l).
Proof.
  induction l as [|x l IH]; cbn [RewardsList.insert_asc].
  - apply Permutation_refl.
  - destruct (Rewards.lt (Reward.order x) (Reward.order r)).
    + eapply perm_trans; [apply perm_skip, IH | apply perm_swap].
    + apply Permutation_refl.
Qed.

Lemma sort_asc_perm (l : list Reward.t) :
  Permutation (RewardsList.sort_asc l) l.
Proof.
  induction l as [|x l IH]; [apply perm_nil|].
  cbn [RewardsList.sort_asc fold_right].
  eapply perm_trans; [apply insert_asc_perm | apply perm_skip, IH].
Qed.

(** X14. What the list tells a student and what the claim route does.
    The list shows the active rewards, each once, and no other.  A reward
    listed with [canClaim] is either granted or refused with "Must claim
    previous rewards first" ([canClaim] does not look at the unlock chain);
    a reward listed without it is refused with "Insufficient points" or
    "Reward already claimed". *)
Theorem list_canClaim_and_claim
        (now : Date) (db : Db) (tok : Auth.Token) (user : User.t)
        (views : list RewardsList.View) (pts : Q) :
  NoDup (map Reward.id (rewards db)) ->
  Auth.auth db tok = inl user ->
  RewardsList.list db tok = Success (RewardsList.ForStudent views pts) ->
  pts = User.points user
  /\ Permutation (map RewardsList.reward views)
                 (filter Reward.isActive (rewards db))
  /\ forall v,
      In v views ->
      let reply :=
        fst (Rewards.claim now Rewards.Acked Rewards.Acked db tok
                           (Reward.id (RewardsList.reward v))) in
      (RewardsList.canClaim v = true ->
       reply = Success "Reward claimed successfully"%string
       \/ reply = Failure 400 "Must claim previous rewards first")
      /\ (RewardsList.canClaim v = false ->
          reply = Failure 400 "Insufficient points"
          \/ reply = Failure 400 "Reward already claimed").
Proof.
  intros Hnd Hauth Hlist.
  unfold RewardsList.list in Hlist. rewrite Hauth in Hlist.
  destruct (User.Role_eqb (User.role user) User.student) eqn:Hrole;
    [|discriminate].
  injection Hlist as <- <-.
  split; [reflexivity|]. split.
  - rewrite map_map. cbn [RewardsList.view RewardsList.reward].
    rewrite map_id. apply sort_asc_perm.
  - intros v Hv. apply in_map_iff in Hv. destruct Hv as (r & <- & Hr).
    apply (Permutation_in _ (sort_asc_perm _)) in Hr.
    apply filter_In in Hr. destruct Hr as [Hin _].
    pose proof (findById_In Reward.id r _ Hnd Hin) as Hfind.
    cbv zeta. cbn [RewardsList.view RewardsList.reward RewardsList.canClaim].
    unfold Rewards.claim, Auth.authorize. rewrite Hauth.
    cbn [existsb]. rewrite Hrole. cbn [orb negb]. rewrite Hfind.
    unfold Rewards.lt.
    destruct (Qle_bool (Reward.pointsRequired r) (User.points user));
      cbn [negb andb].
    + destruct (Reward.claimOf (User.id user) r).
      * split; [discriminate | intros _; now right].
      * split; [|discriminate]. intros _.
        destruct (Rewards.findPrevious r db) as [previous|];
          [|now left].
        destruct (Reward.claimOf (User.id user) previous);
          [now left | now right].
    + split; [discriminate | intros _; now left].
Qed.

(** With 100 points and no claims student 11 is shown both rewards with
    [canClaim], and is refused the second one. *)
Lemma list_canClaim_and_claim_witness :
  exists v,
    RewardsList.reward v = Sample.reward_2
    /\ RewardsList.canClaim v = true
    /\ (fst (Rewards.claim 5 Rewards.Acked Rewards.Acked Sample.chain_db
                           (Auth.Bearer 11) 2)
        = Success "Reward claimed successfully"%string
        \/ fst (Rewards.claim 5 Rewards.Acked Rewards.Acked Sample.chain_db
                              (Auth.Bearer 11) 2)
           = Failure 400 "Must claim previous rewards first").
Proof.
  assert (Hnd : NoDup (map Reward.id (rewards Sample.chain_db))).
  { cbn. repeat constructor; cbn; intuition discriminate. }
  destruct (list_canClaim_and_claim 5 Sample.chain_db (Auth.Bearer 11)
              Sample.rich_student
              (map (RewardsList.view Sample.rich_student)
                   [Sample.reward_1 true; Sample.reward_2])
              100 Hnd eq_refl eq_refl) as (_ & _ & H).
  exists (RewardsList.view Sample.rich_student Sample.reward_2).
  split; [reflexivity|]. split; [reflexivity|].
  apply (H (RewardsList.view Sample.rich_student Sample.reward_2)).
  - right. left. reflexivity.
  - reflexivity.
Defined.

(** ** The bonus-task list and the completion route *)

Lemma existsb_false_find {A : Type} (f : A -> bool) (l : list A) :
  existsb f l = false -> find f l = None.
Proof.
  induction l as [|x l IH]; [reflexivity|].
  cbn [existsb find]. destruct (f x); [discriminate | exact IH].
Qed.



(** ** How many tasks a student can complete *)

Lemma clean_length (user : User.t) :
  BonusInv.clean user ->
  (List.length (User.completedBonusTasks user) <= 8)%nat.
Proof.
  intros [Hnd Hin].
  rewrite <- (length_map User.taskId).
  change 8%nat
    with (List.length (map BonusTasks.id BonusTasks.bonusTasksData)).
  apply NoDup_incl_length; [exact Hnd|].
  intros z Hz. apply in_map_iff in Hz. destruct Hz as (ct & <- & Hct).
  now apply Hin.
Qed.

Lemma milestone_title (now : Date) (k : nat) (a : User.Achievement) :
  BonusTasks.milestone now k = Some a -> (k <= 8)%nat ->
  User.title a <> "Bonus ustasi"%string.
Proof.
  unfold BonusTasks.milestone. intros H Hk.
  destruct (Nat.eqb k 1); [injection H as <-; discriminate|].
  destruct (Nat.eqb k 5); [injection H as <-; discriminate|].
  destruct (Nat.eqb k 10) eqn:E; [|discriminate].
  apply Nat.eqb_eq in E. lia.
Qed.

Lemma step_user_clean (uid : ObjectId) (db : Db) (op : Ledger.Op)
      (user : User.t) :
  Auth.auth db (Auth.Bearer uid) = inl user ->
  BonusInv.clean user ->
  exists user',
    Auth.auth (Ledger.step uid db op) (Auth.Bearer uid) = inl user'
    /\ BonusInv.clean user'
    /\ exists more,
        User.achievements user' = User.achievements user ++ more
        /\ Forall (fun a => User.title a <> "Bonus ustasi"%string) more.
Proof.
  intros Hauth Hclean.
  destruct op as [now taskId proof notes | now w1 w2 rewardId];
    cbn [Ledger.step].
  - destruct (BonusTasks.complete now db (Auth.Bearer uid) taskId proof notes)
      as [resp db'] eqn:E. cbn [snd].
    destruct (complete_effect _ _ _ _ _ _ _ _ E)
      as [[-> _] | (u & task & Hu & Htask & Hnew & -> & _)].
    + exists user. split; [exact Hauth|]. split; [exact Hclean|].
      exists []. split; [now rewrite app_nil_r | constructor].
    + rewrite Hauth in Hu. injection Hu as <-.
      destruct (record_completion_spec now taskId task proof notes user)
        as (Hid & _ & Hact & _ & Hrec & Hach).
      set (user' := BonusTasks.record_completion now taskId task proof notes
                                                 user) in *.
      assert (Hclean' : BonusInv.clean user').
      { destruct Hclean as [Hnd Hin]. unfold BonusInv.clean. rewrite Hrec.
        split.
        - rewrite map_app. cbn [map User.taskId].
          apply NoDup_app_remove_l with (l := []). cbn [app].
          eapply Permutation_NoDup; [apply Permutation_cons_append|].
          constructor; [|exact Hnd].
          intros Hz. apply in_map_iff in Hz. destruct Hz as (ct & Hct & Hctin).
          pose proof (existsb_false_find _ _ Hnew) as Hnone.
          pose proof (find_none _ _ Hnone ct Hctin) as Hf. cbn beta in Hf.
          rewrite Hct, Z.eqb_refl in Hf. discriminate Hf.
        - intros ct Hct. apply in_app_or in Hct.
          destruct Hct as [Hct | [<- | []]]; [now apply Hin|].
          cbn [User.taskId]. apply find_some in Htask.
          destruct Htask as [Htin Heq]. apply Z.eqb_eq in Heq. rewrite <- Heq.
          now apply in_map. }
      exists user'. split.
      * now apply (auth_after_completion db uid user user').
      * split; [exact Hclean'|]. eexists. split; [exact Hach|].
        pose proof (clean_length user' Hclean') as Hlen.
        rewrite Hrec, length_app, Nat.add_1_r in Hlen.
        destruct (BonusTasks.milestone now
                    (S (List.length (User.completedBonusTasks user))))
          as [a|] eqn:Em; [|constructor].
        constructor; [|constructor].
        exact (milestone_title now _ a Em Hlen).
  - destruct (Rewards.claim now w1 w2 db (Auth.Bearer uid) rewardId)
      as [resp db'] eqn:E. cbn [snd].
    destruct (claim_effect _ _ _ _ _ _ _ _ E)
      as [[-> _] | (u & reward & Hu & _ & _ & _ & _ & Husers & _)].
    + exists user. split; [exact Hauth|]. split; [exact Hclean|].
      exists []. split; [now rewrite app_nil_r | constructor].
    + rewrite Hauth in Hu. injection Hu as <-.
      destruct (auth_user _ _ _ Hauth) as (Htok & Hfind & Hact).
      injection Htok as Huid.
      exists (Rewards.debit (Reward.pointsRequired reward) user).
      split; [|split; [exact Hclean|]].
      * apply auth_bearer. split; [|exact Hact].
        rewrite Husers, Huid.
        rewrite (findById_update_same User.id _ (debit_id _)).
        now rewrite Hfind.
      * exists []. split; [now rewrite app_nil_r | constructor].
Qed.

(** X16. No student gets past eight completed tasks, so the achievement
    for ten is out of reach: over any sequence of bonus-task and
    reward-claim requests of a student whose completed tasks are tasks of
    the table, each once (true of a new student), the records stay so,
    their number never exceeds 8, and no achievement titled "Bonus ustasi"
    is ever added. *)
Theorem ten_tasks_out_of_reach
        (uid : ObjectId) (ops : list Ledger.Op) (db : Db) (user : User.t) :
  Auth.auth db (Auth.Bearer uid) = inl user ->
  BonusInv.clean user ->
  exists user',
    findById User.id uid (users (Ledger.run uid db ops)) = Some user'
    /\ BonusInv.clean user'
    /\ (List.length (User.completedBonusTasks user') <= 8)%nat
    /\ exists more,
        User.achievements user' = User.achievements user ++ more
        /\ Forall (fun a => User.title a <> "Bonus ustasi"%string) more.
Proof.
  revert db user. induction ops as [|op ops IH]; intros db user Hauth Hclean.
  - exists user. apply auth_bearer in Hauth. destruct Hauth as [Hfind _].
    split; [exact Hfind|]. split; [exact Hclean|].
    split; [now apply clean_length|].
    exists []. split; [now rewrite app_nil_r | constructor].
  - destruct (step_user_clean uid db op user Hauth Hclean)
      as (user1 & Hauth1 & Hclean1 & more1 & Hmore1 & Hall1).
    unfold Ledger.run. cbn [fold_left].
    destruct (IH _ user1 Hauth1 Hclean1)
      as (user' & Hfind & Hclean' & Hlen & more & Hmore & Hall).
    exists user'. repeat (split; [assumption|]).
    exists (more1 ++ more). split.
    + now rewrite Hmore, Hmore1, app_assoc.
    + now apply Forall_app.
Qed.

Lemma ten_tasks_out_of_reach_witness :
  exists user',
    findById User.id 11
      (users (Ledger.run 11 Sample.group7_db Sample.seven_calls)) = Some user'
    /\ (List.length (User.completedBonusTasks user') <= 8)%nat.
Proof.
  destruct (ten_tasks_out_of_reach 11 Sample.seven_calls Sample.group7_db
              (Sample.student_of 11) eq_refl)
    as (user' & Hfind & _ & Hlen & _).
  - split; [constructor | intros ct []].
  - exists user'. now split.
Defined.

(** ** The leaderboard *)

Lemma board_insert_perm (u : User.t) (l : list User.t) :
  Permutation (Leaderboard.insert_desc u l) (u :: l).
Proof.
  induction l as [|x l IH]; cbn [Leaderboard.insert_desc]; [reflexivity|].
  destruct (Rewards.lt (User.points u) (User.points x)); [|reflexivity].
  rewrite IH. apply perm_swap.
Qed.

Lemma board_sort_perm (l : list User.t) :
  Permutation (Leaderboard.sort_desc l) l.
Proof.
  induction l as [|x l IH]; cbn [Leaderboard.sort_desc fold_right];
    [reflexivity|].
  fold (Leaderboard.sort_desc l). rewrite board_insert_perm.
  now constructor.
Qed.

Lemma board_insert_sorted (u : User.t) (l : list User.t) :
  StronglySorted (fun a b => User.points b <= User.points a) l ->
  StronglySorted (fun a b => User.points b <= User.points a)
                 (Leaderboard.insert_desc u l).
Proof.
  induction 1 as [|x l Hs IH Hall]; cbn [Leaderboard.insert_desc].
  - repeat constructor.
  - destruct (Rewards.lt (User.points u) (User.points x)) eqn:E.
    + apply lt_spec in E. constructor; [exact IH|].
      apply (Permutation_Forall (Permutation_sym (board_insert_perm u l))).
      constructor; [now apply Qlt_le_weak | exact Hall].
    + apply lt_false in E. constructor; [now constructor|].
      constructor; [exact E|].
      eapply Forall_impl; [|exact Hall].
      intros b Hb. cbn beta in *. now apply Qle_trans with (User.points x).
Qed.

Lemma board_sort_sorted (l : list User.t) :
  StronglySorted (fun a b => User.points b <= User.points a)
                 (Leaderboard.sort_desc l).
Proof.
  induction l as [|x l IH]; cbn [Leaderboard.sort_desc fold_right];
    [constructor|].
  now apply board_insert_sorted.
Qed.

Lemma entries_from_nth (i : Z) (l : list User.t) (n : nat) :
  nth_error (Leaderboard.entries_from i l) n
  = option_map
      (fun user =>
         Leaderboard.mkEntry
           (i + Z.of_nat n + 1)
           (if Js.truthy (User.points user) then User.points user else 0)
           (List.length (User.completedBonusTasks user)))
      (nth_error l n).
Proof.
  revert i n. induction l as [|x l IH]; intros i n.
  - now destruct n.
  - destruct n as [|n]; cbn [Leaderboard.entries_from nth_error option_map].
    + do 2 f_equal. lia.
    + rewrite IH. destruct (nth_error l n); [|reflexivity].
      cbn [option_map]. do 2 f_equal. lia.
Qed.

Lemma entries_from_length (i : Z) (l : list User.t) :
  List.length (Leaderboard.entries_from i l) = List.length l.
Proof.
  revert i. induction l as [|x l IH]; intros i; [reflexivity|].
  cbn [Leaderboard.entries_from List.length]. now rewrite IH.
Qed.

Lemma filter_length_perm {A} (f : A -> bool) (l l' : list A) :
  Permutation l l' ->
  List.length (filter f l) = List.length (filter f l').
Proof.
  induction 1 as [|x l l' _ IH|x y l|l l' l'' _ IH1 _ IH2];
    cbn [filter]; [reflexivity|..].
  - destruct (f x); cbn [List.length]; now rewrite IH.
  - now destruct (f x), (f y).
  - now rewrite IH1.
Qed.

Lemma filter_none {A} (f : A -> bool) (l : list A) :
  (forall x, In x l -> f x = false) -> filter f l = [].
Proof.
  induction l as [|x l IH]; intros H; [reflexivity|].
  cbn [filter]. rewrite (H x (or_introl eq_refl)).
  apply IH. intros y Hy. apply H. now right.
Qed.

Lemma filter_twice {A} (f g : A -> bool) (l : list A) :
  filter g (filter f l) = filter (fun x => f x && g x) l.
Proof.
  induction l as [|x l IH]; [reflexivity|].
  cbn [filter]. destruct (f x); cbn [filter andb]; now rewrite IH.
Qed.

(** In a list sorted by falling points, at most [n] users have more
    points than the user at position [n]. *)
Lemma sorted_ahead (l : list User.t) (n : nat) (u : User.t) :
  StronglySorted (fun a b => User.points b <= User.points a) l ->
  nth_error l n = Some u ->
  (List.length (filter (fun v => Rewards.lt (User.points u) (User.points v)) l)
   <= n)%nat.
Proof.
  intros Hs. revert n. induction Hs as [|x l Hs IH Hall]; intros n Hn.
  - now destruct n.
  - destruct n as [|n]; cbn [nth_error] in Hn.
    + injection Hn as ->. cbn [filter].
      assert (E : Rewards.lt (User.points u) (User.points u) = false)
        by (apply lt_false, Qle_refl).
      rewrite E.
      rewrite filter_none; [reflexivity|].
      intros v Hv. rewrite Forall_forall in Hall. apply lt_false.
      now apply Hall.
    + specialize (IH n Hn). cbn [filter].
      destruct (Rewards.lt (User.points u) (User.points x));
        cbn [List.length]; lia.
Qed.

Lemma sorted_nth_le (l : list User.t) (n m : nat) (u v : User.t) :
  StronglySorted (fun a b => User.points b <= User.points a) l ->
  (n <= m)%nat -> nth_error l n = Some u -> nth_error l m = Some v ->
  User.points v <= User.points u.
Proof.
  intros Hs. revert n m. induction Hs as [|x l Hs IH Hall]; intros n m Hnm.
  - now destruct n.
  - destruct n as [|n], m as [|m]; cbn [nth_error]; try lia.
    + intros [= ->] [= ->]. apply Qle_refl.
    + intros [= ->] Hv. rewrite Forall_forall in Hall.
      apply Hall. eapply nth_error_In, Hv.
    + apply IH. lia.
Qed.

Lemma truthy_value (p : Q) : (if Js.truthy p then p else 0) == p.
Proof.
  unfold Js.truthy. destruct (Qeq_bool p 0) eqn:E; cbn [negb];
    [|reflexivity].
  apply Qeq_bool_iff in E. now symmetry.
Qed.

Lemma ahead_value (p q : Q) (db : Db) :
  p == q -> Leaderboard.ahead p db = Leaderboard.ahead q db.
Proof.
  intros H. unfold Leaderboard.ahead. apply filter_ext. intros u.
  f_equal. apply eq_true_iff_eq. rewrite !lt_spec. now rewrite H.
Qed.

Lemma top_nth (db : Db) (n : nat) (u : User.t) :
  nth_error (Leaderboard.top db) n = Some u ->
  nth_error
    (Leaderboard.sort_desc
       (filter (fun u => User.Role_eqb (User.role u) User.student)
               (users db))) n = Some u.
Proof.
  unfold Leaderboard.top. rewrite nth_error_firstn.
  now destruct (n <? 10)%nat.
Qed.

(** X17. GET /api/bonus-tasks/leaderboard, for any signed-in user: the
    board lists students of the store, ten at most and all of them when
    there are fewer; the entry at position n has rank n + 1 and the
    points and the task count of its student; points never rise down the
    board; and at most n students of the store have more points than the
    entry at position n, so nobody left out has more points than anybody
    listed when the board is full. *)
Theorem leaderboard_is_the_top_ten (db : Db) (tok : Auth.Token)
        (user : User.t) :
  Auth.auth db tok = inl user ->
  exists board,
    Leaderboard.leaderboard db tok = Success board
    /\ List.length board
       = Nat.min 10
           (List.length
              (filter (fun u => User.Role_eqb (User.role u) User.student)
                      (users db)))
    /\ (forall n e,
           nth_error board n = Some e ->
           Leaderboard.rank e = (Z.of_nat n + 1)%Z
           /\ (exists u,
                  In u (users db) /\ User.role u = User.student
                  /\ Leaderboard.points e == User.points u
                  /\ Leaderboard.completedTasks e
                     = List.length (User.completedBonusTasks u))
           /\ (List.length (Leaderboard.ahead (Leaderboard.points e) db)
               <= n)%nat)
    /\ (forall n m e e',
           (n <= m)%nat ->
           nth_error board n = Some e -> nth_error board m = Some e' ->
           Leaderboard.points e' <= Leaderboard.points e).
Proof.
  intros Hauth. unfold Leaderboard.leaderboard. rewrite Hauth.
  eexists. split; [reflexivity|].
  set (students := filter (fun u => User.Role_eqb (User.role u) User.student)
                          (users db)).
  pose proof (board_sort_perm students) as Hperm.
  pose proof (board_sort_sorted students) as Hsorted.
  split; [|split].
  - rewrite entries_from_length. unfold Leaderboard.top. fold students.
    rewrite length_firstn. now rewrite (Permutation_length Hperm).
  - intros n e Hn. rewrite entries_from_nth in Hn.
    destruct (nth_error (Leaderboard.top db) n) as [u|] eqn:Hu;
      [|discriminate]. injection Hn as <-.
    apply top_nth in Hu. fold students in Hu.
    cbn [Leaderboard.rank Leaderboard.points Leaderboard.completedTasks].
    split; [lia|]. split.
    + exists u.
      assert (Hin : In u students).
      { apply (Permutation_in _ Hperm). eapply nth_error_In, Hu. }
      apply filter_In in Hin. destruct Hin as [Hin Hrole].
      split; [exact Hin|]. split; [now destruct (User.role u)|].
      split; [apply truthy_value | reflexivity].
    + rewrite (ahead_value _ _ db (truthy_value (User.points u))).
      pose proof (sorted_ahead _ n u Hsorted Hu) as Hle.
      rewrite (filter_length_perm _ _ _ Hperm) in Hle.
      unfold Leaderboard.ahead. unfold students in Hle.
      now rewrite filter_twice in Hle.
  - intros n m e e' Hnm Hn Hm. rewrite entries_from_nth in Hn, Hm.
    destruct (nth_error (Leaderboard.top db) n) as [u|] eqn:Hu;
      [|discriminate]. injection Hn as <-.
    destruct (nth_error (Leaderboard.top db) m) as [v|] eqn:Hv;
      [|discriminate]. injection Hm as <-.
    apply top_nth in Hu, Hv. cbn [Leaderboard.points].
    rewrite !truthy_value.
    exact (sorted_nth_le _ n m u v Hsorted Hnm Hu Hv).
Qed.

Lemma leaderboard_is_the_top_ten_witness :
  exists board,
    Leaderboard.leaderboard Sample.group7_db (Auth.Bearer 20) = Success board
    /\ List.length board = 3%nat.
Proof.
  destruct (leaderboard_is_the_top_ten Sample.group7_db (Auth.Bearer 20)
              Sample.teacher_T eq_refl) as (board & Hb & Hlen & _).
  exists board. split; [exact Hb | exact Hlen].
Defined.

(** ** The reply of GET /api/ratings/student/:studentId *)

Lemma find_current_find (db : Db) (studentId : ObjectId)
      (rows : list Rating.t) (cur : option Rating.t) :
  RatingRoutes.find_current db studentId rows = Some cur ->
  cur = find (fun r => Nat.eqb (Rating.student r) studentId) rows.
Proof.
  induction rows as [|r rows IH]; cbn [RatingRoutes.find_current find].
  - now intros [= <-].
  - destruct (findById User.id (Rating.student r) (users db)) as [u|] eqn:Hu;
      [|discriminate].
    destruct (findById_key User.id _ _ _ Hu) as [-> _].
    destruct (Nat.eqb (Rating.student r) studentId); [|exact IH].
    now intros [= <-].
Qed.

Lemma find_sorted_group (g : ObjectId) (db : Db) (n : nat) (r : Rating.t) :
  nth_error (Ranking.find_sorted g db) n = Some r -> Rating.group r = g.
Proof.
  intros Hn. apply nth_error_In in Hn.
  apply (Permutation_in _ (find_sorted_perm g db)) in Hn.
  apply filter_In in Hn. now apply Nat.eqb_eq.
Qed.

(** X18. A successful reply of GET /api/ratings/student/:studentId goes
    to a signed-in user who, if a student, is the student asked for and,
    if a parent, has the student among the children; it carries the
    ranking of the student's own group as the resolver returns it, and
    its [rating] is a row of that ranking: the student's row in the
    group, with the rank of its place in the list. *)
Theorem student_reply_holds_own_row
        (now : Date) (db db' : Db) (tok : Auth.Token) (studentId : ObjectId)
        (data : RatingRoutes.StudentRating) :
  RatingRoutes.get_student now db tok studentId = (Success data, db') ->
  exists user student g r n,
    Auth.auth db tok = inl user
    /\ (User.role user = User.student -> User.id user = studentId)
    /\ (User.role user = User.parent -> In studentId (User.children user))
    /\ findById User.id studentId (users db) = Some student
    /\ User.group student = Some g
    /\ Ranking.resolve now g db
       = (Some (RatingRoutes.groupRankings data), db')
    /\ RatingRoutes.rating data = Some r
    /\ Rating.student r = studentId /\ Rating.group r = g
    /\ nth_error (RatingRoutes.groupRankings data) n = Some r
    /\ Rating.rankInGroup r = (Z.of_nat n + 1)%Z.
Proof.
  unfold RatingRoutes.get_student. intros H.
  destruct (Auth.auth db tok) as [user|[code msg]] eqn:Hauth;
    [|discriminate H].
  destruct (User.Role_eqb (User.role user) User.student
            && negb (Nat.eqb (User.id user) studentId)) eqn:E1;
    [discriminate H|].
  destruct (User.Role_eqb (User.role user) User.parent
            && negb (existsb (fun child => Nat.eqb child studentId)
                             (User.children user))) eqn:E2;
    [discriminate H|].
  destruct (findById User.id studentId (users db)) as [student|] eqn:Hstudent;
    [|discriminate H].
  destruct (RatingRoutes.populated_group db student) as [g|] eqn:Hg;
    [|discriminate H].
  destruct (Aggregator.findOne studentId g db) as [row|] eqn:Hrow;
    [|discriminate H].
  destruct (Ranking.resolve now g db) as [[rows|] db1] eqn:Hres;
    [|discriminate H].
  destruct (RatingRoutes.find_current db studentId rows) as [cur|] eqn:Hcur;
    [|discriminate H].
  injection H as <- <-. cbn [RatingRoutes.rating RatingRoutes.groupRankings].
  apply find_current_find in Hcur.
  assert (Hrows : rows = map (Rating.pre_save now)
                             (Ranking.assign_ranks (Ranking.find_sorted g db))).
  { pose proof (resolve_reply now g db) as Hr. rewrite Hres in Hr.
    cbn [fst] in Hr.
    destruct (forallb Rating.validate (Ranking.find_sorted g db));
      [now injection Hr | discriminate Hr]. }
  (* the student's row is in the ranking *)
  apply find_some in Hrow. destruct Hrow as [Hin Hkeys].
  apply andb_prop in Hkeys. destruct Hkeys as [Hs Hgr].
  apply Nat.eqb_eq in Hs, Hgr.
  destruct (find_sorted_position g db row Hin Hgr) as [i Hi].
  assert (Hfound : cur <> None).
  { intros ->. symmetry in Hcur.
    pose proof (returned_nth now (Ranking.find_sorted g db) i) as Hnth.
    rewrite Hi, <- Hrows in Hnth. cbn [option_map] in Hnth.
    apply nth_error_In in Hnth.
    pose proof (find_none _ _ Hcur _ Hnth) as Hno. cbn beta in Hno.
    destruct (pre_save_frame now
                (Rating.set_rankInGroup (Z.of_nat i + 1) row))
      as (_ & Hst & _).
    rewrite Hst in Hno. cbn [Rating.student Rating.set_rankInGroup] in Hno.
    rewrite Hs, Nat.eqb_refl in Hno. discriminate Hno. }
  destruct cur as [r|]; [|now elim Hfound]. symmetry in Hcur.
  apply find_some in Hcur. destruct Hcur as [Hr Hrs].
  apply Nat.eqb_eq in Hrs.
  destruct (In_nth_error _ _ Hr) as [n Hn].
  pose proof (returned_nth now (Ranking.find_sorted g db) n) as Hnth.
  rewrite <- Hrows, Hn in Hnth.
  destruct (nth_error (Ranking.find_sorted g db) n) as [r0|] eqn:Hr0;
    [|discriminate Hnth].
  injection Hnth as Hr_eq.
  destruct (pre_save_frame now (Rating.set_rankInGroup (Z.of_nat n + 1) r0))
    as (_ & _ & Hgroup & _ & _ & Hrank & _).
  rewrite <- Hr_eq in Hgroup, Hrank.
  cbn [Rating.group Rating.rankInGroup Rating.set_rankInGroup]
    in Hgroup, Hrank.
  exists user, student, g, r, n.
  split; [reflexivity|]. split.
  { intros Hrole. rewrite Hrole in E1. cbn [User.Role_eqb andb] in E1.
    apply negb_false_iff, Nat.eqb_eq in E1. exact E1. }
  split.
  { intros Hrole. rewrite Hrole in E2. cbn [User.Role_eqb andb] in E2.
    apply negb_false_iff, existsb_exists in E2.
    destruct E2 as (child & Hchild & Heq). apply Nat.eqb_eq in Heq.
    now subst child. }
  split; [reflexivity|]. split.
  { unfold RatingRoutes.populated_group in Hg.
    destruct (User.group student) as [g0|]; [|discriminate Hg].
    destruct (existsb (Nat.eqb g0) (groups db)); [|discriminate Hg].
    exact Hg. }
  split; [exact Hres|]. split; [reflexivity|]. split; [exact Hrs|].
  split; [rewrite Hgroup; exact (find_sorted_group g db n r0 Hr0)|].
  split; [exact Hn | exact Hrank].
Qed.

Lemma student_reply_holds_own_row_witness :
  exists data db',
    RatingRoutes.get_student 1 Sample.group7_db (Auth.Bearer 12) 12
    = (Success data, db')
    /\ exists r, RatingRoutes.rating data = Some r
                 /\ Rating.student r = 12%nat /\ Rating.group r = 7%nat.
Proof.
  eexists. eexists. split; [vm_compute; reflexivity|].
  destruct (student_reply_holds_own_row
              1 Sample.group7_db _ (Auth.Bearer 12) 12 _ eq_refl)
    as (user & student & g & r & n & _ & _ & _ & Hst & Hg & _ & Hr & Hs & Hgr
        & _).
  exists r. split; [exact Hr|]. split; [exact Hs|].
  rewrite Hgr. vm_compute in Hst. injection Hst as <-.
  now injection Hg as <-.
Defined.

(** ** Requests without an active account *)

Lemma auth_refuses (db : Db) (tok : Auth.Token) :
  (forall uid user,
      tok = Auth.Bearer uid ->
      findById User.id uid (users db) = Some user ->
      User.isActive user = false) ->
  exists msg, Auth.auth db tok = inr (401%nat, msg).
Proof.
  intros H. destruct tok as [| |uid]; cbn [Auth.auth];
    [eexists; reflexivity..|].
  destruct (findById User.id uid (users db)) as [user|] eqn:Hu;
    [|eexists; reflexivity].
  rewrite (H uid user eq_refl Hu). cbn [negb]. eexists; reflexivity.
Qed.

(** X19. A request whose token is missing, is rejected, names no user or
    names a deactivated user is answered 401 with the same message by
    every route, and writes nothing: neither a claim nor a bonus task nor
    a rating read gets past the middleware, and a sequence of such
    requests leaves the store as it was. *)
Theorem no_entry_without_active_account (db : Db) (tok : Auth.Token) :
  (forall uid user,
      tok = Auth.Bearer uid ->
      findById User.id uid (users db) = Some user ->
      User.isActive user = false) ->
  exists msg,
    (forall now w1 w2 rewardId,
        Rewards.claim now w1 w2 db tok rewardId = (Failure 401 msg, db))
    /\ (forall now taskId proof notes,
           BonusTasks.complete now db tok taskId proof notes
           = (Failure 401 msg, db))
    /\ (forall now studentId,
           RatingRoutes.get_student now db tok studentId
           = (Failure 401 msg, db))
    /\ (forall now groupId,
           RatingRoutes.get_group now db tok groupId = (Failure 401 msg, db))
    /\ RewardsList.list db tok = Failure 401 msg
    /\ BonusList.list db tok = Failure 401 msg
    /\ Leaderboard.leaderboard db tok = Failure 401 msg
    /\ (forall uid ops, tok = Auth.Bearer uid -> Ledger.run uid db ops = db).
Proof.
  intros H. destruct (auth_refuses db tok H) as [msg Hauth]. exists msg.
  unfold Rewards.claim, BonusTasks.complete, RatingRoutes.get_student,
    RatingRoutes.get_group, RewardsList.list, BonusList.list,
    Leaderboard.leaderboard.
  rewrite Hauth. repeat (split; [reflexivity|]).
  intros uid ops ->. exact (run_unauthenticated uid db ops _ Hauth).
Qed.

Lemma no_entry_without_active_account_witness :
  exists msg,
    forall now taskId proof notes,
      BonusTasks.complete now Sample.group7_db (Auth.Bearer 99) taskId
                          proof notes
      = (Failure 401 msg, Sample.group7_db).
Proof.
  destruct (no_entry_without_active_account Sample.group7_db (Auth.Bearer 99))
    as (msg & _ & Hcomplete & _).
  - intros uid user [= <-] Hfind. vm_compute in Hfind. discriminate Hfind.
  - exists msg. exact Hcomplete.
Defined.
